(** * Selection and view controller of the space-vote kiosk (static/js/app.js)

    A shallow embedding of the browser front end: the module-level variables
    of app.js, the part of the DOM and of the browser (timers, network,
    alert) its handlers read and write, and every handler as a function on
    that state.  Asynchronous handlers are split at their [await] points; the
    event loop is the function [step], which dispatches one event to the
    handler or continuation registered for it.

    Objects used as maps ([translationsCache], [langDirections], a
    translation file) are read as JavaScript reads them: an own property
    first, then the members every plain object inherits from
    [Object.prototype].  A [TypeError] raised while texts are rendered ends
    the handler where it is raised, unless the handler catches it, and the
    state keeps what was written before.

    What is left out: CSS classes other than [is-hidden] (they only drive
    styling and animations), the text shown in the grid and in the rocket
    blocks, and the timers whose callbacks only remove CSS classes.  The
    page template and the translation files are not among the sources.  The
    page is taken to contain the launch button, the rocket and the
    word-cloud image; the grid items and rocket blocks are taken to be
    button elements, so that the browser dispatches no click to them while
    their [disabled] property is set; a translation file is taken to be a
    JSON object.  The elements carrying a [data-key], the number of rocket
    blocks and the properties of the members of [Object.prototype] are
    parameters of the state ([host]). *)

From Stdlib Require Import String Ascii Arith NArith ZArith Bool Lia List.
Import ListNotations.
Open Scope string_scope.
Open Scope list_scope.
Open Scope nat_scope.

(** ** JavaScript values *)

Module Js.

(** A JavaScript string: its UTF-16 code units. *)
Definition JsString := list N.

(** WhiteSpace and LineTerminator of ECMAScript, which is what [trim]
    removes and what [\s] matches. *)
Definition isWhiteSpace (c : N) : bool :=
  (N.eqb c 9 || N.eqb c 10 || N.eqb c 11 || N.eqb c 12 || N.eqb c 13 || N.eqb c 32
   || N.eqb c 160 || N.eqb c 5760 || (N.leb 8192 c && N.leb c 8202)
   || N.eqb c 8232 || N.eqb c 8233 || N.eqb c 8239 || N.eqb c 8287 || N.eqb c 12288
   || N.eqb c 65279)%bool.

Fixpoint dropWhile {A} (p : A -> bool) (l : list A) : list A :=
  match l with
  | [] => []
  | x :: r => if p x then dropWhile p r else l
  end.

(** [String.prototype.trim]. *)
Definition trim (s : JsString) : JsString :=
  rev (dropWhile isWhiteSpace (rev (dropWhile isWhiteSpace s))).

(** The code units of a text written in ASCII. *)
Definition ascii16 (s : string) : JsString :=
  map N_of_ascii (list_ascii_of_string s).

(** A value as the handlers tell values apart: a string, or anything else
    (number, boolean, null, array, object, function), of which only the
    truthiness is read. *)
Inductive JsValue :=
  | JString (text : JsString)
  | JOther (truthy : bool).

(** The outcome of reading a property: [undefined], a value, or an
    exception raised by an accessor. *)
Inductive Lookup :=
  | Undefined
  | Value (v : JsValue)
  | Raises.

(** The names every plain object inherits from [Object.prototype]. *)
Definition objectPrototype : list string :=
  ["constructor"; "__defineGetter__"; "__defineSetter__"; "hasOwnProperty";
   "__lookupGetter__"; "__lookupSetter__"; "isPrototypeOf"; "propertyIsEnumerable";
   "toString"; "valueOf"; "__proto__"; "toLocaleString"].

Definition inherited (name : string) : bool := existsb (String.eqb name) objectPrototype.

(** [x || ""] followed by [if (text) formatTextForBox(el, text)], whose
    [text.trim()] is a TypeError unless [text] is a string: whether the
    value read makes this raise. *)
Definition raisesInBox (l : Lookup) : bool :=
  match l with
  | Undefined => false
  | Value (JString _) => false
  | Value (JOther truthy) => truthy
  | Raises => true
  end.

(** [el.textContent = x || ""] raises only when reading [x] does. *)
Definition raisesInDescription (l : Lookup) : bool :=
  match l with
  | Raises => true
  | _ => false
  end.

End Js.

(** ** Selection set *)

Module Selection.

(** One entry of [selectedItems]: [{gridButton, rocketIndex, key}].  The
    grid button is a DOM node, identified here by a number. *)
Record Item := mkItem {
  gridButton : nat;
  rocketIndex : nat;
  key : string
}.

(** A grid element as the click handler sees it: the node and its
    [dataset.key]. *)
Record GridButton := mkGridButton {
  node : nat;
  datasetKey : string
}.

Definition includes (l : list nat) (n : nat) : bool := existsb (Nat.eqb n) l.

(** [Array.prototype.findIndex]: [None] stands for -1. *)
Fixpoint findIndex {A} (p : A -> bool) (l : list A) : option nat :=
  match l with
  | [] => None
  | x :: r => if p x then Some 0 else option_map S (findIndex p r)
  end.

(** [splice(i, 1)]. *)
Fixpoint splice1 {A} (i : nat) (l : list A) : list A :=
  match l, i with
  | [], _ => []
  | _ :: r, 0 => r
  | x :: r, S j => x :: splice1 j r
  end.

(** The loop
    [while (usedIndices.includes(rocketIndex) && rocketIndex < 3) rocketIndex++]
    run for at most [fuel] iterations from [rocketIndex]. *)
Fixpoint scanRocketIndex (fuel : nat) (usedIndices : list nat) (rocketIndex : nat) : nat :=
  match fuel with
  | 0 => rocketIndex
  | S fuel' =>
      if includes usedIndices rocketIndex && (rocketIndex <? 3)
      then scanRocketIndex fuel' usedIndices (S rocketIndex)
      else rocketIndex
  end.

(** The loop started at 0 leaves after at most three iterations. *)
Definition nextRocketIndex (usedIndices : list nat) : nat :=
  scanRocketIndex 3 usedIndices 0.

(** The mutation of [selectedItems] done by [handleGridItemClick]. *)
Definition toggleItem (b : GridButton) (selectedItems : list Item) : list Item :=
  let k := datasetKey b in
  match findIndex (fun item => String.eqb (key item) k) selectedItems with
  | Some existingIndex => splice1 existingIndex selectedItems
  | None =>
      if length selectedItems <? 3 then
        let usedIndices := map rocketIndex selectedItems in
        let rocketIndex := nextRocketIndex usedIndices in
        if rocketIndex <? 3
        then selectedItems ++ [mkItem (node b) rocketIndex k]
        else selectedItems
      else selectedItems
  end.

(** The mutation of [selectedItems] done by [handleRocketBlockClick]; the
    second component tells whether an entry was found (the handler re-renders
    only then). *)
Definition toggleSlot (index : nat) (selectedItems : list Item) : list Item * bool :=
  match findIndex (fun item => Nat.eqb (rocketIndex item) index) selectedItems with
  | Some existingIndex => (splice1 existingIndex selectedItems, true)
  | None => (selectedItems, false)
  end.

Definition isFull (selectedItems : list Item) : bool := length selectedItems =? 3.

Definition keys (l : list Item) : list string := map key l.
Definition slots (l : list Item) : list nat := map rocketIndex l.

(** [i] is the lowest index of [0,3) that no entry of [l] occupies. *)
Definition lowestUnused (l : list Item) (i : nat) : Prop :=
  i < 3 /\ ~ In i (slots l) /\ forall j, j < i -> In j (slots l).

(** The data-model invariant of the selection set. *)
Record wf (l : list Item) : Prop := mkWf {
  wf_keys : NoDup (keys l);
  wf_slots : NoDup (slots l);
  wf_range : Forall (fun i => i < 3) (slots l);
  wf_size : length l <= 3
}.

End Selection.

(** ** Browser state and handlers *)

Module Controller.
Import Js Selection.

(** The own properties of a parsed JSON object. *)
Definition JsonObject := list (string * JsValue).

(** What [loadTranslations] can return: a translation file, or, for a
    language that names a member of [Object.prototype], that member, which
    [translationsCache[lang]] finds by inheritance. *)
Inductive Translations :=
  | Data (own : JsonObject)
  | Member (name : string).

(** The value [setAttribute("dir", ...)] is given: a text, or the string
    into which a member of [Object.prototype] converts. *)
Inductive Direction :=
  | Dir (text : string)
  | DirOfMember (name : string).

(** An element with a [data-key] that is no rocket button: a description
    title or subtitle, whose text is assigned as it is, or any other
    element, whose text goes through [formatTextForBox]. *)
Inductive BoxKind := Description | Formatted.

Record Box := mkBox {
  boxKind : BoxKind;
  boxKey : string      (* dataset.key *)
}.

(** What the page and the engine fix. *)
Record Host := mkHost {
  boxes : list Box;          (* the elements [applyTranslations] visits, in document order *)
  rocketBlockCount : nat;    (* number of [.rocket-choices .rocket-button] elements *)
  memberProperty : string -> string -> Lookup
                             (* [m[key]] for the member [m] that [({})[name]] is *)
}.

(** Outcome of a [fetch]: a response with [response.ok], a response without,
    or a rejected [fetch]. *)
Inductive Outcome := Ok | HttpError | NetworkError.

Inductive Promise := Pending | Fulfilled | Rejected.

(** The [await] at which the running [handleLaunchButtonClick] is
    suspended; [Idle] when none is running. *)
Inductive Stage :=
  | Idle
  | AwaitAnimation   (* await playRocketLaunchAnimation() *)
  | AwaitVote        (* await fetch('/submit-vote') *)
  | AwaitPrecompute  (* await precomputePromise *)
  | AwaitCommit      (* await commitWordcloud() *)
  | AwaitImage.      (* await loadWordcloudImage(currentLanguage) in showWordcloudView *)

Inductive Request :=
  | ReqTranslations (lang : string)                       (* GET /translations/<lang>.json *)
  | ReqPreview (items : list string) (language : string)  (* POST /preview-wordcloud *)
  | ReqRegenerate (language : string)                     (* POST /regenerate-wordcloud *)
  | ReqVote (items : list string)                         (* POST /submit-vote *)
  | ReqCommit                                             (* POST /commit-wordcloud *)
  | ReqImage (path : string).                             (* the image element loads its src *)

(** The functions handed to [setTimeout]. *)
Inductive Callback :=
  | CbReturnToSelection   (* setTimeout(returnToSelection, AUTO_RETURN_DELAY_MS) *)
  | CbReturnSwap.         (* the arrow function of returnToSelection, WORDCLOUD_FADE_MS *)

Record Timer := mkTimer {
  timerId : nat;
  delay : N;
  callback : Callback
}.

Definition AUTO_RETURN_DELAY_MS : N := 20000.
Definition AUTO_RETURN_ENABLED := true.
Definition WORDCLOUD_FADE_MS : N := 500.

(** The own properties of [langDirections]. *)
Definition langDirections : list (string * string) :=
  [("en", "ltr"); ("he", "rtl"); ("ar", "rtl")].

Fixpoint assoc {A} (k : string) (l : list (string * A)) : option A :=
  match l with
  | [] => None
  | (k', v) :: r => if String.eqb k k' then Some v else assoc k r
  end.

Record State := mkState {
  selectedItems : list Item;  (* [selectedItems] *)
  currentLanguage : string;  (* [currentLanguage] *)
  wordcloudReturnTimer : option nat;  (* [wordcloudReturnTimer]; [None] is null *)
  isWordcloudVisible : bool;  (* [isWordcloudVisible] *)
  translationsCache : list (string * Translations);  (* own properties of [translationsCache], newest first *)
  currentTranslations : Translations;  (* [currentTranslations] *)
  launchDisabled : bool;  (* [disabled] of the launch button *)
  gridDisabled : bool;  (* [disabled] of the grid buttons *)
  rocketDisabled : bool;  (* [disabled] of the rocket blocks *)
  selectionHidden : bool;  (* [is-hidden] on the selection container *)
  wordcloudHidden : bool;  (* [is-hidden] on the word-cloud container *)
  imageSrc : option string;  (* [src] of the word-cloud image, without its time stamp *)
  docLang : string;  (* [lang] of the document element *)
  docDir : Direction;  (* [dir] of the document element *)
  timers : list Timer;  (* pending [setTimeout] entries *)
  nextTimer : nat;  (* next timer handle *)
  requests : list Request;  (* network requests issued so far, oldest first *)
  alerts : nat;  (* number of [alert] boxes shown *)
  storedLanguage : option string;  (* localStorage item [selectedLanguage] *)
  pathname : string;  (* [window.location.pathname] *)
  navigation : option string;  (* target of an assignment to [location.href] *)
  stage : Stage;  (* where [handleLaunchButtonClick] is suspended *)
  selectedKeys : list string;  (* its local [selectedKeys] *)
  precomputePromise : Promise;  (* its local [precomputePromise] *)
  pendingTranslations : list string;  (* [setLanguage] calls awaiting their translations *)
  host : Host  (* the page and the engine, which no handler changes *)
}.

(** Field updates. *)
Definition set_selectedItems (v : list Item) (s : State) : State :=
  {| selectedItems := v; currentLanguage := currentLanguage s; wordcloudReturnTimer :=
  wordcloudReturnTimer s; isWordcloudVisible := isWordcloudVisible s; translationsCache :=
  translationsCache s; currentTranslations := currentTranslations s; launchDisabled :=
  launchDisabled s; gridDisabled := gridDisabled s; rocketDisabled := rocketDisabled s;
  selectionHidden := selectionHidden s; wordcloudHidden := wordcloudHidden s; imageSrc :=
  imageSrc s; docLang := docLang s; docDir := docDir s; timers := timers s; nextTimer :=
  nextTimer s; requests := requests s; alerts := alerts s; storedLanguage := storedLanguage s;
  pathname := pathname s; navigation := navigation s; stage := stage s; selectedKeys :=
  selectedKeys s; precomputePromise := precomputePromise s; pendingTranslations :=
  pendingTranslations s; host := host s |}.
Definition set_currentLanguage (v : string) (s : State) : State :=
  {| selectedItems := selectedItems s; currentLanguage := v; wordcloudReturnTimer :=
  wordcloudReturnTimer s; isWordcloudVisible := isWordcloudVisible s; translationsCache :=
  translationsCache s; currentTranslations := currentTranslations s; launchDisabled :=
  launchDisabled s; gridDisabled := gridDisabled s; rocketDisabled := rocketDisabled s;
  selectionHidden := selectionHidden s; wordcloudHidden := wordcloudHidden s; imageSrc :=
  imageSrc s; docLang := docLang s; docDir := docDir s; timers := timers s; nextTimer :=
  nextTimer s; requests := requests s; alerts := alerts s; storedLanguage := storedLanguage s;
  pathname := pathname s; navigation := navigation s; stage := stage s; selectedKeys :=
  selectedKeys s; precomputePromise := precomputePromise s; pendingTranslations :=
  pendingTranslations s; host := host s |}.
Definition set_wordcloudReturnTimer (v : option nat) (s : State) : State :=
  {| selectedItems := selectedItems s; currentLanguage := currentLanguage s;
  wordcloudReturnTimer := v; isWordcloudVisible := isWordcloudVisible s; translationsCache :=
  translationsCache s; currentTranslations := currentTranslations s; launchDisabled :=
  launchDisabled s; gridDisabled := gridDisabled s; rocketDisabled := rocketDisabled s;
  selectionHidden := selectionHidden s; wordcloudHidden := wordcloudHidden s; imageSrc :=
  imageSrc s; docLang := docLang s; docDir := docDir s; timers := timers s; nextTimer :=
  nextTimer s; requests := requests s; alerts := alerts s; storedLanguage := storedLanguage s;
  pathname := pathname s; navigation := navigation s; stage := stage s; selectedKeys :=
  selectedKeys s; precomputePromise := precomputePromise s; pendingTranslations :=
  pendingTranslations s; host := host s |}.
Definition set_isWordcloudVisible (v : bool) (s : State) : State :=
  {| selectedItems := selectedItems s; currentLanguage := currentLanguage s;
  wordcloudReturnTimer := wordcloudReturnTimer s; isWordcloudVisible := v; translationsCache
  := translationsCache s; currentTranslations := currentTranslations s; launchDisabled :=
  launchDisabled s; gridDisabled := gridDisabled s; rocketDisabled := rocketDisabled s;
  selectionHidden := selectionHidden s; wordcloudHidden := wordcloudHidden s; imageSrc :=
  imageSrc s; docLang := docLang s; docDir := docDir s; timers := timers s; nextTimer :=
  nextTimer s; requests := requests s; alerts := alerts s; storedLanguage := storedLanguage s;
  pathname := pathname s; navigation := navigation s; stage := stage s; selectedKeys :=
  selectedKeys s; precomputePromise := precomputePromise s; pendingTranslations :=
  pendingTranslations s; host := host s |}.
Definition set_translationsCache (v : list (string * Translations)) (s : State) : State :=
  {| selectedItems := selectedItems s; currentLanguage := currentLanguage s;
  wordcloudReturnTimer := wordcloudReturnTimer s; isWordcloudVisible := isWordcloudVisible s;
  translationsCache := v; currentTranslations := currentTranslations s; launchDisabled :=
  launchDisabled s; gridDisabled := gridDisabled s; rocketDisabled := rocketDisabled s;
  selectionHidden := selectionHidden s; wordcloudHidden := wordcloudHidden s; imageSrc :=
  imageSrc s; docLang := docLang s; docDir := docDir s; timers := timers s; nextTimer :=
  nextTimer s; requests := requests s; alerts := alerts s; storedLanguage := storedLanguage s;
  pathname := pathname s; navigation := navigation s; stage := stage s; selectedKeys :=
  selectedKeys s; precomputePromise := precomputePromise s; pendingTranslations :=
  pendingTranslations s; host := host s |}.
Definition set_currentTranslations (v : Translations) (s : State) : State :=
  {| selectedItems := selectedItems s; currentLanguage := currentLanguage s;
  wordcloudReturnTimer := wordcloudReturnTimer s; isWordcloudVisible := isWordcloudVisible s;
  translationsCache := translationsCache s; currentTranslations := v; launchDisabled :=
  launchDisabled s; gridDisabled := gridDisabled s; rocketDisabled := rocketDisabled s;
  selectionHidden := selectionHidden s; wordcloudHidden := wordcloudHidden s; imageSrc :=
  imageSrc s; docLang := docLang s; docDir := docDir s; timers := timers s; nextTimer :=
  nextTimer s; requests := requests s; alerts := alerts s; storedLanguage := storedLanguage s;
  pathname := pathname s; navigation := navigation s; stage := stage s; selectedKeys :=
  selectedKeys s; precomputePromise := precomputePromise s; pendingTranslations :=
  pendingTranslations s; host := host s |}.
Definition set_launchDisabled (v : bool) (s : State) : State :=
  {| selectedItems := selectedItems s; currentLanguage := currentLanguage s;
  wordcloudReturnTimer := wordcloudReturnTimer s; isWordcloudVisible := isWordcloudVisible s;
  translationsCache := translationsCache s; currentTranslations := currentTranslations s;
  launchDisabled := v; gridDisabled := gridDisabled s; rocketDisabled := rocketDisabled s;
  selectionHidden := selectionHidden s; wordcloudHidden := wordcloudHidden s; imageSrc :=
  imageSrc s; docLang := docLang s; docDir := docDir s; timers := timers s; nextTimer :=
  nextTimer s; requests := requests s; alerts := alerts s; storedLanguage := storedLanguage s;
  pathname := pathname s; navigation := navigation s; stage := stage s; selectedKeys :=
  selectedKeys s; precomputePromise := precomputePromise s; pendingTranslations :=
  pendingTranslations s; host := host s |}.
Definition set_gridDisabled (v : bool) (s : State) : State :=
  {| selectedItems := selectedItems s; currentLanguage := currentLanguage s;
  wordcloudReturnTimer := wordcloudReturnTimer s; isWordcloudVisible := isWordcloudVisible s;
  translationsCache := translationsCache s; currentTranslations := currentTranslations s;
  launchDisabled := launchDisabled s; gridDisabled := v; rocketDisabled := rocketDisabled s;
  selectionHidden := selectionHidden s; wordcloudHidden := wordcloudHidden s; imageSrc :=
  imageSrc s; docLang := docLang s; docDir := docDir s; timers := timers s; nextTimer :=
  nextTimer s; requests := requests s; alerts := alerts s; storedLanguage := storedLanguage s;
  pathname := pathname s; navigation := navigation s; stage := stage s; selectedKeys :=
  selectedKeys s; precomputePromise := precomputePromise s; pendingTranslations :=
  pendingTranslations s; host := host s |}.
Definition set_rocketDisabled (v : bool) (s : State) : State :=
  {| selectedItems := selectedItems s; currentLanguage := currentLanguage s;
  wordcloudReturnTimer := wordcloudReturnTimer s; isWordcloudVisible := isWordcloudVisible s;
  translationsCache := translationsCache s; currentTranslations := currentTranslations s;
  launchDisabled := launchDisabled s; gridDisabled := gridDisabled s; rocketDisabled := v;
  selectionHidden := selectionHidden s; wordcloudHidden := wordcloudHidden s; imageSrc :=
  imageSrc s; docLang := docLang s; docDir := docDir s; timers := timers s; nextTimer :=
  nextTimer s; requests := requests s; alerts := alerts s; storedLanguage := storedLanguage s;
  pathname := pathname s; navigation := navigation s; stage := stage s; selectedKeys :=
  selectedKeys s; precomputePromise := precomputePromise s; pendingTranslations :=
  pendingTranslations s; host := host s |}.
Definition set_selectionHidden (v : bool) (s : State) : State :=
  {| selectedItems := selectedItems s; currentLanguage := currentLanguage s;
  wordcloudReturnTimer := wordcloudReturnTimer s; isWordcloudVisible := isWordcloudVisible s;
  translationsCache := translationsCache s; currentTranslations := currentTranslations s;
  launchDisabled := launchDisabled s; gridDisabled := gridDisabled s; rocketDisabled :=
  rocketDisabled s; selectionHidden := v; wordcloudHidden := wordcloudHidden s; imageSrc :=
  imageSrc s; docLang := docLang s; docDir := docDir s; timers := timers s; nextTimer :=
  nextTimer s; requests := requests s; alerts := alerts s; storedLanguage := storedLanguage s;
  pathname := pathname s; navigation := navigation s; stage := stage s; selectedKeys :=
  selectedKeys s; precomputePromise := precomputePromise s; pendingTranslations :=
  pendingTranslations s; host := host s |}.
Definition set_wordcloudHidden (v : bool) (s : State) : State :=
  {| selectedItems := selectedItems s; currentLanguage := currentLanguage s;
  wordcloudReturnTimer := wordcloudReturnTimer s; isWordcloudVisible := isWordcloudVisible s;
  translationsCache := translationsCache s; currentTranslations := currentTranslations s;
  launchDisabled := launchDisabled s; gridDisabled := gridDisabled s; rocketDisabled :=
  rocketDisabled s; selectionHidden := selectionHidden s; wordcloudHidden := v; imageSrc :=
  imageSrc s; docLang := docLang s; docDir := docDir s; timers := timers s; nextTimer :=
  nextTimer s; requests := requests s; alerts := alerts s; storedLanguage := storedLanguage s;
  pathname := pathname s; navigation := navigation s; stage := stage s; selectedKeys :=
  selectedKeys s; precomputePromise := precomputePromise s; pendingTranslations :=
  pendingTranslations s; host := host s |}.
Definition set_imageSrc (v : option string) (s : State) : State :=
  {| selectedItems := selectedItems s; currentLanguage := currentLanguage s;
  wordcloudReturnTimer := wordcloudReturnTimer s; isWordcloudVisible := isWordcloudVisible s;
  translationsCache := translationsCache s; currentTranslations := currentTranslations s;
  launchDisabled := launchDisabled s; gridDisabled := gridDisabled s; rocketDisabled :=
  rocketDisabled s; selectionHidden := selectionHidden s; wordcloudHidden := wordcloudHidden
  s; imageSrc := v; docLang := docLang s; docDir := docDir s; timers := timers s; nextTimer :=
  nextTimer s; requests := requests s; alerts := alerts s; storedLanguage := storedLanguage s;
  pathname := pathname s; navigation := navigation s; stage := stage s; selectedKeys :=
  selectedKeys s; precomputePromise := precomputePromise s; pendingTranslations :=
  pendingTranslations s; host := host s |}.
Definition set_docLang (v : string) (s : State) : State :=
  {| selectedItems := selectedItems s; currentLanguage := currentLanguage s;
  wordcloudReturnTimer := wordcloudReturnTimer s; isWordcloudVisible := isWordcloudVisible s;
  translationsCache := translationsCache s; currentTranslations := currentTranslations s;
  launchDisabled := launchDisabled s; gridDisabled := gridDisabled s; rocketDisabled :=
  rocketDisabled s; selectionHidden := selectionHidden s; wordcloudHidden := wordcloudHidden
  s; imageSrc := imageSrc s; docLang := v; docDir := docDir s; timers := timers s; nextTimer
  := nextTimer s; requests := requests s; alerts := alerts s; storedLanguage := storedLanguage
  s; pathname := pathname s; navigation := navigation s; stage := stage s; selectedKeys :=
  selectedKeys s; precomputePromise := precomputePromise s; pendingTranslations :=
  pendingTranslations s; host := host s |}.
Definition set_docDir (v : Direction) (s : State) : State :=
  {| selectedItems := selectedItems s; currentLanguage := currentLanguage s;
  wordcloudReturnTimer := wordcloudReturnTimer s; isWordcloudVisible := isWordcloudVisible s;
  translationsCache := translationsCache s; currentTranslations := currentTranslations s;
  launchDisabled := launchDisabled s; gridDisabled := gridDisabled s; rocketDisabled :=
  rocketDisabled s; selectionHidden := selectionHidden s; wordcloudHidden := wordcloudHidden
  s; imageSrc := imageSrc s; docLang := docLang s; docDir := v; timers := timers s; nextTimer
  := nextTimer s; requests := requests s; alerts := alerts s; storedLanguage := storedLanguage
  s; pathname := pathname s; navigation := navigation s; stage := stage s; selectedKeys :=
  selectedKeys s; precomputePromise := precomputePromise s; pendingTranslations :=
  pendingTranslations s; host := host s |}.
Definition set_timers (v : list Timer) (s : State) : State :=
  {| selectedItems := selectedItems s; currentLanguage := currentLanguage s;
  wordcloudReturnTimer := wordcloudReturnTimer s; isWordcloudVisible := isWordcloudVisible s;
  translationsCache := translationsCache s; currentTranslations := currentTranslations s;
  launchDisabled := launchDisabled s; gridDisabled := gridDisabled s; rocketDisabled :=
  rocketDisabled s; selectionHidden := selectionHidden s; wordcloudHidden := wordcloudHidden
  s; imageSrc := imageSrc s; docLang := docLang s; docDir := docDir s; timers := v; nextTimer
  := nextTimer s; requests := requests s; alerts := alerts s; storedLanguage := storedLanguage
  s; pathname := pathname s; navigation := navigation s; stage := stage s; selectedKeys :=
  selectedKeys s; precomputePromise := precomputePromise s; pendingTranslations :=
  pendingTranslations s; host := host s |}.
Definition set_nextTimer (v : nat) (s : State) : State :=
  {| selectedItems := selectedItems s; currentLanguage := currentLanguage s;
  wordcloudReturnTimer := wordcloudReturnTimer s; isWordcloudVisible := isWordcloudVisible s;
  translationsCache := translationsCache s; currentTranslations := currentTranslations s;
  launchDisabled := launchDisabled s; gridDisabled := gridDisabled s; rocketDisabled :=
  rocketDisabled s; selectionHidden := selectionHidden s; wordcloudHidden := wordcloudHidden
  s; imageSrc := imageSrc s; docLang := docLang s; docDir := docDir s; timers := timers s;
  nextTimer := v; requests := requests s; alerts := alerts s; storedLanguage := storedLanguage
  s; pathname := pathname s; navigation := navigation s; stage := stage s; selectedKeys :=
  selectedKeys s; precomputePromise := precomputePromise s; pendingTranslations :=
  pendingTranslations s; host := host s |}.
Definition set_requests (v : list Request) (s : State) : State :=
  {| selectedItems := selectedItems s; currentLanguage := currentLanguage s;
  wordcloudReturnTimer := wordcloudReturnTimer s; isWordcloudVisible := isWordcloudVisible s;
  translationsCache := translationsCache s; currentTranslations := currentTranslations s;
  launchDisabled := launchDisabled s; gridDisabled := gridDisabled s; rocketDisabled :=
  rocketDisabled s; selectionHidden := selectionHidden s; wordcloudHidden := wordcloudHidden
  s; imageSrc := imageSrc s; docLang := docLang s; docDir := docDir s; timers := timers s;
  nextTimer := nextTimer s; requests := v; alerts := alerts s; storedLanguage :=
  storedLanguage s; pathname := pathname s; navigation := navigation s; stage := stage s;
  selectedKeys := selectedKeys s; precomputePromise := precomputePromise s;
  pendingTranslations := pendingTranslations s; host := host s |}.
Definition set_alerts (v : nat) (s : State) : State :=
  {| selectedItems := selectedItems s; currentLanguage := currentLanguage s;
  wordcloudReturnTimer := wordcloudReturnTimer s; isWordcloudVisible := isWordcloudVisible s;
  translationsCache := translationsCache s; currentTranslations := currentTranslations s;
  launchDisabled := launchDisabled s; gridDisabled := gridDisabled s; rocketDisabled :=
  rocketDisabled s; selectionHidden := selectionHidden s; wordcloudHidden := wordcloudHidden
  s; imageSrc := imageSrc s; docLang := docLang s; docDir := docDir s; timers := timers s;
  nextTimer := nextTimer s; requests := requests s; alerts := v; storedLanguage :=
  storedLanguage s; pathname := pathname s; navigation := navigation s; stage := stage s;
  selectedKeys := selectedKeys s; precomputePromise := precomputePromise s;
  pendingTranslations := pendingTranslations s; host := host s |}.
Definition set_storedLanguage (v : option string) (s : State) : State :=
  {| selectedItems := selectedItems s; currentLanguage := currentLanguage s;
  wordcloudReturnTimer := wordcloudReturnTimer s; isWordcloudVisible := isWordcloudVisible s;
  translationsCache := translationsCache s; currentTranslations := currentTranslations s;
  launchDisabled := launchDisabled s; gridDisabled := gridDisabled s; rocketDisabled :=
  rocketDisabled s; selectionHidden := selectionHidden s; wordcloudHidden := wordcloudHidden
  s; imageSrc := imageSrc s; docLang := docLang s; docDir := docDir s; timers := timers s;
  nextTimer := nextTimer s; requests := requests s; alerts := alerts s; storedLanguage := v;
  pathname := pathname s; navigation := navigation s; stage := stage s; selectedKeys :=
  selectedKeys s; precomputePromise := precomputePromise s; pendingTranslations :=
  pendingTranslations s; host := host s |}.
Definition set_pathname (v : string) (s : State) : State :=
  {| selectedItems := selectedItems s; currentLanguage := currentLanguage s;
  wordcloudReturnTimer := wordcloudReturnTimer s; isWordcloudVisible := isWordcloudVisible s;
  translationsCache := translationsCache s; currentTranslations := currentTranslations s;
  launchDisabled := launchDisabled s; gridDisabled := gridDisabled s; rocketDisabled :=
  rocketDisabled s; selectionHidden := selectionHidden s; wordcloudHidden := wordcloudHidden
  s; imageSrc := imageSrc s; docLang := docLang s; docDir := docDir s; timers := timers s;
  nextTimer := nextTimer s; requests := requests s; alerts := alerts s; storedLanguage :=
  storedLanguage s; pathname := v; navigation := navigation s; stage := stage s; selectedKeys
  := selectedKeys s; precomputePromise := precomputePromise s; pendingTranslations :=
  pendingTranslations s; host := host s |}.
Definition set_navigation (v : option string) (s : State) : State :=
  {| selectedItems := selectedItems s; currentLanguage := currentLanguage s;
  wordcloudReturnTimer := wordcloudReturnTimer s; isWordcloudVisible := isWordcloudVisible s;
  translationsCache := translationsCache s; currentTranslations := currentTranslations s;
  launchDisabled := launchDisabled s; gridDisabled := gridDisabled s; rocketDisabled :=
  rocketDisabled s; selectionHidden := selectionHidden s; wordcloudHidden := wordcloudHidden
  s; imageSrc := imageSrc s; docLang := docLang s; docDir := docDir s; timers := timers s;
  nextTimer := nextTimer s; requests := requests s; alerts := alerts s; storedLanguage :=
  storedLanguage s; pathname := pathname s; navigation := v; stage := stage s; selectedKeys :=
  selectedKeys s; precomputePromise := precomputePromise s; pendingTranslations :=
  pendingTranslations s; host := host s |}.
Definition set_stage (v : Stage) (s : State) : State :=
  {| selectedItems := selectedItems s; currentLanguage := currentLanguage s;
  wordcloudReturnTimer := wordcloudReturnTimer s; isWordcloudVisible := isWordcloudVisible s;
  translationsCache := translationsCache s; currentTranslations := currentTranslations s;
  launchDisabled := launchDisabled s; gridDisabled := gridDisabled s; rocketDisabled :=
  rocketDisabled s; selectionHidden := selectionHidden s; wordcloudHidden := wordcloudHidden
  s; imageSrc := imageSrc s; docLang := docLang s; docDir := docDir s; timers := timers s;
  nextTimer := nextTimer s; requests := requests s; alerts := alerts s; storedLanguage :=
  storedLanguage s; pathname := pathname s; navigation := navigation s; stage := v;
  selectedKeys := selectedKeys s; precomputePromise := precomputePromise s;
  pendingTranslations := pendingTranslations s; host := host s |}.
Definition set_selectedKeys (v : list string) (s : State) : State :=
  {| selectedItems := selectedItems s; currentLanguage := currentLanguage s;
  wordcloudReturnTimer := wordcloudReturnTimer s; isWordcloudVisible := isWordcloudVisible s;
  translationsCache := translationsCache s; currentTranslations := currentTranslations s;
  launchDisabled := launchDisabled s; gridDisabled := gridDisabled s; rocketDisabled :=
  rocketDisabled s; selectionHidden := selectionHidden s; wordcloudHidden := wordcloudHidden
  s; imageSrc := imageSrc s; docLang := docLang s; docDir := docDir s; timers := timers s;
  nextTimer := nextTimer s; requests := requests s; alerts := alerts s; storedLanguage :=
  storedLanguage s; pathname := pathname s; navigation := navigation s; stage := stage s;
  selectedKeys := v; precomputePromise := precomputePromise s; pendingTranslations :=
  pendingTranslations s; host := host s |}.
Definition set_precomputePromise (v : Promise) (s : State) : State :=
  {| selectedItems := selectedItems s; currentLanguage := currentLanguage s;
  wordcloudReturnTimer := wordcloudReturnTimer s; isWordcloudVisible := isWordcloudVisible s;
  translationsCache := translationsCache s; currentTranslations := currentTranslations s;
  launchDisabled := launchDisabled s; gridDisabled := gridDisabled s; rocketDisabled :=
  rocketDisabled s; selectionHidden := selectionHidden s; wordcloudHidden := wordcloudHidden
  s; imageSrc := imageSrc s; docLang := docLang s; docDir := docDir s; timers := timers s;
  nextTimer := nextTimer s; requests := requests s; alerts := alerts s; storedLanguage :=
  storedLanguage s; pathname := pathname s; navigation := navigation s; stage := stage s;
  selectedKeys := selectedKeys s; precomputePromise := v; pendingTranslations :=
  pendingTranslations s; host := host s |}.
Definition set_pendingTranslations (v : list string) (s : State) : State :=
  {| selectedItems := selectedItems s; currentLanguage := currentLanguage s;
  wordcloudReturnTimer := wordcloudReturnTimer s; isWordcloudVisible := isWordcloudVisible s;
  translationsCache := translationsCache s; currentTranslations := currentTranslations s;
  launchDisabled := launchDisabled s; gridDisabled := gridDisabled s; rocketDisabled :=
  rocketDisabled s; selectionHidden := selectionHidden s; wordcloudHidden := wordcloudHidden
  s; imageSrc := imageSrc s; docLang := docLang s; docDir := docDir s; timers := timers s;
  nextTimer := nextTimer s; requests := requests s; alerts := alerts s; storedLanguage :=
  storedLanguage s; pathname := pathname s; navigation := navigation s; stage := stage s;
  selectedKeys := selectedKeys s; precomputePromise := precomputePromise s;
  pendingTranslations := v; host := host s |}.

(** How a call ends: normally, or by an exception that nothing in the
    callee catches; either way with the state reached. *)
Inductive Completion :=
  | Normal (s : State)
  | Throw (s : State).

(** *** Browser primitives *)

Definition fetch (r : Request) (s : State) : State :=
  set_requests (requests s ++ [r]) s.

(** [setTimeout(cb, ms)]: the handle is returned with the new state. *)
Definition setTimeout (cb : Callback) (ms : N) (s : State) : nat * State :=
  let id := nextTimer s in
  (id, set_nextTimer (S id) (set_timers (timers s ++ [mkTimer id ms cb]) s)).

Definition clearTimeout (id : nat) (s : State) : State :=
  set_timers (filter (fun t => negb (timerId t =? id)) (timers s)) s.

Definition findTimer (id : nat) (s : State) : option Timer :=
  find (fun t => timerId t =? id) (timers s).

Definition alert (s : State) : State := set_alerts (S (alerts s)) s.

(** *** Reading objects *)

(** [translations[key]]. *)
Definition getProperty (h : Host) (translations : Translations) (k : string) : Lookup :=
  match translations with
  | Data own =>
      match assoc k own with
      | Some v => Value v
      | None => if inherited k then Value (JOther true) else Undefined
      end
  | Member name => memberProperty h name k
  end.

(** [translationsCache[lang]] when it is truthy: a file cached under
    [lang], or the member of [Object.prototype] that [lang] names. *)
Definition cachedTranslations (lang : string) (s : State) : option Translations :=
  match assoc lang (translationsCache s) with
  | Some translations => Some translations
  | None => if inherited lang then Some (Member lang) else None
  end.

(** [langDirections[lang] || "ltr"]. *)
Definition directionOf (lang : string) : Direction :=
  match assoc lang langDirections with
  | Some d => Dir d
  | None => if inherited lang then DirOfMember lang else Dir "ltr"
  end.

(** *** Selection handlers *)

Definition updateLaunchButtonState (s : State) : State :=
  let hasThreeSelections := length (selectedItems s) =? 3 in
  if hasThreeSelections then set_launchDisabled false s else set_launchDisabled true s.

(** Classes of the grid buttons are not modelled; what remains is the call
    to [updateLaunchButtonState]. *)
Definition updateGridStates (s : State) : State := updateLaunchButtonState s.

(** The body of the second [forEach] of [updateRocketBlocks] for one entry:
    whether [formatTextForBox] is called on its block with a text that is
    no string. *)
Definition blockRaises (h : Host) (translations : Translations) (item : Item) : bool :=
  (rocketIndex item <? rocketBlockCount h) &&
  raisesInBox (getProperty h translations (key item)).

(** Only the text of the rocket blocks changes, which is not part of the
    state; the call raises at the first entry whose text is no string. *)
Definition updateRocketBlocks (s : State) : Completion :=
  if existsb (blockRaises (host s) (currentTranslations s)) (selectedItems s)
  then Throw s else Normal s.

(** An exception of [updateRocketBlocks] leaves the listener before
    [updateGridStates] is called. *)
Definition handleGridItemClick (gridButton : GridButton) (s : State) : State :=
  let s := set_selectedItems (toggleItem gridButton (selectedItems s)) s in
  match updateRocketBlocks s with
  | Normal s => updateGridStates s
  | Throw s => s
  end.

Definition handleRocketBlockClick (rocketIndex : nat) (s : State) : State :=
  match toggleSlot rocketIndex (selectedItems s) with
  | (items, true) =>
      match updateRocketBlocks (set_selectedItems items s) with
      | Normal s => updateGridStates s
      | Throw s => s
      end
  | (_, false) => s
  end.

Definition setLaunchInteractionDisabled (isDisabled : bool) (s : State) : State :=
  set_launchDisabled isDisabled (set_rocketDisabled isDisabled (set_gridDisabled isDisabled s)).

(** *** Language *)

Definition isWordcloudPage (s : State) : bool := String.eqb (pathname s) "/wordcloud".

Definition getWordcloudImagePath (language : string) : string :=
  "/static/wordcloud/wordcloud_" ++ language ++ ".png".

(** Assigning [src] starts the load; the outcome comes back as an
    [ImageLoaded] event. *)
Definition loadWordcloudImage (language : string) (s : State) : State :=
  let path := getWordcloudImagePath language in
  fetch (ReqImage path) (set_imageSrc (Some path) s).

Definition updateWordcloudImage (language : string) (s : State) : State :=
  loadWordcloudImage language s.

Definition setLanguageAttributes (lang : string) (s : State) : State :=
  let direction := directionOf lang in
  set_docDir direction (set_docLang lang s).

(** The body of the [forEach] of [applyTranslations] for one element:
    whether it raises. *)
Definition boxRaises (h : Host) (translations : Translations) (b : Box) : bool :=
  let value := getProperty h translations (boxKey b) in
  match boxKind b with
  | Description => raisesInDescription value
  | Formatted => raisesInBox value
  end.

(** [currentTranslations] is assigned first; the [forEach] raises at the
    first element whose text is no string, and [updateRocketBlocks] is then
    not reached. *)
Definition applyTranslations (translations : Translations) (s : State) : Completion :=
  let s := set_currentTranslations translations s in
  if existsb (boxRaises (host s) translations) (boxes (host s)) then Throw s
  else updateRocketBlocks s.

(** [setLanguage] after [await loadTranslations(lang)].  An exception of
    [applyTranslations] is caught by [setLanguage], which logs it and
    ends: the image is then not switched. *)
Definition setLanguage_resume (lang : string) (translations : Translations) (s : State) : State :=
  let s := setLanguageAttributes lang s in
  match applyTranslations translations s with
  | Normal s => if isWordcloudPage s then updateWordcloudImage lang s else s
  | Throw s => s
  end.

(** [setLanguage] up to the call of [loadTranslations]. *)
Definition setLanguage_start (lang : string) (s : State) : State :=
  set_storedLanguage (Some lang) (set_currentLanguage lang s).

(** [loadTranslations] on a miss, up to its [await fetch]. *)
Definition requestTranslations (lang : string) (s : State) : State :=
  set_pendingTranslations (pendingTranslations s ++ [lang])
    (fetch (ReqTranslations lang) s).

(** [setLanguage] called as the last statement of a listener: with
    [translationsCache[lang]] truthy the rest runs before any other event;
    otherwise the file is requested. *)
Definition setLanguage (lang : string) (s : State) : State :=
  let s := setLanguage_start lang s in
  match cachedTranslations lang s with
  | Some translations => setLanguage_resume lang translations s
  | None => requestTranslations lang s
  end.

Fixpoint removeFirst (x : string) (l : list string) : list string :=
  match l with
  | [] => []
  | y :: r => if String.eqb x y then r else y :: removeFirst x r
  end.

(** The translations request of a suspended [setLanguage] comes back: on
    success [loadTranslations] caches the file and [setLanguage] goes on, on
    failure the [catch] of [setLanguage] only logs.  Only a language that
    missed the cache is awaited, so the assignment
    [translationsCache[lang] = data] makes an own property. *)
Definition translationsArrived (lang : string) (r : option JsonObject) (s : State) : State :=
  if existsb (String.eqb lang) (pendingTranslations s) then
    let s := set_pendingTranslations (removeFirst lang (pendingTranslations s)) s in
    match r with
    | Some data =>
        setLanguage_resume lang (Data data)
          (set_translationsCache ((lang, Data data) :: translationsCache s) s)
    | None => s
    end
  else s.

(** *** Return to the selection screen *)

Definition clearReturnTimer (s : State) : State :=
  match wordcloudReturnTimer s with
  | Some id => set_wordcloudReturnTimer None (clearTimeout id s)
  | None => s
  end.

Definition returnToSelection (s : State) : State :=
  if negb (isWordcloudVisible s) then s
  else
    let s := clearReturnTimer s in
    let s := set_isWordcloudVisible false s in
    snd (setTimeout CbReturnSwap WORDCLOUD_FADE_MS s).

(** The function [returnToSelection] schedules after the fade. *)
Definition returnSwap (s : State) : State :=
  let s := set_wordcloudHidden true s in
  let s := set_selectionHidden false s in
  let s := set_selectedItems [] s in
  match updateRocketBlocks s with
  | Normal s =>
      let s := updateGridStates s in
      let s := updateLaunchButtonState s in
      setLaunchInteractionDisabled false s
  | Throw s => s
  end.

Definition runCallback (cb : Callback) (s : State) : State :=
  match cb with
  | CbReturnToSelection => returnToSelection s
  | CbReturnSwap => returnSwap s
  end.

(** *** Launch *)

(** [precomputeWordcloud] up to its [await fetch]. *)
Definition precomputeWordcloud (selectedKeys : list string) (s : State) : State :=
  set_precomputePromise Pending (fetch (ReqPreview selectedKeys (currentLanguage s)) s).

(** The [catch] block of [handleLaunchButtonClick]. *)
Definition launch_catch (s : State) : State :=
  let s := alert s in
  let s := set_launchDisabled false s in
  let s := setLaunchInteractionDisabled false s in
  set_stage Idle s.

(** [handleLaunchButtonClick] up to [await playRocketLaunchAnimation()]. *)
Definition handleLaunchButtonClick (s : State) : State :=
  if negb (length (selectedItems s) =? 3) then s
  else
    let s := set_launchDisabled true s in
    let s := setLaunchInteractionDisabled true s in
    let selectedKeys := map key (selectedItems s) in
    let s := set_selectedKeys selectedKeys s in
    let s := precomputeWordcloud selectedKeys s in
    set_stage AwaitAnimation s.

(** The animation promise resolved: the vote is sent. *)
Definition launch_afterAnimation (s : State) : State :=
  set_stage AwaitVote (fetch (ReqVote (selectedKeys s)) s).

(** [commitWordcloud()] is called and awaited. *)
Definition launch_afterPrecompute (s : State) : State :=
  set_stage AwaitCommit (fetch ReqCommit s).

(** The vote came back: [response.ok] is checked, then
    [await precomputePromise]. *)
Definition launch_afterVote (r : Outcome) (s : State) : State :=
  match r with
  | Ok =>
      match precomputePromise s with
      | Pending => set_stage AwaitPrecompute s
      | Fulfilled => launch_afterPrecompute s
      | Rejected => launch_catch s
      end
  | _ => launch_catch s
  end.

(** The response to /preview-wordcloud settles [precomputePromise]; the
    handler goes on if it is suspended on it. *)
Definition previewArrived (r : Outcome) (s : State) : State :=
  match stage s, precomputePromise s with
  | Idle, _ => s
  | AwaitPrecompute, Pending =>
      match r with
      | Ok => launch_afterPrecompute (set_precomputePromise Fulfilled s)
      | _ => launch_catch (set_precomputePromise Rejected s)
      end
  | _, Pending =>
      set_precomputePromise (match r with Ok => Fulfilled | _ => Rejected end) s
  | _, _ => s
  end.

(** [commitWordcloud] swallows its errors; [showWordcloudView] runs up to
    its [await loadWordcloudImage(currentLanguage)]. *)
Definition launch_afterCommit (s : State) : State :=
  let s := set_wordcloudHidden true s in
  let s := loadWordcloudImage (currentLanguage s) s in
  set_stage AwaitImage s.

(** The rest of [showWordcloudView], which ends the handler. *)
Definition showWordcloudView_resume (s : State) : State :=
  let s := set_selectionHidden true s in
  let s := set_wordcloudHidden false s in
  let s := set_isWordcloudVisible true s in
  let s := clearReturnTimer s in
  let s :=
    if AUTO_RETURN_ENABLED then
      let (id, s) := setTimeout CbReturnToSelection AUTO_RETURN_DELAY_MS s in
      set_wordcloudReturnTimer (Some id) s
    else s in
  set_stage Idle s.

Definition launch_afterImage (loaded : bool) (s : State) : State :=
  if loaded then showWordcloudView_resume s else launch_catch s.

(** *** Event loop *)

(** What the browser can deliver to the page: clicks, the settling of the
    promises a suspended handler awaits, and the expiry of a pending timer.
    [AnimationEnd] stands for the resolution of the promise of
    [playRocketLaunchAnimation], by [animationend] on the rocket or by its
    1700 ms fallback.  The three fetch responses are those of the running
    launch; a response nobody awaits any more is not an event. *)

Inductive Event :=
  | GridClick (gridButton : GridButton)
  | RocketClick (index : nat)
  | LaunchClick
  | BackClick
  | LangClick (lang : string)
  | AnimationEnd                                (* the animation promise resolves *)
  | VoteResponse (r : Outcome)
  | PreviewResponse (r : Outcome)
  | CommitResponse (r : Outcome)
  | ImageLoaded (ok : bool)                     (* load or error on the image *)
  | TranslationsResponse (lang : string) (r : option JsonObject)
  | TimerFired (id : nat).                         (* a pending timer expires *)

(** One turn of the event loop.  The page template is not among the
    sources: the grid items and the rocket blocks are taken to be button
    elements, as app.js names them ([gridButton], [.rocket-button]), so a
    click reaches their listener only while [disabled] is not set.  The
    listener of the launch button tests [disabled] itself. *)
Definition step (s : State) (e : Event) : State :=
  match e with
  | GridClick b => if gridDisabled s then s else handleGridItemClick b s
  | RocketClick i => if rocketDisabled s then s else handleRocketBlockClick i s
  | LaunchClick => if launchDisabled s then s else handleLaunchButtonClick s
  | BackClick =>
      if isWordcloudPage s then set_navigation (Some "/") s else returnToSelection s
  | LangClick lang => if String.eqb lang "" then s else setLanguage lang s
  | AnimationEnd =>
      match stage s with AwaitAnimation => launch_afterAnimation s | _ => s end
  | VoteResponse r =>
      match stage s with AwaitVote => launch_afterVote r s | _ => s end
  | PreviewResponse r => previewArrived r s
  | CommitResponse _ =>
      match stage s with AwaitCommit => launch_afterCommit s | _ => s end
  | ImageLoaded ok =>
      match stage s with AwaitImage => launch_afterImage ok s | _ => s end
  | TranslationsResponse lang r => translationsArrived lang r s
  | TimerFired id =>
      match findTimer id s with
      | Some t => runCallback (callback t) (clearTimeout id s)
      | None => s
      end
  end.

Definition run (s : State) (evs : list Event) : State := fold_left step evs s.

Inductive ViewState := Selecting | Transitioning | ResultShown.

Definition view (s : State) : ViewState :=
  if isWordcloudVisible s then ResultShown
  else match stage s with Idle => Selecting | _ => Transitioning end.

(** A freshly loaded page: the variables hold their initial values, no
    launch is running and no timer is pending. *)
Definition initial (s : State) : Prop :=
  selectedItems s = [] /\ wordcloudReturnTimer s = None /\
  isWordcloudVisible s = false /\ stage s = Idle /\ timers s = [].

Inductive reachable : State -> Prop :=
  | reachable_initial s : initial s -> reachable s
  | reachable_step s e : reachable s -> reachable (step s e).

(** A page with four items and three rocket blocks.  Of the members of
    [Object.prototype] only the properties named by the keys of the page
    are read: a key that names such a member finds a function there (null
    for [__proto__] of [Object.prototype] itself), any other key nothing. *)
Definition kiosk : Host :=
  mkHost [mkBox Description "title"; mkBox Formatted "water"; mkBox Formatted "music";
          mkBox Formatted "book"; mkBox Formatted "camera"]
         3
         (fun name k =>
            if inherited k
            then Value (JOther (negb (String.eqb name "__proto__" && String.eqb k "__proto__")))
            else Undefined).

(** The index page after [DOMContentLoaded] with nothing in localStorage:
    [setLanguage("en", false)] and [commitWordcloud()] have been called and
    [updateLaunchButtonState()] has disabled the launch button.  The
    attributes of the page itself (nothing else disabled, word cloud hidden)
    are those of a page that starts on the selection screen. *)
Definition indexPage : State :=
  {| selectedItems := []; currentLanguage := "en"; wordcloudReturnTimer := None;
     isWordcloudVisible := false; translationsCache := []; currentTranslations := Data [];
     launchDisabled := true; gridDisabled := false; rocketDisabled := false;
     selectionHidden := false; wordcloudHidden := true; imageSrc := None;
     docLang := ""; docDir := Dir ""; timers := []; nextTimer := 1;
     requests := [ReqTranslations "en"; ReqCommit]; alerts := 0;
     storedLanguage := Some "en"; pathname := "/"; navigation := None;
     stage := Idle; selectedKeys := []; precomputePromise := Pending;
     pendingTranslations := ["en"]; host := kiosk |}.

End Controller.

(** ** Invariant of the reachable states *)

Module Invariant.
Import Js Selection Controller.

Definition isSwap (t : Timer) : bool :=
  match callback t with CbReturnSwap => true | _ => false end.

Definition isRunning (st : Stage) : bool :=
  match st with Idle => false | _ => true end.

(** How many of these hold: the word cloud is shown, a launch is running,
    a return to the selection screen is fading. *)
Definition busy (s : State) : nat :=
  (if isWordcloudVisible s then 1 else 0) + (if isRunning (stage s) then 1 else 0)
  + length (filter isSwap (timers s)).

Definition locked (s : State) : Prop :=
  launchDisabled s = true /\ gridDisabled s = true /\ rocketDisabled s = true.

Record Inv (s : State) : Prop := mkInv {
  inv_wf : wf (selectedItems s);
  inv_exclusive : busy s <= 1;
  inv_locked : busy s = 1 -> locked s;
  inv_launch : isRunning (stage s) = true ->
               length (selectedItems s) = 3 /\ selectedKeys s = map key (selectedItems s);
  inv_fresh : Forall (fun t => timerId t < nextTimer s) (timers s);
  inv_auto : forall t, In t (timers s) -> callback t = CbReturnToSelection ->
                       wordcloudReturnTimer s = Some (timerId t);
  inv_armed : isWordcloudVisible s = true ->
              exists id t, wordcloudReturnTimer s = Some id /\
                           findTimer id s = Some t /\
                           callback t = CbReturnToSelection;
  inv_delay : forall t, In t (timers s) -> callback t = CbReturnToSelection ->
                        delay t = AUTO_RETURN_DELAY_MS
}.

(** Two states that agree on what the invariant reads. *)
Definition sameCore (s s' : State) : Prop :=
  selectedItems s' = selectedItems s /\ isWordcloudVisible s' = isWordcloudVisible s /\
  stage s' = stage s /\ timers s' = timers s /\ nextTimer s' = nextTimer s /\
  wordcloudReturnTimer s' = wordcloudReturnTimer s /\
  launchDisabled s' = launchDisabled s /\ gridDisabled s' = gridDisabled s /\
  rocketDisabled s' = rocketDisabled s /\ selectedKeys s' = selectedKeys s.

End Invariant.

(** ** Vocabulary of the properties *)

Module Properties.
Import Js Selection Controller Invariant.


Definition isVote (r : Request) : bool :=
  match r with ReqVote _ => true | _ => false end.


(** The requests issued by the handler of a launch click in state [s]. *)
Definition firedOnEntry (s : State) : list Request :=
  skipn (length (requests s)) (requests (step s LaunchClick)).

(** [s'] is [s] with the transition given up: back on the selection screen
    with the same entries, every control enabled, one more alert shown. *)
Definition aborted (s s' : State) : Prop :=
  view s' = Selecting /\ selectedItems s' = selectedItems s /\
  gridDisabled s' = false /\ rocketDisabled s' = false /\ launchDisabled s' = false /\
  alerts s' = S (alerts s).

(** The launch has got past [await playRocketLaunchAnimation()]. *)
Definition pastAnimation (st : Stage) : bool :=
  match st with
  | AwaitVote | AwaitPrecompute | AwaitCommit | AwaitImage => true
  | _ => false
  end.

(** The launch has got past [await precomputePromise]. *)
Definition pastPrecompute (st : Stage) : bool :=
  match st with AwaitCommit | AwaitImage => true | _ => false end.

(** What the events seen since a launch click say about the state: either
    both signals have been seen, or the word cloud is not shown and the
    launch is no further than the signals seen allow. *)
Definition ordered (seen : list Event) (s : State) : Prop :=
  (In AnimationEnd seen /\ In (PreviewResponse Ok) seen) \/
  (isWordcloudVisible s = false /\
   (pastAnimation (stage s) = true -> In AnimationEnd seen) /\
   (pastPrecompute (stage s) = true -> In (PreviewResponse Ok) seen) /\
   (precomputePromise s = Fulfilled -> In (PreviewResponse Ok) seen)).

(** [applyTranslations] ends normally: no text it renders raises. *)
Definition applied (translations : Translations) (s : State) : bool :=
  match applyTranslations translations s with
  | Normal _ => true
  | Throw _ => false
  end.




End Properties.

(** ** Sample runs *)

Module Examples.
Import Js Selection Controller Invariant.

Definition water := mkGridButton 1 "water".
Definition music := mkGridButton 2 "music".
Definition book := mkGridButton 3 "book".
Definition camera := mkGridButton 4 "camera".

(** Three items picked on the index page. *)
Definition selected3 : State :=
  Eval vm_compute in run indexPage [GridClick water; GridClick music; GridClick book].

(** The launch button pressed. *)
Definition launched : State := Eval vm_compute in step selected3 LaunchClick.

(** The launch carried through to the word cloud. *)
Definition resultShown : State :=
  Eval vm_compute in
    run launched [AnimationEnd; VoteResponse Ok; PreviewResponse Ok; CommitResponse Ok;
                  ImageLoaded true].






(** The texts of two languages. *)
Definition english : JsonObject :=
  [("title", JString (ascii16 "What would you take to space?"));
   ("water", JString (ascii16 "Water")); ("music", JString (ascii16 " Music "));
   ("book", JString []); ("camera", JString (ascii16 "Camera"))].




End Examples.

(** ** What the page renders from the selection *)

Module Render.
Import Js Selection Controller.

(** The rocket indices of [0,3) that no entry occupies, lowest first. *)
Definition freeSlots (l : list Item) : list nat :=
  filter (fun i => negb (includes (slots l) i)) [0; 1; 2].

(** A grid element with the two classes [updateGridStates] maintains. *)
Record GridNode := mkGridNode {
  element : GridButton;
  classSelected : bool;   (* classList contains "selected" *)
  classDisabled : bool    (* classList contains "disabled" *)
}.

(** The body of the [forEach] of [updateGridStates]. *)
Definition renderGridButton (selectedItems : list Item) (button : GridNode) : GridNode :=
  let maxSelections := 3 in
  let isMaxSelected := maxSelections <=? length selectedItems in
  let k := datasetKey (element button) in
  let isSelected := existsb (fun item => String.eqb (key item) k) selectedItems in
  if isSelected then mkGridNode (element button) true false
  else if isMaxSelected then mkGridNode (element button) false true
  else mkGridNode (element button) false false.

(** The classes of the grid after [updateGridStates]. *)
Definition renderGrid (selectedItems : list Item) (grid : list GridNode) : list GridNode :=
  map (renderGridButton selectedItems) grid.

(** Replace the element at [i]; out of range nothing changes. *)
Fixpoint setNth {A} (i : nat) (x : A) (l : list A) : list A :=
  match l, i with
  | [], _ => []
  | _ :: r, 0 => x :: r
  | y :: r, S j => y :: setNth j x r
  end.

(** The content of the rocket blocks: for each block the text of its
    [.text-content] element, [None] when it has none. *)
Definition Blocks := list (option JsString).

(** What [formatTextForBox] puts into a block for the value read under a
    key, when it does not raise: the trimmed text of a string that is not
    empty, nothing for a falsy value. *)
Definition shownText (l : Lookup) : option JsString :=
  match l with
  | Value (JString text) =>
      match text with
      | [] => None
      | _ => Some (trim text)
      end
  | _ => None
  end.

(** The body of the second [forEach] of [updateRocketBlocks] for one
    entry: the blocks afterwards and whether the call raised.  An entry
    whose index has no block, or whose key has a falsy value, is skipped;
    reading the value may raise; otherwise [formatTextForBox] removes what
    the block holds, then [text.trim()] raises unless the text is a
    string. *)
Definition fillRocketBlock (h : Host) (translations : Translations) (blocks : Blocks)
    (item : Item) : Blocks * bool :=
  match nth_error blocks (rocketIndex item) with
  | None => (blocks, false)
  | Some _ =>
      let value := getProperty h translations (key item) in
      if raisesInBox value then
        (match value with
         | Raises => blocks
         | _ => setNth (rocketIndex item) None blocks
         end, true)
      else
        (match shownText value with
         | Some text => setNth (rocketIndex item) (Some text) blocks
         | None => blocks
         end, false)
  end.

(** The [forEach] over the entries, which an exception ends. *)
Fixpoint fillRocketBlocks (h : Host) (translations : Translations) (items : list Item)
    (blocks : Blocks) : Blocks * bool :=
  match items with
  | [] => (blocks, false)
  | item :: rest =>
      match fillRocketBlock h translations blocks item with
      | (blocks', true) => (blocks', true)
      | (blocks', false) => fillRocketBlocks h translations rest blocks'
      end
  end.

(** The content of the rocket blocks after [updateRocketBlocks], and whether
    it raised: all blocks cleared, then filled from the entries in order. *)
Definition rocketBlockTexts (h : Host) (translations : Translations)
    (selectedItems : list Item) : Blocks * bool :=
  fillRocketBlocks h translations selectedItems (repeat None (rocketBlockCount h)).

End Render.

(** ** More sample runs *)

Module MoreExamples.
Import Js Selection Controller Examples.

(** The English texts loaded, then three items picked. *)
Definition selectedEnglish : State :=
  Eval vm_compute in
    run indexPage [TranslationsResponse "en" (Some english); GridClick water;
                   GridClick music; GridClick book].

End MoreExamples.

(** ** Vocabulary of the properties of whole runs *)

Module Traces.
Import Js Selection Controller Properties.

(** The request, if any, that the handling of event [e] in state [s]
    sends. *)
Definition newRequest (s : State) (e : Event) : option Request :=
  match e with
  | LaunchClick =>
      if launchDisabled s then None
      else if length (selectedItems s) =? 3
           then Some (ReqPreview (map key (selectedItems s)) (currentLanguage s))
           else None
  | AnimationEnd =>
      match stage s with AwaitAnimation => Some (ReqVote (selectedKeys s)) | _ => None end
  | VoteResponse Ok =>
      match stage s, precomputePromise s with
      | AwaitVote, Fulfilled => Some ReqCommit
      | _, _ => None
      end
  | PreviewResponse Ok =>
      match stage s, precomputePromise s with
      | AwaitPrecompute, Pending => Some ReqCommit
      | _, _ => None
      end
  | CommitResponse _ =>
      match stage s with
      | AwaitCommit => Some (ReqImage (getWordcloudImagePath (currentLanguage s)))
      | _ => None
      end
  | LangClick lang =>
      if String.eqb lang "" then None
      else match cachedTranslations lang s with
           | None => Some (ReqTranslations lang)
           | Some translations =>
               if isWordcloudPage s && applied translations s
               then Some (ReqImage (getWordcloudImagePath lang))
               else None
           end
  | TranslationsResponse lang (Some data) =>
      if existsb (String.eqb lang) (pendingTranslations s) && isWordcloudPage s
         && applied (Data data) s
      then Some (ReqImage (getWordcloudImagePath lang))
      else None
  | _ => None
  end.

Definition toList {A} (o : option A) : list A :=
  match o with Some x => [x] | None => [] end.

Definition isPreview (r : Request) : bool :=
  match r with ReqPreview _ _ => true | _ => false end.


(** The keys a vote or a precomputation request carries. *)
Definition ballotOf (r : Request) : option (list string) :=
  match r with
  | ReqVote items | ReqPreview items _ => Some items
  | _ => None
  end.

(** A launch that has sent its preview request and not yet its vote. *)
Definition voteOwed (s : State) : nat :=
  match stage s with AwaitAnimation => 1 | _ => 0 end.

(** The language of the last click on a language button with a language, or
    [default] when there is none. *)
Definition lastLanguage (default : string) (evs : list Event) : string :=
  fold_left (fun cur e =>
               match e with
               | LangClick lang => if String.eqb lang "" then cur else lang
               | _ => cur
               end) evs default.

(** The events contain, in this order, one event for each of the tests. *)
Fixpoint inOrder (tests : list (Event -> bool)) (evs : list Event) : Prop :=
  match tests, evs with
  | [], _ => True
  | _ :: _, [] => False
  | t :: ts, e :: r => (t e = true /\ inOrder ts r) \/ inOrder tests r
  end.

Definition isAnimationEnd (e : Event) : bool :=
  match e with AnimationEnd => true | _ => false end.
Definition isVoteOk (e : Event) : bool :=
  match e with VoteResponse Ok => true | _ => false end.
Definition isCommitResponse (e : Event) : bool :=
  match e with CommitResponse _ => true | _ => false end.
Definition isImageLoaded (e : Event) : bool :=
  match e with ImageLoaded true => true | _ => false end.

(** The events a launch suspended at [st] has been through, in order. *)
Definition passed (st : Stage) : list (Event -> bool) :=
  match st with
  | Idle | AwaitAnimation => []
  | AwaitVote => [isAnimationEnd]
  | AwaitPrecompute | AwaitCommit => [isAnimationEnd; isVoteOk]
  | AwaitImage => [isAnimationEnd; isVoteOk; isCommitResponse]
  end.

Definition wholeLaunch : list (Event -> bool) :=
  [isAnimationEnd; isVoteOk; isCommitResponse; isImageLoaded].

(** Either a whole launch has been seen, or the word cloud is not shown and
    the running launch has been through what its stage says. *)
Definition sequenced (seen : list Event) (s : State) : Prop :=
  inOrder wholeLaunch seen \/
  (isWordcloudVisible s = false /\ inOrder (passed (stage s)) seen).

Definition isAuto (t : Timer) : bool :=
  match callback t with CbReturnToSelection => true | _ => false end.

(** What a launch reads and writes of the state. *)
Record Launch := mkLaunch {
  lStage : Stage;
  lPromise : Promise;
  lVisible : bool;
  lAlerts : nat;
  lLaunchDisabled : bool;
  lGridDisabled : bool;
  lRocketDisabled : bool
}.

Definition launchOf (s : State) : Launch :=
  mkLaunch (stage s) (precomputePromise s) (isWordcloudVisible s) (alerts s)
           (launchDisabled s) (gridDisabled s) (rocketDisabled s).

Definition atStage (st : Stage) (l : Launch) : Launch :=
  mkLaunch st (lPromise l) (lVisible l) (lAlerts l)
           (lLaunchDisabled l) (lGridDisabled l) (lRocketDisabled l).

Definition settled (p : Promise) (l : Launch) : Launch :=
  mkLaunch (lStage l) p (lVisible l) (lAlerts l)
           (lLaunchDisabled l) (lGridDisabled l) (lRocketDisabled l).

(** The launch given up: an alert, every control enabled. *)
Definition givenUp (l : Launch) : Launch :=
  mkLaunch Idle (lPromise l) (lVisible l) (S (lAlerts l)) false false false.

(** The launch done: the word cloud shown. *)
Definition shown (l : Launch) : Launch :=
  mkLaunch Idle (lPromise l) true (lAlerts l)
           (lLaunchDisabled l) (lGridDisabled l) (lRocketDisabled l).

(** The launch as a machine over the signals it awaits. *)
Definition launchMachine (l : Launch) (e : Event) : Launch :=
  match e, lStage l with
  | AnimationEnd, AwaitAnimation => atStage AwaitVote l
  | VoteResponse Ok, AwaitVote =>
      match lPromise l with
      | Pending => atStage AwaitPrecompute l
      | Fulfilled => atStage AwaitCommit l
      | Rejected => givenUp l
      end
  | VoteResponse _, AwaitVote => givenUp l
  | PreviewResponse r, AwaitPrecompute =>
      match lPromise l, r with
      | Pending, Ok => atStage AwaitCommit (settled Fulfilled l)
      | Pending, _ => givenUp (settled Rejected l)
      | _, _ => l
      end
  | PreviewResponse _, Idle => l
  | PreviewResponse r, _ =>
      match lPromise l with
      | Pending => settled (match r with Ok => Fulfilled | _ => Rejected end) l
      | _ => l
      end
  | CommitResponse _, AwaitCommit => atStage AwaitImage l
  | ImageLoaded true, AwaitImage => shown l
  | ImageLoaded false, AwaitImage => givenUp l
  | _, _ => l
  end.

Definition isOk (r : Outcome) : bool := match r with Ok => true | _ => false end.

End Traces.

(** ** Page load *)

Module PageLoad.
Import Js Selection Controller.

(** What the page template fixes before any script runs. *)
Record Template := mkTemplate {
  tLaunchDisabled : bool;
  tGridDisabled : bool;
  tRocketDisabled : bool;
  tSelectionHidden : bool;
  tWordcloudHidden : bool;
  tImageSrc : option string;
  tLang : string;
  tDir : string;
  tHost : Host
}.

(** [localStorage.getItem('selectedLanguage') || "en"]. *)
Definition languageAtLoad (stored : option string) : string :=
  match stored with
  | Some lang => if String.eqb lang "" then "en" else lang
  | None => "en"
  end.

(** The state when the script has been evaluated: the variables hold their
    initial values. *)
Definition freshPage (template : Template) (path : string) (stored : option string) : State :=
  {| selectedItems := [];
     currentLanguage := languageAtLoad stored;
     wordcloudReturnTimer := None; isWordcloudVisible := false;
     translationsCache := []; currentTranslations := Data [];
     launchDisabled := tLaunchDisabled template; gridDisabled := tGridDisabled template;
     rocketDisabled := tRocketDisabled template;
     selectionHidden := tSelectionHidden template;
     wordcloudHidden := tWordcloudHidden template; imageSrc := tImageSrc template;
     docLang := tLang template; docDir := Dir (tDir template); timers := []; nextTimer := 1;
     requests := []; alerts := 0; storedLanguage := stored; pathname := path;
     navigation := None; stage := Idle; selectedKeys := []; precomputePromise := Pending;
     pendingTranslations := []; host := tHost template |}.

(** [commitWordcloud()]: the request goes out; its promise never rejects. *)
Definition commitWordcloud (s : State) : State := fetch ReqCommit s.

(** The listener of [DOMContentLoaded] and what runs before the next event.
    [setLanguage] goes as far as its [await]; the listener runs to its end;
    then, when [translationsCache[lang]] was truthy, the rest of
    [setLanguage] runs. *)
Definition domContentLoaded (s : State) : State :=
  let lang := currentLanguage s in
  let s := setLanguage_start lang s in
  let translations := cachedTranslations lang s in
  let s := match translations with
           | Some _ => s
           | None => requestTranslations lang s
           end in
  let s := if isWordcloudPage s then updateWordcloudImage (currentLanguage s) s else s in
  let s := if negb (isWordcloudPage s) then commitWordcloud s else s in
  let s := if negb (isWordcloudPage s) then updateLaunchButtonState s else s in
  match translations with
  | Some translations => setLanguage_resume lang translations s
  | None => s
  end.

(** A template that starts on the selection screen with nothing disabled. *)
Definition plainTemplate : Template :=
  mkTemplate false false false false true None "" "" kiosk.

End PageLoad.

(** ** The earlier variant of the front end *)

Module Legacy.
Import Js Selection Controller.

(** *** Splitting a text into lines *)

(** [split(/\s+/)]: the pieces between the maximal runs of white space,
    [cur] being the piece under way and [inRun] telling whether the last
    unit read was white space. *)
Fixpoint splitRuns (inRun : bool) (cur : JsString) (s : JsString) : list JsString :=
  match s with
  | [] => [cur]
  | c :: r =>
      if isWhiteSpace c then
        if inRun then splitRuns true cur r else cur :: splitRuns true [] r
      else splitRuns false (cur ++ [c]) r
  end.

Definition splitWhiteSpace (s : JsString) : list JsString := splitRuns false [] s.

Definition splitTextIntoLines (text : JsString) : list JsString :=
  let words := splitWhiteSpace (trim text) in
  filter (fun word => 0 <? length word) words.

(** *** The font size of a box *)

(** [Array.prototype.reduce] without an initial value: a TypeError, here
    [None], on the empty array. *)
Definition reduce {A} (f : A -> A -> A) (l : list A) : option A :=
  match l with
  | [] => None
  | x :: r => Some (fold_left f r x)
  end.

(** [lines.reduce((a, b) => a.length > b.length ? a : b)]. *)
Definition longestLine (lines : list JsString) : option JsString :=
  reduce (fun a b => if length b <? length a then a else b) lines.

(** What [calculateOptimalFontSize] measures: whether the box has room at
    all ([availableWidth] and [availableHeight] positive), and whether the
    longest line and the number of lines, set in a given size, fit in it
    ([widthFits && heightFits]). *)
Record Layout := mkLayout {
  hasRoom : bool;
  fits : JsString -> nat -> Z -> bool
}.

(** The state of the binary search loop. *)
Record Search := mkSearch {
  minSize : Z;
  maxSize : Z;
  optimalSize : Z
}.

(** The loop [while (minSize <= maxSize)], for at most [fuel] rounds. *)
Fixpoint searchLoop (fuel : nat) (fit : Z -> bool) (st : Search) : Search :=
  match fuel with
  | 0 => st
  | S fuel' =>
      if (minSize st <=? maxSize st)%Z then
        let testSize := ((minSize st + maxSize st) / 2)%Z in
        if fit testSize
        then searchLoop fuel' fit (mkSearch (testSize + 1) (maxSize st) testSize)
        else searchLoop fuel' fit (mkSearch (minSize st) (testSize - 1) (optimalSize st))
      else st
  end.

(** The search between 8 and 200, which takes eight rounds at most, and
    [Math.max(optimalSize, 8)]. *)
Definition searchFontSize (fit : Z -> bool) : Z :=
  Z.max (optimalSize (searchLoop 8 fit (mkSearch 8 200 8))) 8.

Fixpoint jsEqb (a b : JsString) : bool :=
  match a, b with
  | [], [] => true
  | x :: a', y :: b' => N.eqb x y && jsEqb a' b'
  | _, _ => false
  end.

(** [fontSizeCache], an object used as a map from keys to sizes. *)
Definition FontSizeCache := list (JsString * Z).

Fixpoint cached (cacheKey : JsString) (fontSizeCache : FontSizeCache) : option Z :=
  match fontSizeCache with
  | [] => None
  | (k, v) :: r => if jsEqb k cacheKey then Some v else cached cacheKey r
  end.

(** The template literal of the cache key, 58 being the colon. *)
Definition cacheKeyOf (language text : JsString) : JsString := language ++ [58%N] ++ text.

Record Sized := mkSized {
  fontSize : Z;                 (* the value returned *)
  cacheAfter : FontSizeCache;   (* fontSizeCache afterwards *)
  saved : bool                  (* whether saveFontSizes() was called *)
}.

(** [calculateOptimalFontSize]; [None] is the TypeError of [reduce]. *)
Definition calculateOptimalFontSize (fontSizeCache : FontSizeCache) (layout : Layout)
    (lines : list JsString) (text language : JsString) : option Sized :=
  let cacheKey := cacheKeyOf language text in
  match cached cacheKey fontSizeCache with
  | Some size => Some (mkSized size fontSizeCache false)
  | None =>
      if negb (hasRoom layout) then
        let fallbackSize := 16%Z in
        Some (mkSized fallbackSize ((cacheKey, fallbackSize) :: fontSizeCache) true)
      else
        match longestLine lines with
        | None => None
        | Some line =>
            let finalSize := searchFontSize (fits layout line (length lines)) in
            Some (mkSized finalSize ((cacheKey, finalSize) :: fontSizeCache) true)
        end
  end.

(** The computation that [formatTextForBox] schedules for a text. *)
Definition sizeForBox (fontSizeCache : FontSizeCache) (layout : Layout)
    (text language : JsString) : option Sized :=
  calculateOptimalFontSize fontSizeCache layout (splitTextIntoLines text) text language.

(** *** Selection with precomputation on every render *)

Record Page := mkPage {
  items : list Item;            (* selectedItems *)
  language : string;            (* currentLanguage *)
  sent : list Request;          (* requests issued, oldest first *)
  onWordcloudPage : bool;       (* isWordcloudPage() *)
  launchOff : bool;             (* disabled of the launch button *)
  texts : Translations;         (* currentTranslations *)
  pageHost : Host               (* the page and the engine *)
}.

(** [updateGridStates] of this variant: the launch button, then the
    precomputation when exactly three items are selected on the index
    page. *)
Definition updateGridStates (p : Page) : Page :=
  let p := mkPage (items p) (language p) (sent p) (onWordcloudPage p)
                  (negb (length (items p) =? 3)) (texts p) (pageHost p) in
  if (length (items p) =? 3) && negb (onWordcloudPage p)
  then mkPage (items p) (language p)
              (sent p ++ [ReqPreview (map key (items p)) (language p)])
              (onWordcloudPage p) (launchOff p) (texts p) (pageHost p)
  else p.

(** [updateRocketBlocks] changes texts only, which the page record does
    not hold: what is left is whether it raises, which it does at the first
    entry for which [formatTextForBox], whose [splitTextIntoLines] starts
    with [text.trim()], is called with a text that is no string. *)
Definition updateRocketBlocksRaises (p : Page) : bool :=
  existsb (blockRaises (pageHost p) (texts p)) (items p).

(** With the selection changed to [l], [updateRocketBlocks()] and then,
    unless that raised, [updateGridStates()]. *)
Definition rerender (l : list Item) (p : Page) : Page :=
  let p := mkPage l (language p) (sent p) (onWordcloudPage p) (launchOff p)
                  (texts p) (pageHost p) in
  if updateRocketBlocksRaises p then p else updateGridStates p.

Definition handleGridItemClick (b : GridButton) (p : Page) : Page :=
  rerender (toggleItem b (items p)) p.

Definition handleRocketBlockClick (index : nat) (p : Page) : Page :=
  match toggleSlot index (items p) with
  | (l, true) => rerender l p
  | (_, false) => p
  end.

Inductive Click := GridItem (b : GridButton) | RocketBlock (index : nat).

Definition click (p : Page) (c : Click) : Page :=
  match c with
  | GridItem b => handleGridItemClick b p
  | RocketBlock i => handleRocketBlockClick i p
  end.

(** [handleLaunchButtonClick] of this variant up to its [await]: the vote
    is the only request. *)
Definition handleLaunchButtonClick (p : Page) : Page :=
  if negb (length (items p) =? 3) then p
  else mkPage (items p) (language p) (sent p ++ [ReqVote (map key (items p))])
              (onWordcloudPage p) true (texts p) (pageHost p).

(** The index page of this variant with nothing selected, and the same
    page after three items have been picked. *)
Definition emptyPage : Page :=
  mkPage [] "en" [] false true (Data Examples.english) kiosk.

Definition threePicked : Page :=
  Eval vm_compute in
    fold_left click [GridItem Examples.water; GridItem Examples.music;
                     GridItem Examples.book] emptyPage.

End Legacy.

(** ** Proof steps shared by the properties of whole runs *)

(** Unfold the handlers down to field updates. *)
Ltac open_handlers :=
  unfold Controller.handleGridItemClick, Controller.handleRocketBlockClick,
    Controller.handleLaunchButtonClick, Controller.launch_afterAnimation,
    Controller.launch_afterVote, Controller.launch_afterPrecompute,
    Controller.previewArrived, Controller.launch_afterCommit,
    Controller.launch_afterImage, Controller.showWordcloudView_resume,
    Controller.launch_catch, Controller.returnToSelection, Controller.returnSwap,
    Controller.runCallback, Controller.clearReturnTimer, Controller.clearTimeout,
    Controller.setTimeout, Controller.setLanguage, Controller.setLanguage_start,
    Controller.requestTranslations, Controller.translationsArrived,
    Controller.setLanguage_resume, Controller.updateWordcloudImage,
    Controller.loadWordcloudImage, Controller.applyTranslations,
    Controller.setLanguageAttributes, Controller.precomputeWordcloud,
    Controller.setLaunchInteractionDisabled, Controller.updateGridStates,
    Controller.updateRocketBlocks, Controller.updateLaunchButtonState,
    Controller.alert, Controller.fetch, Selection.toggleSlot,
    Controller.AUTO_RETURN_ENABLED, Controller.isWordcloudPage.

(** Unfold what [setLanguage] does once the translations are there, and
    split on what it tests. *)
Ltac open_resume :=
  unfold Controller.setLanguage_resume, Controller.updateWordcloudImage,
    Controller.loadWordcloudImage, Controller.fetch, Controller.applyTranslations,
    Controller.updateRocketBlocks, Controller.setLanguageAttributes,
    Controller.isWordcloudPage;
  repeat match goal with |- context [if ?c then _ else _] => destruct c end;
  simpl.

(** Case analysis on every [match] and [if] of the goal, innermost first,
    opening the handlers that come up. *)
Ltac split_matches :=
  repeat match goal with
         | |- context [match ?x with _ => _ end] =>
             lazymatch x with
             | context [match _ with _ => _ end] => fail
             | _ => destruct x eqn:?; open_handlers; simpl
             end
         end.

Ltac crush_step :=
  simpl; open_handlers; simpl; split_matches; open_handlers; simpl; split_matches;
  simpl in *.

(** ** Facts about the selection set *)

Section SelectionFacts.
Import Selection.

Lemma includes_In (l : list nat) (n : nat) : includes l n = true <-> In n l.
Proof.
  unfold includes. rewrite existsb_exists. split.
  - intros [x [Hx Heq]]. apply Nat.eqb_eq in Heq. now subst.
  - intros H. exists n. split; [assumption | apply Nat.eqb_refl].
Qed.

Lemma includes_not_In (l : list nat) (n : nat) : includes l n = false <-> ~ In n l.
Proof.
  rewrite <- includes_In. destruct (includes l n); split; congruence.
Qed.

Lemma findIndex_None {A} (p : A -> bool) (l : list A) :
  findIndex p l = None <-> forall x, In x l -> p x = false.
Proof.
  induction l as [|a l IH]; simpl.
  - split; [intros _ x [] | reflexivity].
  - destruct (p a) eqn:Ha.
    + split; [discriminate | intros H; specialize (H a (or_introl eq_refl)); congruence].
    + destruct (findIndex p l) as [i|]; simpl.
      * split; [discriminate |]. intros H.
        assert (Hn : Some i = None) by (apply IH; intros x Hx; apply H; now right).
        discriminate.
      * split; [| reflexivity]. intros _ x [<- | Hx]; [assumption |].
        now apply (proj1 IH eq_refl).
Qed.

(** [findIndex] followed by [splice] takes out the first match and nothing
    else. *)
Lemma findIndex_splice {A} (p : A -> bool) (l : list A) (i : nat) :
  findIndex p l = Some i ->
  exists l1 x l2, l = l1 ++ x :: l2 /\ p x = true /\
                  (forall y, In y l1 -> p y = false) /\ splice1 i l = l1 ++ l2.
Proof.
  revert i. induction l as [|a l IH]; simpl; intros i H; [discriminate |].
  destruct (p a) eqn:Ha.
  - injection H as <-. exists [], a, l. simpl. repeat split; try assumption. intros y [].
  - destruct (findIndex p l) as [j|] eqn:Hj; simpl in H; [| discriminate].
    injection H as <-. destruct (IH j eq_refl) as (l1 & x & l2 & -> & Hx & Hl1 & Hs).
    exists (a :: l1), x, l2. simpl. rewrite Hs. repeat split; try assumption.
    intros y [<- | Hy]; [assumption | now apply Hl1].
Qed.

Lemma findIndex_key_None (k : string) (l : list Item) :
  findIndex (fun item => String.eqb (key item) k) l = None <-> ~ In k (keys l).
Proof.
  rewrite findIndex_None. unfold keys. rewrite in_map_iff. split.
  - intros H (x & Hk & Hx). apply H in Hx. apply String.eqb_neq in Hx. contradiction.
  - intros H x Hx. apply String.eqb_neq. intros Hk. apply H. now exists x.
Qed.

Lemma findIndex_slot_None (i : nat) (l : list Item) :
  findIndex (fun item => Nat.eqb (rocketIndex item) i) l = None <-> ~ In i (slots l).
Proof.
  rewrite findIndex_None. unfold slots. rewrite in_map_iff. split.
  - intros H (x & Hk & Hx). apply H in Hx. apply Nat.eqb_neq in Hx. contradiction.
  - intros H x Hx. apply Nat.eqb_neq. intros Hk. apply H. now exists x.
Qed.

(** The loop stops on its own: at the index it returns its condition is
    false, so the three iterations allowed were enough. *)
Lemma nextRocketIndex_exit (used : list nat) :
  includes used (nextRocketIndex used) && (nextRocketIndex used <? 3) = false.
Proof.
  unfold nextRocketIndex. simpl.
  destruct (includes used 0) eqn:H0; simpl; [| now rewrite H0].
  destruct (includes used 1) eqn:H1; simpl; [| now rewrite H1].
  destruct (includes used 2) eqn:H2; simpl; [| now rewrite H2].
  apply andb_false_r.
Qed.

Lemma nextRocketIndex_below (used : list nat) (j : nat) :
  j < nextRocketIndex used -> In j used.
Proof.
  unfold nextRocketIndex. simpl.
  destruct (includes used 0) eqn:H0; simpl; [| lia].
  destruct (includes used 1) eqn:H1; simpl.
  - destruct (includes used 2) eqn:H2; simpl; intros Hj;
      apply includes_In;
      (destruct j as [|[|[|j]]]; [assumption | assumption | assumption || lia | lia]).
  - intros Hj. apply includes_In. destruct j as [|j]; [assumption | lia].
Qed.

Lemma nextRocketIndex_le (used : list nat) : nextRocketIndex used <= 3.
Proof.
  unfold nextRocketIndex. simpl.
  destruct (includes used 0); simpl; [| lia].
  destruct (includes used 1); simpl; [| lia].
  destruct (includes used 2); simpl; lia.
Qed.

Lemma nextRocketIndex_lowest (l : list Item) :
  nextRocketIndex (slots l) < 3 -> lowestUnused l (nextRocketIndex (slots l)).
Proof.
  intros Hlt. split; [assumption |]. split.
  - apply includes_not_In. pose proof (nextRocketIndex_exit (slots l)) as He.
    apply andb_false_iff in He. destruct He as [He | He]; [assumption |].
    apply Nat.ltb_ge in He. lia.
  - intros j. apply nextRocketIndex_below.
Qed.

Lemma lowestUnused_unique (l : list Item) (i : nat) :
  lowestUnused l i -> nextRocketIndex (slots l) = i.
Proof.
  intros (Hi & Hfree & Hbelow).
  destruct (Nat.lt_trichotomy (nextRocketIndex (slots l)) i) as [Hlt | [Heq | Hgt]].
  - exfalso. assert (H3 : nextRocketIndex (slots l) < 3) by lia.
    apply nextRocketIndex_lowest in H3. destruct H3 as (_ & Hn & _). auto.
  - assumption.
  - exfalso. apply Hfree. now apply nextRocketIndex_below.
Qed.

(** With fewer than three entries one of the three slots is free. *)
Lemma nextRocketIndex_free (l : list Item) :
  length l < 3 -> nextRocketIndex (slots l) < 3.
Proof.
  intros Hlen. pose proof (nextRocketIndex_le (slots l)) as Hle.
  destruct (Nat.eq_dec (nextRocketIndex (slots l)) 3) as [H3 | ]; [| lia].
  exfalso.
  assert (Hincl : incl [0; 1; 2] (slots l)).
  { intros j Hj. apply nextRocketIndex_below. rewrite H3. simpl in Hj. lia. }
  assert (Hnd : NoDup [0; 1; 2]).
  { repeat constructor; simpl; lia. }
  pose proof (NoDup_incl_length Hnd Hincl) as Hl. unfold slots in Hl.
  rewrite length_map in Hl. simpl in Hl. lia.
Qed.

(** Selecting a key that is not in the set. *)
Lemma toggleItem_new (b : GridButton) (l : list Item) :
  ~ In (datasetKey b) (keys l) -> length l < 3 ->
  toggleItem b l = l ++ [mkItem (node b) (nextRocketIndex (slots l)) (datasetKey b)].
Proof.
  intros Hk Hlen. unfold toggleItem. apply findIndex_key_None in Hk. rewrite Hk.
  apply Nat.ltb_lt in Hlen. rewrite Hlen.
  apply Nat.ltb_lt in Hlen. apply nextRocketIndex_free in Hlen.
  apply Nat.ltb_lt in Hlen. unfold slots in Hlen. now rewrite Hlen.
Qed.

Lemma toggleItem_full (b : GridButton) (l : list Item) :
  ~ In (datasetKey b) (keys l) -> 3 <= length l -> toggleItem b l = l.
Proof.
  intros Hk Hlen. unfold toggleItem. apply findIndex_key_None in Hk. rewrite Hk.
  apply Nat.ltb_ge in Hlen. now rewrite Hlen.
Qed.

Lemma toggleItem_present (b : GridButton) (l : list Item) :
  In (datasetKey b) (keys l) ->
  exists l1 x l2, l = l1 ++ x :: l2 /\ key x = datasetKey b /\
                  ~ In (datasetKey b) (keys l1) /\ toggleItem b l = l1 ++ l2.
Proof.
  intros Hk. unfold toggleItem.
  destruct (findIndex (fun item => String.eqb (key item) (datasetKey b)) l) as [i|] eqn:Hf.
  - apply findIndex_splice in Hf. destruct Hf as (l1 & x & l2 & Hl & Hx & Hl1 & Hs).
    exists l1, x, l2. repeat split; try assumption.
    + now apply String.eqb_eq.
    + apply findIndex_key_None. now apply findIndex_None.
  - apply findIndex_key_None in Hf. contradiction.
Qed.

Lemma toggleSlot_occupied (i : nat) (l : list Item) :
  In i (slots l) ->
  exists l1 x l2, l = l1 ++ x :: l2 /\ rocketIndex x = i /\
                  ~ In i (slots l1) /\ toggleSlot i l = (l1 ++ l2, true).
Proof.
  intros Hk. unfold toggleSlot.
  destruct (findIndex (fun item => Nat.eqb (rocketIndex item) i) l) as [j|] eqn:Hf.
  - apply findIndex_splice in Hf. destruct Hf as (l1 & x & l2 & Hl & Hx & Hl1 & Hs).
    exists l1, x, l2. rewrite Hs. repeat split; try assumption.
    + now apply Nat.eqb_eq.
    + apply findIndex_slot_None. now apply findIndex_None.
  - apply findIndex_slot_None in Hf. contradiction.
Qed.

Lemma toggleSlot_free (i : nat) (l : list Item) :
  ~ In i (slots l) -> toggleSlot i l = (l, false).
Proof.
  intros H. unfold toggleSlot. apply findIndex_slot_None in H. now rewrite H.
Qed.

Lemma wf_nil : wf [].
Proof. split; simpl; [constructor | constructor | constructor | lia]. Qed.

Lemma wf_remove (l1 l2 : list Item) (x : Item) :
  wf (l1 ++ x :: l2) -> wf (l1 ++ l2).
Proof.
  intros [Hk Hs Hr Hl]. unfold keys, slots in *. rewrite map_app in *. simpl in *.
  split; unfold keys, slots; rewrite ?map_app.
  - now apply NoDup_remove in Hk.
  - now apply NoDup_remove in Hs.
  - apply Forall_app in Hr. destruct Hr as [H1 H2]. apply Forall_app. split; [assumption |].
    now inversion H2.
  - rewrite length_app in *. simpl in Hl. lia.
Qed.

Lemma wf_add (l : list Item) (b : GridButton) :
  wf l -> ~ In (datasetKey b) (keys l) -> length l < 3 ->
  wf (l ++ [mkItem (node b) (nextRocketIndex (slots l)) (datasetKey b)]).
Proof.
  intros [Hk Hs Hr Hl] Hnk Hlen.
  pose proof (nextRocketIndex_lowest l (nextRocketIndex_free l Hlen)) as (H3 & Hfree & _).
  split; unfold keys, slots in *; rewrite ?map_app; simpl.
  - apply NoDup_app; [assumption | repeat constructor; simpl; tauto |].
    intros k Hin [<- | []]. contradiction.
  - apply NoDup_app; [assumption | repeat constructor; simpl; tauto |].
    intros k Hin [<- | []]. contradiction.
  - apply Forall_app. split; [assumption | constructor; [assumption | constructor]].
  - rewrite length_app. simpl. lia.
Qed.

Lemma wf_toggleItem (b : GridButton) (l : list Item) : wf l -> wf (toggleItem b l).
Proof.
  intros Hwf. destruct (in_dec string_dec (datasetKey b) (keys l)) as [Hin | Hnin].
  - destruct (toggleItem_present b l Hin) as (l1 & x & l2 & -> & _ & _ & ->).
    now apply wf_remove in Hwf.
  - destruct (Nat.lt_ge_cases (length l) 3) as [Hlt | Hge].
    + rewrite toggleItem_new by assumption. now apply wf_add.
    + now rewrite toggleItem_full.
Qed.

Lemma wf_toggleSlot (i : nat) (l : list Item) : wf l -> wf (fst (toggleSlot i l)).
Proof.
  intros Hwf. destruct (in_dec Nat.eq_dec i (slots l)) as [Hin | Hnin].
  - destruct (toggleSlot_occupied i l Hin) as (l1 & x & l2 & -> & _ & _ & ->).
    simpl. now apply wf_remove in Hwf.
  - now rewrite toggleSlot_free.
Qed.

End SelectionFacts.

(** ** The invariant holds in every reachable state *)

Section InvariantFacts.
Import Js Selection Controller Invariant.

Lemma findTimer_In (id : nat) (s : State) (t : Timer) :
  findTimer id s = Some t -> In t (timers s) /\ timerId t = id.
Proof.
  unfold findTimer. intros H. apply find_some in H. destruct H as [Hin Hid].
  apply Nat.eqb_eq in Hid. now split.
Qed.

Lemma swaps_filter_le (p : Timer -> bool) (l : list Timer) :
  length (filter isSwap (filter p l)) <= length (filter isSwap l).
Proof.
  induction l as [|a l IH]; simpl; [lia |].
  destruct (p a); simpl; destruct (isSwap a); simpl; lia.
Qed.

Lemma swaps_filter_lt (p : Timer -> bool) (l : list Timer) (t : Timer) :
  In t l -> isSwap t = true -> p t = false ->
  length (filter isSwap (filter p l)) < length (filter isSwap l).
Proof.
  induction l as [|a l IH]; simpl; [intros [] |].
  intros [-> | Hin] Hs Hp.
  - rewrite Hp, Hs. simpl. pose proof (swaps_filter_le p l). lia.
  - specialize (IH Hin Hs Hp). destruct (p a); simpl; destruct (isSwap a); simpl; lia.
Qed.

Lemma find_filter_other (id id' : nat) (l : list Timer) :
  id <> id' ->
  find (fun t => timerId t =? id) (filter (fun t => negb (timerId t =? id')) l)
  = find (fun t => timerId t =? id) l.
Proof.
  intros Hne. induction l as [|a l IH]; simpl; [reflexivity |].
  destruct (timerId a =? id') eqn:H1; simpl.
  - apply Nat.eqb_eq in H1. destruct (timerId a =? id) eqn:H2; [| assumption].
    apply Nat.eqb_eq in H2. congruence.
  - now rewrite IH.
Qed.

Lemma find_app_fresh (n : nat) (d : N) (cb : Callback) (l : list Timer) :
  Forall (fun t => timerId t < n) l ->
  find (fun t => timerId t =? n) (l ++ [mkTimer n d cb]) = Some (mkTimer n d cb).
Proof.
  induction 1 as [|a l Ha _ IH]; simpl.
  - now rewrite Nat.eqb_refl.
  - destruct (timerId a =? n) eqn:E; [| assumption]. apply Nat.eqb_eq in E. lia.
Qed.

Lemma find_app_old (id n : nat) (d : N) (cb : Callback) (l : list Timer) (t : Timer) :
  find (fun t => timerId t =? id) l = Some t ->
  find (fun t => timerId t =? id) (l ++ [mkTimer n d cb]) = Some t.
Proof.
  induction l as [|a l IH]; simpl; [discriminate |].
  destruct (timerId a =? id); [trivial | assumption].
Qed.

Lemma initial_Inv (s : State) : initial s -> Inv s.
Proof.
  intros (Hsel & Hvar & Hvis & Hst & Htm).
  split; unfold busy; rewrite ?Hsel, ?Hvis, ?Hst, ?Htm; simpl.
  - apply wf_nil.
  - lia.
  - discriminate.
  - discriminate.
  - constructor.
  - intros t [].
  - discriminate.
  - intros t [].
Qed.

(** An enabled control means that nothing is in progress. *)
Lemma Inv_unlocked (s : State) :
  Inv s ->
  launchDisabled s = false \/ gridDisabled s = false \/ rocketDisabled s = false ->
  isWordcloudVisible s = false /\ stage s = Idle /\ filter isSwap (timers s) = [].
Proof.
  intros HI Hen. pose proof (inv_exclusive s HI) as Hex. pose proof (inv_locked s HI) as Hl.
  assert (Hb : busy s = 0).
  { destruct (Nat.eq_dec (busy s) 1) as [H1 | H1]; [| lia].
    destruct (Hl H1) as (Ha & Hb & Hc). destruct Hen as [H | [H | H]]; congruence. }
  unfold busy in Hb.
  destruct (isWordcloudVisible s); [simpl in Hb; lia |].
  destruct (stage s); simpl in Hb; try lia.
  destruct (filter isSwap (timers s)); [auto | simpl in Hb; lia].
Qed.

Lemma Inv_sameCore (s s' : State) : sameCore s s' -> Inv s -> Inv s'.
Proof.
  intros (H1 & H2 & H3 & H4 & H5 & H6 & H7 & H8 & H9 & H10) [A B C D E F G K].
  split; unfold busy, locked, findTimer in *;
    rewrite ?H1, ?H2, ?H3, ?H4, ?H5, ?H6, ?H7, ?H8, ?H9, ?H10; assumption.
Qed.

(** A state in which nothing is in progress. *)
Lemma Inv_idle (s : State) :
  wf (selectedItems s) -> isWordcloudVisible s = false -> stage s = Idle ->
  filter isSwap (timers s) = [] ->
  Forall (fun t => timerId t < nextTimer s) (timers s) ->
  (forall t, In t (timers s) -> callback t = CbReturnToSelection ->
             wordcloudReturnTimer s = Some (timerId t)) ->
  (forall t, In t (timers s) -> callback t = CbReturnToSelection ->
             delay t = AUTO_RETURN_DELAY_MS) ->
  Inv s.
Proof.
  intros Hwf Hv Hst Hsw Hfr Hau Hdel.
  split; unfold busy; rewrite ?Hv, ?Hst, ?Hsw; simpl; try assumption;
    try discriminate; lia.
Qed.

Lemma Inv_handleGridItemClick (b : GridButton) (s : State) :
  Inv s -> gridDisabled s = false -> Inv (handleGridItemClick b s).
Proof.
  intros HI Hen. destruct (Inv_unlocked s HI) as (Hv & Hst & Hsw); [auto |].
  destruct HI as [A B C D E F G K].
  unfold handleGridItemClick, updateGridStates, updateRocketBlocks, updateLaunchButtonState.
  match goal with |- context [if ?c then Throw _ else _] => destruct c end; simpl;
    [| destruct (length (toggleItem b (selectedItems s)) =? 3)];
    apply Inv_idle; simpl; try assumption; now apply wf_toggleItem.
Qed.

Lemma Inv_handleRocketBlockClick (i : nat) (s : State) :
  Inv s -> rocketDisabled s = false -> Inv (handleRocketBlockClick i s).
Proof.
  intros HI Hen. destruct (Inv_unlocked s HI) as (Hv & Hst & Hsw); [auto |].
  pose proof (wf_toggleSlot i (selectedItems s) (inv_wf s HI)) as Hwf.
  unfold handleRocketBlockClick.
  destruct (toggleSlot i (selectedItems s)) as [items [|]]; [| assumption].
  destruct HI as [A B C D E F G K]. simpl in Hwf.
  unfold updateGridStates, updateRocketBlocks, updateLaunchButtonState.
  match goal with |- context [if ?c then Throw _ else _] => destruct c end; simpl;
    [| destruct (length items =? 3)]; apply Inv_idle; simpl; assumption.
Qed.

Lemma Inv_handleLaunchButtonClick (s : State) :
  Inv s -> launchDisabled s = false -> Inv (handleLaunchButtonClick s).
Proof.
  intros HI Hen. destruct (Inv_unlocked s HI) as (Hv & Hst & Hsw); [auto |].
  unfold handleLaunchButtonClick.
  destruct (length (selectedItems s) =? 3) eqn:Hlen; simpl; [| assumption].
  apply Nat.eqb_eq in Hlen. destruct HI as [A B C D E F G K].
  split; unfold busy, locked; simpl; rewrite ?Hv, ?Hsw; simpl; auto; discriminate.
Qed.

(** A running launch moves to its next [await]. *)
Lemma Inv_advance (s s' : State) (st : Stage) :
  Inv s -> isRunning (stage s) = true -> isRunning st = true ->
  sameCore (set_stage st s) s' -> Inv s'.
Proof.
  intros [A B C D E F G K] Hr Hr' Hsame. apply (Inv_sameCore (set_stage st s)); [assumption |].
  split; unfold busy, locked in *; simpl; rewrite ?Hr' in *; rewrite ?Hr in *; auto.
Qed.

(** A running launch ends in the [catch] block. *)
Lemma Inv_launch_catch (s : State) :
  Inv s -> isRunning (stage s) = true -> Inv (launch_catch s).
Proof.
  intros [A B C D E F G K] Hr. unfold busy in B. rewrite Hr in B.
  assert (Hv : isWordcloudVisible s = false) by (destruct (isWordcloudVisible s); [simpl in B; lia | reflexivity]).
  assert (Hsw : filter isSwap (timers s) = []).
  { destruct (filter isSwap (timers s)); [reflexivity |]. rewrite Hv in B. simpl in B. lia. }
  apply Inv_idle; simpl; auto.
Qed.

Lemma busy_running (s : State) :
  busy s <= 1 -> isRunning (stage s) = true ->
  isWordcloudVisible s = false /\ filter isSwap (timers s) = [] /\ busy s = 1.
Proof.
  unfold busy. intros B Hr. rewrite Hr in *.
  destruct (isWordcloudVisible s); [simpl in B; lia |].
  destruct (filter isSwap (timers s)); [auto | simpl in B; lia].
Qed.

Lemma busy_visible (s : State) :
  busy s <= 1 -> isWordcloudVisible s = true ->
  isRunning (stage s) = false /\ filter isSwap (timers s) = [] /\ busy s = 1.
Proof.
  unfold busy. intros B Hv. rewrite Hv in *.
  destruct (isRunning (stage s)); [simpl in B; lia |].
  destruct (filter isSwap (timers s)); [auto | simpl in B; lia].
Qed.

Lemma swaps_filter_nil (p : Timer -> bool) (l : list Timer) :
  filter isSwap l = [] -> filter isSwap (filter p l) = [].
Proof.
  intros H. pose proof (swaps_filter_le p l) as Hle. rewrite H in Hle.
  destruct (filter isSwap (filter p l)); [reflexivity | simpl in Hle; lia].
Qed.

Lemma swaps_app (l : list Timer) (t : Timer) :
  filter isSwap (l ++ [t]) = filter isSwap l ++ (if isSwap t then [t] else []).
Proof. rewrite filter_app. simpl. now destruct (isSwap t). Qed.

Lemma fresh_filter (p : Timer -> bool) (n : nat) (l : list Timer) :
  Forall (fun t => timerId t < n) l -> Forall (fun t => timerId t < n) (filter p l).
Proof.
  rewrite !Forall_forall. intros H t Ht. apply filter_In in Ht. now apply H.
Qed.

Lemma fresh_push (n : nat) (d : N) (cb : Callback) (l : list Timer) :
  Forall (fun t => timerId t < n) l ->
  Forall (fun t => timerId t < S n) (l ++ [mkTimer n d cb]).
Proof.
  intros H. apply Forall_app. split.
  - eapply Forall_impl; [| exact H]. simpl. intros; lia.
  - repeat constructor.
Qed.

(** After [clearReturnTimer] no timer is left that would call
    [returnToSelection]. *)
Lemma clearReturnTimer_no_auto (s : State) (t : Timer) :
  (forall t, In t (timers s) -> callback t = CbReturnToSelection ->
             wordcloudReturnTimer s = Some (timerId t)) ->
  In t (timers (clearReturnTimer s)) -> callback t <> CbReturnToSelection.
Proof.
  intros F Hin Hcb. unfold clearReturnTimer in Hin.
  destruct (wordcloudReturnTimer s) as [id|] eqn:Hvar; simpl in Hin.
  - apply filter_In in Hin. destruct Hin as [Hin Hne].
    specialize (F t Hin Hcb). injection F as Hid.
    rewrite <- Hid, Nat.eqb_refl in Hne. discriminate.
  - specialize (F t Hin Hcb). discriminate.
Qed.

Lemma clearReturnTimer_timers (s : State) :
  exists p, timers (clearReturnTimer s) = filter p (timers s).
Proof.
  unfold clearReturnTimer. destruct (wordcloudReturnTimer s) as [id|]; simpl.
  - eexists. reflexivity.
  - exists (fun _ => true). symmetry. apply forallb_filter_id. now apply forallb_forall.
Qed.

Lemma clearReturnTimer_frame (s : State) :
  selectedItems (clearReturnTimer s) = selectedItems s /\
  isWordcloudVisible (clearReturnTimer s) = isWordcloudVisible s /\
  stage (clearReturnTimer s) = stage s /\
  nextTimer (clearReturnTimer s) = nextTimer s /\
  launchDisabled (clearReturnTimer s) = launchDisabled s /\
  gridDisabled (clearReturnTimer s) = gridDisabled s /\
  rocketDisabled (clearReturnTimer s) = rocketDisabled s /\
  selectedKeys (clearReturnTimer s) = selectedKeys s.
Proof.
  unfold clearReturnTimer. destruct (wordcloudReturnTimer s); simpl; repeat split.
Qed.

Lemma Inv_showWordcloudView_resume (s : State) :
  Inv s -> isRunning (stage s) = true -> Inv (showWordcloudView_resume s).
Proof.
  intros [A B C D E F G K] Hr. destruct (busy_running s B Hr) as (Hv & Hsw & Hb).
  specialize (C Hb). unfold showWordcloudView_resume, AUTO_RETURN_ENABLED, setTimeout.
  set (s1 := set_isWordcloudVisible true (set_wordcloudHidden false (set_selectionHidden true s))).
  assert (F1 : forall t, In t (timers s1) -> callback t = CbReturnToSelection ->
                         wordcloudReturnTimer s1 = Some (timerId t)) by exact F.
  pose proof (clearReturnTimer_no_auto s1) as Hno.
  destruct (clearReturnTimer_timers s1) as [p Hp].
  destruct (clearReturnTimer_frame s1) as (f1 & f2 & f3 & f4 & f5 & f6 & f7 & f8).
  set (s2 := clearReturnTimer s1) in *.
  assert (E2 : Forall (fun t => timerId t < nextTimer s2) (timers s2)).
  { rewrite Hp, f4. apply fresh_filter. exact E. }
  split; unfold busy, locked; simpl.
  - rewrite f1. exact A.
  - rewrite swaps_app, Hp. simpl. rewrite swaps_filter_nil by exact Hsw. simpl.
    destruct (isWordcloudVisible s2); lia.
  - intros _. rewrite f5, f6, f7. exact C.
  - discriminate.
  - now apply fresh_push.
  - intros t Hin Hcb. apply in_app_or in Hin. destruct Hin as [Hin | [<- | []]].
    + exfalso. exact (Hno t F1 Hin Hcb).
    + reflexivity.
  - intros _. eexists _, _. split; [reflexivity |].
    split; [unfold findTimer; simpl; now apply find_app_fresh | reflexivity].
  - intros t Hin Hcb. apply in_app_or in Hin. destruct Hin as [Hin | [<- | []]].
    + exfalso. exact (Hno t F1 Hin Hcb).
    + reflexivity.
Qed.

Lemma Inv_returnToSelection_gen (s : State) :
  wf (selectedItems s) -> busy s <= 1 -> (busy s = 1 -> locked s) ->
  Forall (fun t => timerId t < nextTimer s) (timers s) ->
  (forall t, In t (timers s) -> callback t = CbReturnToSelection ->
             wordcloudReturnTimer s = Some (timerId t)) ->
  isWordcloudVisible s = true ->
  Inv (returnToSelection s).
Proof.
  intros A B C E F Hv. destruct (busy_visible s B Hv) as (Hr & Hsw & Hb).
  specialize (C Hb). unfold returnToSelection, setTimeout. rewrite Hv. simpl.
  pose proof (clearReturnTimer_no_auto s) as Hno.
  destruct (clearReturnTimer_timers s) as [p Hp].
  destruct (clearReturnTimer_frame s) as (f1 & f2 & f3 & f4 & f5 & f6 & f7 & f8).
  set (s2 := clearReturnTimer s) in *.
  split; unfold busy, locked; simpl.
  - rewrite f1. exact A.
  - rewrite f3, Hr, swaps_app, Hp. simpl. rewrite swaps_filter_nil by exact Hsw. simpl. lia.
  - intros _. rewrite f5, f6, f7. exact C.
  - rewrite f3, Hr. discriminate.
  - rewrite f4. apply fresh_push. rewrite Hp. now apply fresh_filter.
  - intros t Hin Hcb. apply in_app_or in Hin. destruct Hin as [Hin | [<- | []]].
    + exfalso. exact (Hno t F Hin Hcb).
    + discriminate.
  - discriminate.
  - intros t Hin Hcb. apply in_app_or in Hin. destruct Hin as [Hin | [<- | []]].
    + exfalso. exact (Hno t F Hin Hcb).
    + discriminate.
Qed.

Lemma Inv_returnToSelection (s : State) : Inv s -> Inv (returnToSelection s).
Proof.
  intros HI. destruct (isWordcloudVisible s) eqn:Hv.
  - destruct HI as [A B C D E F G K]. now apply Inv_returnToSelection_gen.
  - unfold returnToSelection. now rewrite Hv.
Qed.

Lemma Inv_timeout (id : nat) (t : Timer) (s : State) :
  Inv s -> findTimer id s = Some t -> Inv (runCallback (callback t) (clearTimeout id s)).
Proof.
  intros [A B C D E F G K] Hf. apply findTimer_In in Hf. destruct Hf as [Hin Hid].
  set (s1 := clearTimeout id s).
  assert (Hle : busy s1 <= busy s).
  { unfold busy, s1. simpl.
    pose proof (swaps_filter_le (fun t => negb (timerId t =? id)) (timers s)). lia. }
  assert (E1 : Forall (fun t => timerId t < nextTimer s1) (timers s1)).
  { unfold s1. simpl. now apply fresh_filter. }
  assert (F1 : forall t, In t (timers s1) -> callback t = CbReturnToSelection ->
                         wordcloudReturnTimer s1 = Some (timerId t)).
  { unfold s1. simpl. intros t' Ht'. apply filter_In in Ht'. now apply F. }
  assert (K1 : forall t, In t (timers s1) -> callback t = CbReturnToSelection ->
                         delay t = AUTO_RETURN_DELAY_MS).
  { unfold s1. simpl. intros t' Ht'. apply filter_In in Ht'. now apply K. }
  destruct (callback t) eqn:Hcb; simpl.
  - destruct (isWordcloudVisible s1) eqn:Hv.
    + apply Inv_returnToSelection_gen; try assumption; [lia |].
      intros H1. apply C. lia.
    + unfold returnToSelection. rewrite Hv. simpl.
      split; try assumption.
      * lia.
      * intros H1. apply C. lia.
      * intros Hx. congruence.
  - assert (Hsw : isSwap t = true) by (unfold isSwap; now rewrite Hcb).
    assert (Hlt : length (filter isSwap (timers s1)) < length (filter isSwap (timers s))).
    { unfold s1. simpl. apply (swaps_filter_lt _ _ t); try assumption.
      rewrite Hid, Nat.eqb_refl. reflexivity. }
    unfold busy in B.
    assert (Hv : isWordcloudVisible s = false) by (destruct (isWordcloudVisible s); [simpl in B; lia | reflexivity]).
    assert (Hr : stage s = Idle).
    { destruct (stage s); try reflexivity; rewrite Hv in B; simpl in B; lia. }
    assert (Hz : filter isSwap (timers s1) = []).
    { destruct (filter isSwap (timers s1)); [reflexivity |]. rewrite Hv in B. simpl in *. lia. }
    unfold returnSwap, updateRocketBlocks, updateGridStates, updateLaunchButtonState. simpl.
    apply Inv_idle; simpl; try assumption. apply wf_nil.
Qed.

Lemma sameCore_setLanguage_resume (lang : string) (tr : Translations) (s : State) :
  sameCore s (setLanguage_resume lang tr s).
Proof.
  unfold setLanguage_resume, updateWordcloudImage, loadWordcloudImage, fetch, applyTranslations,
    updateRocketBlocks, setLanguageAttributes, isWordcloudPage.
  repeat match goal with |- context [if ?c then _ else _] => destruct c end;
    unfold sameCore; simpl; repeat split.
Qed.

Lemma sameCore_trans (s1 s2 s3 : State) : sameCore s1 s2 -> sameCore s2 s3 -> sameCore s1 s3.
Proof.
  unfold sameCore. intros (a1 & a2 & a3 & a4 & a5 & a6 & a7 & a8 & a9 & a10)
    (b1 & b2 & b3 & b4 & b5 & b6 & b7 & b8 & b9 & b10).
  repeat split; congruence.
Qed.

Lemma sameCore_setLanguage (lang : string) (s : State) : sameCore s (setLanguage lang s).
Proof.
  unfold setLanguage.
  destruct (cachedTranslations lang (setLanguage_start lang s)) as [tr|].
  - eapply sameCore_trans; [| apply sameCore_setLanguage_resume]. unfold sameCore. simpl. repeat split.
  - unfold sameCore. simpl. repeat split.
Qed.

Lemma sameCore_translationsArrived (lang : string) (r : option JsonObject) (s : State) :
  sameCore s (translationsArrived lang r s).
Proof.
  unfold translationsArrived.
  destruct (existsb (String.eqb lang) (pendingTranslations s)); [| unfold sameCore; repeat split].
  destruct r as [data|].
  - eapply sameCore_trans; [| apply sameCore_setLanguage_resume]. unfold sameCore. simpl. repeat split.
  - unfold sameCore. simpl. repeat split.
Qed.

Lemma Inv_previewArrived (r : Outcome) (s : State) : Inv s -> Inv (previewArrived r s).
Proof.
  intros HI. unfold previewArrived.
  destruct (stage s) eqn:Hst; try assumption;
    destruct (precomputePromise s) eqn:Hp; try assumption;
    try solve [apply (Inv_sameCore s); [unfold sameCore; simpl; repeat split | assumption]].
  destruct r.
  - apply (Inv_advance s _ AwaitCommit); try assumption; [now rewrite Hst | reflexivity |].
    unfold sameCore, launch_afterPrecompute, fetch. simpl. repeat split.
  - apply Inv_launch_catch; [| simpl; now rewrite Hst].
    apply (Inv_sameCore s); [unfold sameCore; simpl; repeat split | assumption].
  - apply Inv_launch_catch; [| simpl; now rewrite Hst].
    apply (Inv_sameCore s); [unfold sameCore; simpl; repeat split | assumption].
Qed.

Theorem Inv_step (s : State) (e : Event) : Inv s -> Inv (step s e).
Proof.
  intros HI. destruct e; simpl.
  - destruct (gridDisabled s) eqn:H; [assumption | now apply Inv_handleGridItemClick].
  - destruct (rocketDisabled s) eqn:H; [assumption | now apply Inv_handleRocketBlockClick].
  - destruct (launchDisabled s) eqn:H; [assumption | now apply Inv_handleLaunchButtonClick].
  - destruct (isWordcloudPage s); [| now apply Inv_returnToSelection].
    apply (Inv_sameCore s); [unfold sameCore; simpl; repeat split | assumption].
  - destruct (String.eqb lang ""); [assumption |].
    apply (Inv_sameCore s); [apply sameCore_setLanguage | assumption].
  - destruct (stage s) eqn:Hst; try assumption.
    apply (Inv_advance s _ AwaitVote); try assumption; [now rewrite Hst | reflexivity |].
    unfold sameCore, launch_afterAnimation, fetch. simpl. repeat split.
  - destruct (stage s) eqn:Hst; try assumption. unfold launch_afterVote.
    destruct r; try (apply Inv_launch_catch; [assumption | now rewrite Hst]).
    destruct (precomputePromise s).
    + apply (Inv_advance s _ AwaitPrecompute); try assumption; [now rewrite Hst | reflexivity |].
      unfold sameCore. simpl. repeat split.
    + apply (Inv_advance s _ AwaitCommit); try assumption; [now rewrite Hst | reflexivity |].
      unfold sameCore, launch_afterPrecompute, fetch. simpl. repeat split.
    + apply Inv_launch_catch; [assumption | now rewrite Hst].
  - now apply Inv_previewArrived.
  - destruct (stage s) eqn:Hst; try assumption.
    apply (Inv_advance s _ AwaitImage); try assumption; [now rewrite Hst | reflexivity |].
    unfold sameCore, launch_afterCommit, loadWordcloudImage, fetch. simpl. repeat split.
  - destruct (stage s) eqn:Hst; try assumption. unfold launch_afterImage. destruct ok.
    + apply Inv_showWordcloudView_resume; [assumption | now rewrite Hst].
    + apply Inv_launch_catch; [assumption | now rewrite Hst].
  - apply (Inv_sameCore s); [apply sameCore_translationsArrived | assumption].
  - destruct (findTimer id s) as [t|] eqn:Hf; [| assumption]. now apply Inv_timeout.
Qed.

Theorem reachable_Inv (s : State) : reachable s -> Inv s.
Proof.
  induction 1 as [s Hi | s e _ IH]; [now apply initial_Inv | now apply Inv_step].
Qed.

End InvariantFacts.

(** ** Properties of the selection handlers *)

Section SelectionClaims.
Import Js Selection Controller Invariant Properties Examples.

Lemma selectedItems_handleGridItemClick (b : GridButton) (s : State) :
  selectedItems (handleGridItemClick b s) = toggleItem b (selectedItems s).
Proof.
  unfold handleGridItemClick, updateGridStates, updateRocketBlocks, updateLaunchButtonState.
  repeat match goal with |- context [if ?c then _ else _] => destruct c end; now simpl.
Qed.

Lemma alerts_handleGridItemClick (b : GridButton) (s : State) :
  alerts (handleGridItemClick b s) = alerts s /\
  requests (handleGridItemClick b s) = requests s.
Proof.
  unfold handleGridItemClick, updateGridStates, updateRocketBlocks, updateLaunchButtonState.
  repeat match goal with |- context [if ?c then _ else _] => destruct c end; now simpl.
Qed.

Lemma selectedItems_handleRocketBlockClick (i : nat) (s : State) :
  selectedItems (handleRocketBlockClick i s) = fst (toggleSlot i (selectedItems s)).
Proof.
  unfold handleRocketBlockClick, toggleSlot.
  destruct (findIndex _ (selectedItems s)); simpl; [| reflexivity].
  unfold updateGridStates, updateRocketBlocks, updateLaunchButtonState.
  repeat match goal with |- context [if ?c then _ else _] => destruct c end; now simpl.
Qed.

Lemma wf_clicks (clicks : list GridButton) (s : State) :
  wf (selectedItems s) ->
  wf (selectedItems (fold_left (fun s b => handleGridItemClick b s) clicks s)).
Proof.
  revert s. induction clicks as [|b clicks IH]; simpl; intros s Hwf; [assumption |].
  apply IH. rewrite selectedItems_handleGridItemClick. now apply wf_toggleItem.
Qed.

Lemma reachable_run (s : State) (evs : list Event) : reachable s -> reachable (run s evs).
Proof.
  revert s. induction evs as [|e evs IH]; simpl; intros s Hs; [assumption |].
  apply IH. now constructor.
Qed.

Lemma reachable_indexPage : reachable indexPage.
Proof. constructor. repeat split. Qed.

Lemma reachable_selected3 : reachable selected3.
Proof.
  apply (reachable_run indexPage [GridClick water; GridClick music; GridClick book]),
    reachable_indexPage.
Qed.

Lemma reachable_launched : reachable launched.
Proof. apply (reachable_step selected3 LaunchClick), reachable_selected3. Qed.

Lemma reachable_resultShown : reachable resultShown.
Proof.
  apply (reachable_run launched [AnimationEnd; VoteResponse Ok; PreviewResponse Ok;
                                 CommitResponse Ok; ImageLoaded true]),
    reachable_launched.
Qed.

Lemma key_injective (l : list Item) (x y : Item) :
  NoDup (keys l) -> In x l -> In y l -> key x = key y -> x = y.
Proof.
  induction l as [|a l IH]; simpl; [intros _ [] |].
  intros Hnd Hx Hy Hk. inversion Hnd as [|? ? Hnin Hnd']; subst.
  destruct Hx as [<- | Hx], Hy as [<- | Hy]; try reflexivity.
  - exfalso. apply Hnin. rewrite Hk. now apply in_map.
  - exfalso. apply Hnin. rewrite <- Hk. now apply in_map.
  - now apply IH.
Qed.

(** C1. Whatever grid items are clicked from the empty selection, at most
    three are selected; a click on a key that is not selected appends, when
    fewer than three are selected, an entry on the lowest rocket index of
    [0,3) that is free, and changes nothing (and shows no alert) when three
    are selected. *)
Theorem C1_toggleItem_capacity_and_lowest_slot (s0 : State) (clicks : list GridButton) :
  selectedItems s0 = [] ->
  let s := fold_left (fun s b => handleGridItemClick b s) clicks s0 in
  length (selectedItems s) <= 3 /\
  forall b, ~ In (datasetKey b) (keys (selectedItems s)) ->
    (length (selectedItems s) < 3 ->
       exists i, lowestUnused (selectedItems s) i /\
                 selectedItems (handleGridItemClick b s)
                 = selectedItems s ++ [mkItem (node b) i (datasetKey b)]) /\
    (length (selectedItems s) = 3 ->
       selectedItems (handleGridItemClick b s) = selectedItems s /\
       alerts (handleGridItemClick b s) = alerts s).
Proof.
  intros H0 s.
  assert (Hwf : wf (selectedItems s)).
  { apply wf_clicks. rewrite H0. apply wf_nil. }
  split; [apply (wf_size _ Hwf) |].
  intros b Hnew. split.
  - intros Hlt. exists (nextRocketIndex (slots (selectedItems s))). split.
    + apply nextRocketIndex_lowest. now apply nextRocketIndex_free.
    + rewrite selectedItems_handleGridItemClick. now apply toggleItem_new.
  - intros Hfull. split; [| apply alerts_handleGridItemClick].
    rewrite selectedItems_handleGridItemClick. apply toggleItem_full; [assumption | lia].
Qed.

Lemma C1_toggleItem_capacity_and_lowest_slot_witness :
  let s := fold_left (fun s b => handleGridItemClick b s) [water; music] indexPage in
  selectedItems indexPage = [] /\
  exists i, lowestUnused (selectedItems s) i /\
            selectedItems (handleGridItemClick book s)
            = selectedItems s ++ [mkItem (node book) i (datasetKey book)].
Proof.
  intros s. split; [reflexivity |].
  destruct (C1_toggleItem_capacity_and_lowest_slot indexPage [water; music] eq_refl)
    as [_ H].
  destruct (H book) as [Hnew _].
  - vm_compute. intros [E | [E | []]]; discriminate E.
  - apply Hnew. vm_compute. lia.
Defined.

(** C8. Clicking a selected key removes its entry and frees its rocket
    index; the next click on a key that is not selected gets that index
    when it is the lowest free one. *)
Theorem C8_deselect_frees_slot (s : State) (b : GridButton) (x : Item) :
  reachable s -> In x (selectedItems s) -> key x = datasetKey b ->
  let s1 := handleGridItemClick b s in
  ~ In (datasetKey b) (keys (selectedItems s1)) /\
  ~ In (rocketIndex x) (slots (selectedItems s1)) /\
  forall b', ~ In (datasetKey b') (keys (selectedItems s1)) ->
             lowestUnused (selectedItems s1) (rocketIndex x) ->
             selectedItems (handleGridItemClick b' s1)
             = selectedItems s1 ++ [mkItem (node b') (rocketIndex x) (datasetKey b')].
Proof.
  intros Hr Hx Hk s1. pose proof (inv_wf s (reachable_Inv s Hr)) as Hwf.
  assert (Hin : In (datasetKey b) (keys (selectedItems s))).
  { rewrite <- Hk. unfold keys. now apply in_map. }
  destruct (toggleItem_present b (selectedItems s) Hin) as (l1 & y & l2 & Hl & Hy & _ & Ht).
  assert (Hxy : x = y).
  { apply (key_injective (selectedItems s)); [apply (wf_keys _ Hwf) | assumption | | congruence].
    rewrite Hl. apply in_elt. }
  subst y.
  assert (Hs1 : selectedItems s1 = l1 ++ l2).
  { unfold s1. now rewrite selectedItems_handleGridItemClick. }
  rewrite Hl in Hwf. destruct Hwf as [Hnk Hns _ Hlen].
  unfold keys, slots in *. rewrite map_app in Hnk, Hns. simpl in Hnk, Hns.
  apply NoDup_remove in Hnk, Hns. rewrite <- map_app in Hnk, Hns.
  rewrite Hs1. split; [rewrite <- Hk; apply Hnk |]. split; [apply Hns |].
  intros b' Hnew Hlow. rewrite <- Hs1. rewrite selectedItems_handleGridItemClick.
  rewrite Hs1. rewrite toggleItem_new.
  - now rewrite (lowestUnused_unique _ _ Hlow).
  - assumption.
  - rewrite length_app in *. simpl in Hlen. lia.
Qed.

Lemma C8_deselect_frees_slot_witness :
  selectedItems (handleGridItemClick camera (handleGridItemClick music selected3))
  = [mkItem 1 0 "water"; mkItem 3 2 "book"; mkItem 4 1 "camera"].
Proof.
  destruct (C8_deselect_frees_slot selected3 music (mkItem 2 1 "music") reachable_selected3)
    as (_ & _ & H).
  - simpl. tauto.
  - reflexivity.
  - apply (H camera).
    + simpl. intros [E | [E | []]]; discriminate.
    + split; [simpl; lia |]. split.
      * simpl. intros [E | [E | []]]; discriminate.
      * intros j Hj. cbv in Hj |- *. lia.
Defined.

(** C10. Removing an entry, by a click on its grid item or on its rocket
    block, takes that one entry out of [selectedItems] and leaves the others
    as they are, keys and rocket indices included, in the same order. *)
Theorem C10_removal_leaves_others_unchanged (s : State) :
  (forall b, In (datasetKey b) (keys (selectedItems s)) ->
     exists l1 x l2, selectedItems s = l1 ++ x :: l2 /\ key x = datasetKey b /\
                     selectedItems (handleGridItemClick b s) = l1 ++ l2) /\
  (forall i, In i (slots (selectedItems s)) ->
     exists l1 x l2, selectedItems s = l1 ++ x :: l2 /\ rocketIndex x = i /\
                     selectedItems (handleRocketBlockClick i s) = l1 ++ l2).
Proof.
  split.
  - intros b Hin. destruct (toggleItem_present b _ Hin) as (l1 & x & l2 & Hl & Hx & _ & Ht).
    exists l1, x, l2. rewrite selectedItems_handleGridItemClick. auto.
  - intros i Hin. destruct (toggleSlot_occupied i _ Hin) as (l1 & x & l2 & Hl & Hx & _ & Ht).
    exists l1, x, l2. rewrite selectedItems_handleRocketBlockClick, Ht. auto.
Qed.

Lemma C10_removal_leaves_others_unchanged_witness :
  (exists l1 x l2, selectedItems selected3 = l1 ++ x :: l2 /\ key x = "music" /\
                   selectedItems (handleGridItemClick music selected3) = l1 ++ l2) /\
  (exists l1 x l2, selectedItems selected3 = l1 ++ x :: l2 /\ rocketIndex x = 0 /\
                   selectedItems (handleRocketBlockClick 0 selected3) = l1 ++ l2).
Proof.
  destruct (C10_removal_leaves_others_unchanged selected3) as [Hg Hr]. split.
  - apply (Hg music). simpl. tauto.
  - apply (Hr 0). simpl. tauto.
Defined.

End SelectionClaims.

(** ** Properties of the view transitions *)

Section TransitionClaims.
Import Js Selection Controller Invariant Properties Examples.

Lemma view_Transitioning (s : State) :
  view s = Transitioning <-> isWordcloudVisible s = false /\ isRunning (stage s) = true.
Proof.
  unfold view. destruct (isWordcloudVisible s), (stage s); simpl; split;
    intros H; try discriminate; try (destruct H; discriminate); auto.
Qed.

Lemma view_ResultShown (s : State) : view s = ResultShown <-> isWordcloudVisible s = true.
Proof.
  unfold view. destruct (isWordcloudVisible s), (stage s); split; intros H;
    try discriminate; auto.
Qed.

(** While a launch runs or the word cloud is shown, the three kinds of
    control are disabled. *)
Lemma not_Selecting_locked (s : State) : reachable s -> view s <> Selecting -> locked s.
Proof.
  intros Hr Hv. apply reachable_Inv in Hr. destruct Hr as [A B C D E F G H].
  apply C. unfold view in Hv. destruct (isWordcloudVisible s) eqn:Hvis.
  - now apply busy_visible.
  - apply busy_running; [assumption |]. destruct (stage s); simpl; congruence.
Qed.

(** C7. In a reachable state with a launch running, a click on the launch
    button leaves the whole state as it is, the list of requests issued
    included: nothing is sent a second time. *)
Theorem C7_second_submit_is_noop (s : State) :
  reachable s -> view s = Transitioning -> step s LaunchClick = s.
Proof.
  intros Hr Hv. destruct (not_Selecting_locked s Hr) as (Hl & _); [congruence |].
  simpl. now rewrite Hl.
Qed.

Lemma C7_second_submit_is_noop_witness :
  reachable launched /\ view launched = Transitioning /\ step launched LaunchClick = launched.
Proof.
  split; [apply reachable_launched |]. split; [reflexivity |].
  apply C7_second_submit_is_noop; [apply reachable_launched | reflexivity].
Defined.








(** While a launch runs no event changes the selection. *)
Lemma running_keeps_selection (s : State) (e : Event) :
  reachable s -> isRunning (stage s) = true -> selectedItems (step s e) = selectedItems s.
Proof.
  intros Hr Hrun. pose proof (reachable_Inv s Hr) as HI.
  destruct (busy_running s (inv_exclusive s HI) Hrun) as (Hv & Hsw & Hb).
  destruct (inv_locked s HI Hb) as (Hl & Hg & Hk).
  destruct e; simpl; rewrite ?Hl, ?Hg, ?Hk; try reflexivity.
  - destruct (isWordcloudPage s); [reflexivity |]. unfold returnToSelection. now rewrite Hv.
  - destruct (String.eqb lang ""); [reflexivity |]. apply sameCore_setLanguage.
  - destruct (stage s); reflexivity.
  - destruct (stage s); try reflexivity. unfold launch_afterVote.
    destruct r; try reflexivity. destruct (precomputePromise s); reflexivity.
  - unfold previewArrived. destruct (stage s), (precomputePromise s), r; reflexivity.
  - destruct (stage s); reflexivity.
  - destruct (stage s); try reflexivity.
    unfold launch_afterImage, showWordcloudView_resume, AUTO_RETURN_ENABLED, setTimeout.
    destruct ok; [| reflexivity]. simpl.
    now rewrite (proj1 (clearReturnTimer_frame _)).
  - apply sameCore_translationsArrived.
  - destruct (findTimer id s) as [t|] eqn:Hf; [| reflexivity].
    apply findTimer_In in Hf. destruct Hf as [Hin _].
    destruct (callback t) eqn:Hcb; simpl.
    + unfold returnToSelection. simpl. rewrite Hv. reflexivity.
    + exfalso. assert (Hs : In t (filter isSwap (timers s))).
      { apply filter_In. split; [assumption |]. unfold isSwap. now rewrite Hcb. }
      rewrite Hsw in Hs. destruct Hs.
Qed.

Lemma aborted_launch_catch (s : State) :
  isWordcloudVisible s = false -> aborted s (launch_catch s).
Proof.
  intros Hv. unfold aborted, view. simpl. rewrite Hv. repeat split.
Qed.

(** C3. In a reachable state with a launch running the three entries stay
    selected whatever happens.  When the vote comes back failed, or when
    the precomputation fails and the launch reaches its
    [await precomputePromise], the handler ends on the selection screen with
    those entries, every control enabled and an alert shown. *)
Theorem C3_failure_restores_selecting (s : State) (r : Outcome) :
  reachable s -> view s = Transitioning -> r <> Ok ->
  length (selectedItems s) = 3 /\
  (forall e, selectedItems (step s e) = selectedItems s) /\
  (stage s = AwaitVote -> aborted s (step s (VoteResponse r))) /\
  (precomputePromise s = Pending ->
     (stage s = AwaitPrecompute -> aborted s (step s (PreviewResponse r))) /\
     (stage s = AwaitVote -> aborted s (run s [PreviewResponse r; VoteResponse Ok])) /\
     (stage s = AwaitAnimation ->
        forall r', aborted s (run s [PreviewResponse r; AnimationEnd; VoteResponse r']))).
Proof.
  intros Hr Hview Hbad. apply view_Transitioning in Hview. destruct Hview as [Hv Hrun].
  pose proof (reachable_Inv s Hr) as HI.
  split; [apply (inv_launch s HI Hrun) |].
  split; [intros e; now apply running_keeps_selection |].
  split.
  - intros Hst. simpl. rewrite Hst. unfold launch_afterVote.
    destruct r; [congruence | |]; now apply aborted_launch_catch.
  - intros Hp. split; [| split].
    + intros Hst. simpl. unfold previewArrived. rewrite Hst, Hp.
      destruct r; [congruence | |]; unfold aborted, view; simpl; rewrite Hv; repeat split.
    + intros Hst. simpl. unfold previewArrived. rewrite Hst, Hp.
      destruct r; [congruence | |]; simpl; rewrite Hst; simpl;
        unfold aborted, view; simpl; rewrite Hv; repeat split.
    + intros Hst r'. simpl. unfold previewArrived. rewrite Hst, Hp.
      destruct r; [congruence | |]; simpl; rewrite Hst; simpl;
        destruct r'; simpl; unfold aborted, view; simpl; rewrite Hv; repeat split.
Qed.

Lemma C3_failure_restores_selecting_witness :
  aborted launched (run launched [PreviewResponse HttpError; AnimationEnd; VoteResponse Ok]).
Proof.
  assert (Hbad : HttpError <> Ok) by discriminate.
  destruct (C3_failure_restores_selecting launched HttpError reachable_launched eq_refl Hbad)
    as (_ & _ & _ & H).
  destruct (H eq_refl) as (_ & _ & Ha). apply (Ha eq_refl).
Defined.

(** [setLanguage] only requests translations and images. *)
Lemma requests_setLanguage_resume (p : Request -> bool) (lang : string) (tr : Translations)
    (s : State) :
  (forall x, p (ReqImage x) = false) ->
  filter p (requests (setLanguage_resume lang tr s)) = filter p (requests s).
Proof.
  intros Hi. open_resume; try reflexivity.
  rewrite filter_app. simpl. rewrite Hi. apply app_nil_r.
Qed.

Lemma requests_setLanguage (p : Request -> bool) (lang : string) (s : State) :
  (forall x, p (ReqImage x) = false) -> (forall x, p (ReqTranslations x) = false) ->
  filter p (requests (setLanguage lang s)) = filter p (requests s).
Proof.
  intros Hi Ht. unfold setLanguage.
  destruct (cachedTranslations lang (setLanguage_start lang s)) as [tr|].
  - now rewrite requests_setLanguage_resume.
  - unfold requestTranslations, fetch. simpl. rewrite filter_app. simpl. rewrite Ht.
    apply app_nil_r.
Qed.

Lemma requests_translationsArrived (p : Request -> bool) (lang : string)
    (r : option JsonObject) (s : State) :
  (forall x, p (ReqImage x) = false) ->
  filter p (requests (translationsArrived lang r s)) = filter p (requests s).
Proof.
  intros Hi. unfold translationsArrived.
  destruct (existsb (String.eqb lang) (pendingTranslations s)); [| reflexivity].
  destruct r as [data|]; [| reflexivity]. now rewrite requests_setLanguage_resume.
Qed.

Lemma precomputePromise_setLanguage_resume (lang : string) (tr : Translations) (s : State) :
  precomputePromise (setLanguage_resume lang tr s) = precomputePromise s.
Proof.
  open_resume; reflexivity.
Qed.

Lemma precomputePromise_setLanguage (lang : string) (s : State) :
  precomputePromise (setLanguage lang s) = precomputePromise s.
Proof.
  unfold setLanguage. destruct (cachedTranslations lang (setLanguage_start lang s)) as [tr|].
  - now rewrite precomputePromise_setLanguage_resume.
  - reflexivity.
Qed.

Lemma precomputePromise_translationsArrived (lang : string) (r : option JsonObject)
    (s : State) :
  precomputePromise (translationsArrived lang r s) = precomputePromise s.
Proof.
  unfold translationsArrived.
  destruct (existsb (String.eqb lang) (pendingTranslations s)); [| reflexivity].
  destruct r as [data|]; [| reflexivity]. now rewrite precomputePromise_setLanguage_resume.
Qed.

(** Until the animation promise resolves the launch stays at its first
    [await], with its keys, and no vote is sent. *)
Lemma awaiting_animation_step (s : State) (e : Event) :
  reachable s -> stage s = AwaitAnimation -> e <> AnimationEnd ->
  stage (step s e) = AwaitAnimation /\ selectedKeys (step s e) = selectedKeys s /\
  filter isVote (requests (step s e)) = filter isVote (requests s).
Proof.
  intros Hr Hst He. pose proof (reachable_Inv s Hr) as HI.
  assert (Hrun : isRunning (stage s) = true) by now rewrite Hst.
  destruct (busy_running s (inv_exclusive s HI) Hrun) as (Hv & Hsw & Hb).
  destruct (inv_locked s HI Hb) as (Hl & Hg & Hk).
  destruct e; simpl; rewrite ?Hl, ?Hg, ?Hk, ?Hst; auto.
  - destruct (isWordcloudPage s); [auto |]. unfold returnToSelection. rewrite Hv. auto.
  - destruct (String.eqb lang ""); [auto |].
    pose proof (sameCore_setLanguage lang s) as Hc. unfold sameCore in Hc.
    rewrite requests_setLanguage by reflexivity. intuition congruence.
  - congruence.
  - unfold previewArrived. rewrite Hst. destruct (precomputePromise s); simpl; auto.
  - pose proof (sameCore_translationsArrived lang r s) as Hc. unfold sameCore in Hc.
    rewrite requests_translationsArrived by reflexivity. intuition congruence.
  - destruct (findTimer id s) as [t|] eqn:Hf; [| auto].
    apply findTimer_In in Hf. destruct Hf as [Hin _].
    destruct (callback t) eqn:Hcb; simpl.
    + unfold returnToSelection. simpl. rewrite Hv. simpl. auto.
    + exfalso. assert (Hs : In t (filter isSwap (timers s))).
      { apply filter_In. split; [assumption |]. unfold isSwap. now rewrite Hcb. }
      rewrite Hsw in Hs. destruct Hs.
Qed.

Lemma awaiting_animation_run (evs : list Event) (s : State) :
  reachable s -> stage s = AwaitAnimation -> ~ In AnimationEnd evs ->
  reachable (run s evs) /\ stage (run s evs) = AwaitAnimation /\
  selectedKeys (run s evs) = selectedKeys s /\
  filter isVote (requests (run s evs)) = filter isVote (requests s).
Proof.
  revert s. induction evs as [|e evs IH]; simpl; intros s Hr Hst Hn; [auto |].
  assert (He : e <> AnimationEnd) by (intros ->; apply Hn; now left).
  destruct (awaiting_animation_step s e Hr Hst He) as (H1 & H2 & H3).
  destruct (IH (step s e)) as (I0 & I1 & I2 & I3); [now constructor | assumption | tauto |].
  repeat split; congruence.
Qed.

(** C4 as stated fails: the handler of the launch click sends the preview
    request only; no vote request is among the requests it issues. *)
Lemma C4_counterexample :
  firedOnEntry selected3 = [ReqPreview ["water"; "music"; "book"] "en"] /\
  ~ In (ReqVote ["water"; "music"; "book"]) (firedOnEntry selected3).
Proof.
  vm_compute. split; [reflexivity |]. intros [H | []]. discriminate H.
Qed.

(** C4, amended. The launch click sends the precomputation request, with
    the three selected keys and the current language, before the animation
    is awaited, and nothing else; no vote is sent as long as the animation
    has not completed, and when it completes the vote is sent with the same
    three keys. *)
Theorem C4_precompute_on_entry_vote_after_animation (s : State) :
  reachable s -> launchDisabled s = false -> length (selectedItems s) = 3 ->
  let selected := map key (selectedItems s) in
  let s1 := step s LaunchClick in
  view s1 = Transitioning /\
  firedOnEntry s = [ReqPreview selected (currentLanguage s)] /\
  forall evs, ~ In AnimationEnd evs ->
    let s2 := run s1 evs in
    stage s2 = AwaitAnimation /\
    filter isVote (requests s2) = filter isVote (requests s) /\
    requests (step s2 AnimationEnd) = requests s2 ++ [ReqVote selected].
Proof.
  intros Hr Hl Hlen selected s1.
  destruct (Inv_unlocked s (reachable_Inv s Hr)) as (Hv & Hst & _); [auto |].
  assert (Hs1 : s1 = set_stage AwaitAnimation
                       (precomputeWordcloud selected
                          (set_selectedKeys selected
                             (setLaunchInteractionDisabled true (set_launchDisabled true s))))).
  { unfold s1. simpl. rewrite Hl. unfold handleLaunchButtonClick. now rewrite Hlen. }
  split; [| split].
  - rewrite Hs1. unfold view. simpl. now rewrite Hv.
  - unfold firedOnEntry. fold s1. rewrite Hs1. simpl.
    rewrite skipn_app, skipn_all, Nat.sub_diag. reflexivity.
  - intros evs Hn s2.
    assert (Hr1 : reachable s1) by (unfold s1; now constructor).
    assert (Hst1 : stage s1 = AwaitAnimation) by now rewrite Hs1.
    destruct (awaiting_animation_run evs s1 Hr1 Hst1 Hn) as (_ & I1 & I2 & I3).
    fold s2 in I1, I2, I3. split; [assumption |]. split.
    + rewrite I3, Hs1. simpl. rewrite filter_app. simpl. apply app_nil_r.
    + simpl. rewrite I1. unfold launch_afterAnimation, fetch. simpl. rewrite I2, Hs1.
      reflexivity.
Qed.

Lemma C4_precompute_on_entry_vote_after_animation_witness :
  let s2 := run (step selected3 LaunchClick) [PreviewResponse Ok; LangClick "he"] in
  requests (step s2 AnimationEnd)
  = requests s2 ++ [ReqVote (map key (selectedItems selected3))].
Proof.
  assert (Hl : launchDisabled selected3 = false) by reflexivity.
  assert (Hn : length (selectedItems selected3) = 3) by reflexivity.
  destruct (C4_precompute_on_entry_vote_after_animation selected3 reachable_selected3 Hl Hn)
    as (_ & _ & H).
  assert (He : ~ In AnimationEnd [PreviewResponse Ok; LangClick "he"]).
  { simpl. intros [E | [E | []]]; discriminate E. }
  exact (proj2 (proj2 (H _ He))).
Defined.

Lemma ordered_sameCore (seen : list Event) (e : Event) (s s' : State) :
  sameCore s s' -> precomputePromise s' = precomputePromise s ->
  ordered seen s -> ordered (seen ++ [e]) s'.
Proof.
  intros (_ & Hv & Hst & _) Hp [[Ha Hb] | (H1 & H2 & H3 & H4)].
  - left. split; apply in_or_app; now left.
  - right. rewrite Hv, Hst, Hp. repeat split; try assumption;
      intros Hx; apply in_or_app; left; auto.
Qed.

(** The word cloud is not shown before the launch has seen both the end of
    the animation and the success of the precomputation. *)
Lemma ordered_step (seen : list Event) (s : State) (e : Event) :
  ordered seen s -> ordered (seen ++ [e]) (step s e).
Proof.
  intros [[Ha Hb] | (H1 & H2 & H3 & H4)].
  { left. split; apply in_or_app; now left. }
  assert (Hkeep : forall s', isWordcloudVisible s' = false -> stage s' = stage s ->
                             precomputePromise s' = precomputePromise s ->
                             ordered (seen ++ [e]) s').
  { intros s' Hv Hst Hp. right. rewrite Hst, Hp.
    repeat split; try assumption; intros Hx; apply in_or_app; left; auto. }
  assert (Hidle : forall s', isWordcloudVisible s' = false -> stage s' = Idle ->
                             precomputePromise s' = precomputePromise s ->
                             ordered (seen ++ [e]) s').
  { intros s' Hv Hst Hp. right. rewrite Hst, Hp.
    repeat split; try assumption; try discriminate; intros Hx; apply in_or_app; left; auto. }
  destruct e; simpl.
  - destruct (gridDisabled s); [now apply Hkeep |].
    unfold handleGridItemClick, updateGridStates, updateRocketBlocks, updateLaunchButtonState.
    repeat match goal with |- context [if ?c then _ else _] => destruct c end;
      now apply Hkeep.
  - destruct (rocketDisabled s); [now apply Hkeep |]. unfold handleRocketBlockClick.
    destruct (toggleSlot index (selectedItems s)) as [items [|]]; [| now apply Hkeep].
    unfold updateGridStates, updateRocketBlocks, updateLaunchButtonState.
    repeat match goal with |- context [if ?c then _ else _] => destruct c end;
      now apply Hkeep.
  - destruct (launchDisabled s); [now apply Hkeep |]. unfold handleLaunchButtonClick.
    destruct (negb (length (selectedItems s) =? 3)); [now apply Hkeep |].
    right. simpl. repeat split; try assumption; discriminate.
  - destruct (isWordcloudPage s); [now apply Hkeep |]. unfold returnToSelection.
    rewrite H1. now apply Hkeep.
  - destruct (String.eqb lang ""); [now apply Hkeep |].
    destruct (sameCore_setLanguage lang s) as (_ & Hv & Hst & _).
    apply Hkeep; [congruence | assumption | apply precomputePromise_setLanguage].
  - destruct (stage s) eqn:Hst; try now apply Hkeep.
    right. simpl. repeat split; try assumption; try discriminate.
    + intros _. apply in_or_app. right. now left.
    + intros Hx. apply in_or_app. left. auto.
  - destruct (stage s) eqn:Hst; try now apply Hkeep. unfold launch_afterVote.
    destruct r; [| apply Hidle; simpl; auto | apply Hidle; simpl; auto].
    destruct (precomputePromise s) eqn:Hp.
    + right. simpl. rewrite Hp. repeat split; try assumption; try discriminate.
      intros _. apply in_or_app. left. now apply H2.
    + right. simpl. rewrite Hp.
      repeat split; try assumption; intros _; apply in_or_app; left; auto.
    + apply Hidle; simpl; auto.
  - unfold previewArrived.
    destruct (stage s) eqn:Hst; try (now apply Hkeep);
      destruct (precomputePromise s) eqn:Hp; try (now apply Hkeep);
      destruct r; right; simpl; rewrite ?Hst;
      repeat split; try assumption; try discriminate;
      try (intros _; apply in_or_app; right; now left);
      try (intros Hx; apply in_or_app; left; auto).
  - destruct (stage s) eqn:Hst; try now apply Hkeep.
    right. simpl. repeat split; try assumption;
      intros Hx; apply in_or_app; left; auto.
  - destruct (stage s) eqn:Hst; try now apply Hkeep. unfold launch_afterImage.
    destruct ok; [| apply Hidle; simpl; auto].
    left. split; apply in_or_app; left; auto.
  - destruct (sameCore_translationsArrived lang r s) as (_ & Hv & Hst & _).
    apply Hkeep; [congruence | assumption | apply precomputePromise_translationsArrived].
  - destruct (findTimer id s) as [t|]; [| now apply Hkeep].
    destruct (callback t); simpl.
    + unfold returnToSelection. simpl. rewrite H1. now apply Hkeep.
    + unfold returnSwap, updateGridStates, updateRocketBlocks, updateLaunchButtonState.
      simpl. now apply Hkeep.
Qed.

Lemma ordered_run (evs seen : list Event) (s : State) :
  ordered seen s -> view (run s evs) = ResultShown ->
  In AnimationEnd (seen ++ evs) /\ In (PreviewResponse Ok) (seen ++ evs).
Proof.
  revert seen s. induction evs as [|e evs IH]; simpl; intros seen s Ho Hv.
  - rewrite app_nil_r. apply view_ResultShown in Hv.
    destruct Ho as [Ho | (H1 & _)]; [assumption | congruence].
  - replace (seen ++ e :: evs) with ((seen ++ [e]) ++ evs) by (rewrite <- app_assoc; reflexivity).
    apply (IH _ (step s e)); [now apply ordered_step | assumption].
Qed.

(** One step of a launch that goes well. *)
Lemma step_animation (s : State) :
  stage s = AwaitAnimation ->
  stage (step s AnimationEnd) = AwaitVote /\
  precomputePromise (step s AnimationEnd) = precomputePromise s.
Proof. intros H. simpl. rewrite H. split; reflexivity. Qed.

Lemma step_vote_ok (s : State) :
  stage s = AwaitVote ->
  (precomputePromise s = Pending ->
     stage (step s (VoteResponse Ok)) = AwaitPrecompute /\
     precomputePromise (step s (VoteResponse Ok)) = Pending) /\
  (precomputePromise s = Fulfilled -> stage (step s (VoteResponse Ok)) = AwaitCommit).
Proof.
  intros H. simpl. rewrite H. unfold launch_afterVote.
  split; intros Hp; rewrite Hp; simpl; auto.
Qed.

Lemma step_preview_ok (s : State) :
  precomputePromise s = Pending ->
  (stage s = AwaitPrecompute -> stage (step s (PreviewResponse Ok)) = AwaitCommit) /\
  (stage s = AwaitAnimation ->
     stage (step s (PreviewResponse Ok)) = AwaitAnimation /\
     precomputePromise (step s (PreviewResponse Ok)) = Fulfilled).
Proof.
  intros Hp. simpl. unfold previewArrived. rewrite Hp.
  split; intros H; rewrite H; simpl; auto.
Qed.

Lemma step_commit (s : State) (r : Outcome) :
  stage s = AwaitCommit -> stage (step s (CommitResponse r)) = AwaitImage.
Proof. intros H. simpl. rewrite H. reflexivity. Qed.

Lemma step_image_ok (s : State) :
  stage s = AwaitImage -> view (step s (ImageLoaded true)) = ResultShown.
Proof.
  intros H. simpl. rewrite H. unfold launch_afterImage, showWordcloudView_resume, view,
    AUTO_RETURN_ENABLED, setTimeout. simpl.
  now rewrite (proj1 (proj2 (clearReturnTimer_frame _))).
Qed.

(** A launch reaches the word cloud whether the precomputation answers
    after the vote or before the end of the animation. *)
Lemma launch_completes (s : State) :
  stage s = AwaitAnimation -> precomputePromise s = Pending ->
  view (run s [AnimationEnd; VoteResponse Ok; PreviewResponse Ok; CommitResponse Ok;
               ImageLoaded true]) = ResultShown /\
  view (run s [PreviewResponse Ok; AnimationEnd; VoteResponse Ok; CommitResponse Ok;
               ImageLoaded true]) = ResultShown.
Proof.
  intros Hst Hp. unfold run. cbn [fold_left]. split.
  - destruct (step_animation s Hst) as [H1 H1p]. rewrite Hp in H1p.
    destruct (proj1 (step_vote_ok _ H1) H1p) as [H2 H2p].
    pose proof (proj1 (step_preview_ok _ H2p) H2) as H3.
    now apply step_image_ok, step_commit.
  - destruct (proj2 (step_preview_ok s Hp) Hst) as [H1 H1p].
    destruct (step_animation _ H1) as [H2 H2p]. rewrite H1p in H2p.
    pose proof (proj2 (step_vote_ok _ H2) H2p) as H3.
    now apply step_image_ok, step_commit.
Qed.

(** C2. After a launch click accepted with three selections, the word cloud
    is shown only in states that come after both the end of the animation
    and the successful response to the precomputation request; the two may
    come in either order. *)
Theorem C2_result_after_animation_and_precompute (s : State) :
  reachable s -> launchDisabled s = false -> length (selectedItems s) = 3 ->
  let s1 := step s LaunchClick in
  view s1 = Transitioning /\
  (forall evs, view (run s1 evs) = ResultShown ->
               In AnimationEnd evs /\ In (PreviewResponse Ok) evs) /\
  view (run s1 [AnimationEnd; VoteResponse Ok; PreviewResponse Ok; CommitResponse Ok;
                ImageLoaded true]) = ResultShown /\
  view (run s1 [PreviewResponse Ok; AnimationEnd; VoteResponse Ok; CommitResponse Ok;
                ImageLoaded true]) = ResultShown.
Proof.
  intros Hr Hl Hlen s1.
  destruct (Inv_unlocked s (reachable_Inv s Hr)) as (Hv & Hst & _); [auto |].
  assert (Hs1 : s1 = set_stage AwaitAnimation
                       (precomputeWordcloud (map key (selectedItems s))
                          (set_selectedKeys (map key (selectedItems s))
                             (setLaunchInteractionDisabled true (set_launchDisabled true s))))).
  { unfold s1. simpl. rewrite Hl. unfold handleLaunchButtonClick. now rewrite Hlen. }
  assert (Hst1 : stage s1 = AwaitAnimation) by now rewrite Hs1.
  assert (Hp1 : precomputePromise s1 = Pending) by now rewrite Hs1.
  assert (Hv1 : isWordcloudVisible s1 = false) by now rewrite Hs1.
  clearbody s1. clear Hs1.
  split; [| split].
  - unfold view. now rewrite Hv1, Hst1.
  - intros evs. apply (ordered_run evs [] s1). right. rewrite Hst1, Hp1.
    repeat split; try assumption; discriminate.
  - now apply launch_completes.
Qed.

Lemma C2_result_after_animation_and_precompute_witness :
  view resultShown = ResultShown /\
  In AnimationEnd [AnimationEnd; VoteResponse Ok; PreviewResponse Ok; CommitResponse Ok;
                   ImageLoaded true].
Proof.
  assert (Hl : launchDisabled selected3 = false) by reflexivity.
  assert (Hn : length (selectedItems selected3) = 3) by reflexivity.
  destruct (C2_result_after_animation_and_precompute selected3 reachable_selected3 Hl Hn)
    as (_ & H & Hshown & _).
  split; [exact Hshown |]. apply (H _ Hshown).
Defined.

End TransitionClaims.

(** ** Return to the selection screen and language switch *)

Section ReturnAndLanguageClaims.
Import Js Selection Controller Invariant Properties Examples.

Lemma filter_twice {A} (p : A -> bool) (l : list A) : filter p (filter p l) = filter p l.
Proof.
  induction l as [|a l IH]; simpl; [reflexivity |].
  destruct (p a) eqn:Ha; simpl; [rewrite Ha; now f_equal | assumption].
Qed.

Lemma find_filtered_out (id : nat) (l : list Timer) :
  find (fun t => timerId t =? id) (filter (fun t => negb (timerId t =? id)) l) = None.
Proof.
  induction l as [|a l IH]; simpl; [reflexivity |].
  destruct (timerId a =? id) eqn:Ha; simpl; [assumption | now rewrite Ha].
Qed.

Lemma find_app_none {A} (p : A -> bool) (l1 l2 : list A) :
  find p l1 = None -> find p (l1 ++ l2) = find p l2.
Proof.
  induction l1 as [|a l1 IH]; simpl; [reflexivity |].
  destruct (p a); [discriminate | assumption].
Qed.

(** The expiry of the armed timer does what a direct call of
    [returnToSelection] does. *)
Lemma returnToSelection_after_expiry (id : nat) (s : State) :
  wordcloudReturnTimer s = Some id -> isWordcloudVisible s = true ->
  returnToSelection (clearTimeout id s) = returnToSelection s.
Proof.
  intros Hvar Hv. unfold returnToSelection, clearReturnTimer, setTimeout, clearTimeout.
  simpl. rewrite Hv, Hvar. simpl. now rewrite filter_twice.
Qed.

(** C6. In a reachable state that shows the word cloud the return timer is
    armed, with the delay AUTO_RETURN_DELAY_MS.  When it expires, and then
    the fade, the selection screen is back
    with no entry selected and every control enabled.  A click on the back
    button (on a page other than /wordcloud) followed by the fade ends in
    the very same state, and right after the click the timer variable is
    null and no pending timer calls [returnToSelection]: the expiry of the
    old handle does nothing. *)
Theorem C6_auto_and_manual_return (s : State) :
  reachable s -> view s = ResultShown ->
  exists id t,
    wordcloudReturnTimer s = Some id /\ findTimer id s = Some t /\
    callback t = CbReturnToSelection /\ delay t = AUTO_RETURN_DELAY_MS /\
    let fade := nextTimer s in
    let auto := run s [TimerFired id; TimerFired fade] in
    (view auto = Selecting /\ selectedItems auto = [] /\
     gridDisabled auto = false /\ rocketDisabled auto = false /\
     launchDisabled auto = false /\
     selectionHidden auto = false /\ wordcloudHidden auto = true) /\
    (isWordcloudPage s = false ->
       let back := step s BackClick in
       run s [BackClick; TimerFired fade] = auto /\
       wordcloudReturnTimer back = None /\
       (forall t', In t' (timers back) -> callback t' <> CbReturnToSelection) /\
       step back (TimerFired id) = back /\
       (forall t', In t' (timers auto) -> callback t' <> CbReturnToSelection)).
Proof.
  intros Hr Hview. apply view_ResultShown in Hview.
  pose proof (reachable_Inv s Hr) as HI.
  destruct (inv_armed s HI Hview) as (id & t & Hvar & Hfind & Hcb).
  destruct (busy_visible s (inv_exclusive s HI) Hview) as (Hrun & Hsw & _).
  assert (Hst : stage s = Idle) by (destruct (stage s); simpl in Hrun; congruence).
  pose proof (inv_fresh s HI) as Hfresh. pose proof (inv_auto s HI) as Hauto.
  destruct (findTimer_In id s t Hfind) as [Hin Hid].
  assert (Hlt : id < nextTimer s).
  { rewrite Forall_forall in Hfresh. rewrite <- Hid. now apply Hfresh. }
  exists id, t. split; [assumption |]. split; [assumption |]. split; [assumption |].
  split; [exact (inv_delay s HI t Hin Hcb) |].
  intros fade auto.
  assert (Hexp : step s (TimerFired id) = returnToSelection s).
  { simpl. rewrite Hfind, Hcb. simpl. now apply returnToSelection_after_expiry. }
  set (back := returnToSelection s).
  assert (Htimers : timers back
                    = filter (fun t => negb (timerId t =? id)) (timers s)
                      ++ [mkTimer fade WORDCLOUD_FADE_MS CbReturnSwap]).
  { unfold back, returnToSelection, clearReturnTimer, setTimeout. rewrite Hview, Hvar.
    reflexivity. }
  assert (Hfade : findTimer fade back = Some (mkTimer fade WORDCLOUD_FADE_MS CbReturnSwap)).
  { unfold findTimer. rewrite Htimers. apply find_app_fresh. now apply fresh_filter. }
  assert (Hauto' : auto = returnSwap (clearTimeout fade back)).
  { unfold auto, run. cbn [fold_left]. rewrite Hexp. fold back.
    cbn [step]. rewrite Hfade. reflexivity. }
  assert (Hnone : forall t', In t' (timers back) -> callback t' <> CbReturnToSelection).
  { intros t' Hin' Hcb'. rewrite Htimers in Hin'. apply in_app_or in Hin'.
    destruct Hin' as [Hin' | [<- | []]]; [| discriminate].
    apply filter_In in Hin'. destruct Hin' as [Hin' Hne].
    specialize (Hauto t' Hin' Hcb'). rewrite Hvar in Hauto. injection Hauto as Hid'.
    rewrite <- Hid', Nat.eqb_refl in Hne. discriminate. }
  split.
  - rewrite Hauto'. unfold view, returnSwap, updateGridStates, updateRocketBlocks,
      updateLaunchButtonState. simpl.
    unfold back, returnToSelection, setTimeout. rewrite Hview. simpl.
    rewrite (proj1 (proj2 (proj2 (clearReturnTimer_frame _)))), Hst. repeat split.
  - intros Hpage back'.
    assert (Hback : back' = back).
    { unfold back'. simpl. now rewrite Hpage. }
    rewrite Hback. split; [| split; [| split; [| split]]].
    + unfold auto, run. cbn [fold_left]. fold back'. rewrite Hback, Hexp. reflexivity.
    + unfold back, returnToSelection, clearReturnTimer, setTimeout. rewrite Hview, Hvar.
      reflexivity.
    + exact Hnone.
    + cbn [step]. unfold findTimer.
      rewrite Htimers, find_app_none by apply find_filtered_out. simpl.
      replace (fade =? id) with false; [reflexivity |].
      symmetry. apply Nat.eqb_neq. unfold fade. lia.
    + intros t' Hin'. apply Hnone. rewrite Hauto' in Hin'.
      unfold returnSwap, updateGridStates, updateRocketBlocks, updateLaunchButtonState in Hin'.
      simpl in Hin'. apply filter_In in Hin'. tauto.
Qed.

Lemma C6_auto_and_manual_return_witness :
  exists id, wordcloudReturnTimer resultShown = Some id /\
             run resultShown [BackClick; TimerFired (nextTimer resultShown)]
             = run resultShown [TimerFired id; TimerFired (nextTimer resultShown)].
Proof.
  destruct (C6_auto_and_manual_return resultShown reachable_resultShown eq_refl)
    as (id & t & Hvar & _ & _ & _ & _ & H).
  exists id. split; [exact Hvar |]. apply (H eq_refl).
Defined.



(** Whether the texts can be applied depends on the page and on the
    selection only. *)
Lemma applied_frame (tr : Translations) (s s' : State) :
  host s' = host s -> selectedItems s' = selectedItems s -> applied tr s' = applied tr s.
Proof.
  intros Hh Hs. unfold applied, applyTranslations, updateRocketBlocks, boxRaises, blockRaises.
  simpl. rewrite Hh, Hs.
  destruct (existsb _ (boxes (host s))); [reflexivity |].
  destruct (existsb _ (selectedItems s)); reflexivity.
Qed.




End ReturnAndLanguageClaims.

(** ** More on the selection handlers *)

Section SelectionExtras.
Import Js Selection Controller Invariant Properties Examples Render MoreExamples.

Lemma findIndex_app_last {A} (p : A -> bool) (l : list A) (y : A) :
  (forall x, In x l -> p x = false) -> p y = true ->
  findIndex p (l ++ [y]) = Some (length l).
Proof.
  induction l as [|a l IH]; simpl; intros Hl Hy.
  - now rewrite Hy.
  - rewrite (Hl a (or_introl eq_refl)). rewrite IH; [reflexivity | | assumption].
    intros x Hx. apply Hl. now right.
Qed.

Lemma splice1_app_last {A} (l : list A) (y : A) : splice1 (length l) (l ++ [y]) = l.
Proof. induction l as [|a l IH]; simpl; [reflexivity | now rewrite IH]. Qed.

Lemma toggleItem_twice (b : GridButton) (l : list Item) :
  ~ In (datasetKey b) (keys l) -> toggleItem b (toggleItem b l) = l.
Proof.
  intros Hk. destruct (Nat.lt_ge_cases (length l) 3) as [Hlt | Hge].
  - rewrite (toggleItem_new b l Hk Hlt). unfold toggleItem at 1.
    rewrite findIndex_app_last.
    + apply splice1_app_last.
    + apply findIndex_None. now apply findIndex_key_None.
    + simpl. apply String.eqb_refl.
  - rewrite (toggleItem_full b l Hk Hge). now apply toggleItem_full.
Qed.

Lemma toggleItem_extends (b : GridButton) (l : list Item) :
  ~ In (datasetKey b) (keys l) -> exists rest, toggleItem b l = l ++ rest.
Proof.
  intros Hk. destruct (Nat.lt_ge_cases (length l) 3) as [Hlt | Hge].
  - rewrite (toggleItem_new b l Hk Hlt). eauto.
  - rewrite (toggleItem_full b l Hk Hge). exists []. now rewrite app_nil_r.
Qed.

(** X1. Selecting a key that is not selected and clicking it again gives
    back the selection as it was, entries, indices and order.  When none of
    the entries selected before makes the rendering of the rocket blocks
    raise, the state differs from the one before at most by the launch
    button, which is as [updateLaunchButtonState] sets it; when one does,
    both clicks end by the exception and the state is the one before, the
    launch button included. *)
Theorem X1_select_then_deselect (s : State) (b : GridButton) :
  ~ In (datasetKey b) (keys (selectedItems s)) ->
  handleGridItemClick b (handleGridItemClick b s) =
  if existsb (blockRaises (host s) (currentTranslations s)) (selectedItems s)
  then s else updateLaunchButtonState s.
Proof.
  intros Hk. pose proof (toggleItem_twice b (selectedItems s) Hk) as Ht.
  destruct (toggleItem_extends b (selectedItems s) Hk) as [rest Hrest].
  unfold handleGridItemClick, updateGridStates, updateRocketBlocks, updateLaunchButtonState.
  destruct s. simpl in *.
  destruct (existsb _ selectedItems0) eqn:E2.
  - assert (E1 : existsb (blockRaises host0 currentTranslations0)
                   (toggleItem b selectedItems0) = true).
    { rewrite Hrest, existsb_app, E2. reflexivity. }
    rewrite E1. simpl. rewrite Ht, E2. reflexivity.
  - destruct (existsb _ (toggleItem b selectedItems0)); simpl;
      [| destruct (length (toggleItem b selectedItems0) =? 3); simpl];
      rewrite Ht, E2; simpl; destruct (length selectedItems0 =? 3); reflexivity.
Qed.

Lemma X1_select_then_deselect_witness :
  handleGridItemClick camera (handleGridItemClick camera indexPage)
  = updateLaunchButtonState indexPage.
Proof.
  apply (X1_select_then_deselect indexPage camera). simpl. tauto.
Defined.

Lemma slot_injective (l : list Item) (x y : Item) :
  NoDup (slots l) -> In x l -> In y l -> rocketIndex x = rocketIndex y -> x = y.
Proof.
  induction l as [|a l IH]; simpl; [intros _ [] |].
  intros Hnd Hx Hy Hk. inversion Hnd as [|? ? Hnin Hnd']; subst.
  destruct Hx as [<- | Hx], Hy as [<- | Hy]; try reflexivity.
  - exfalso. apply Hnin. rewrite Hk. now apply in_map.
  - exfalso. apply Hnin. rewrite <- Hk. now apply in_map.
  - now apply IH.
Qed.

(** In a list without repeated keys a decomposition around an entry is
    determined by the entry. *)
Lemma split_unique (l1 l2 l1' l2' : list Item) (x : Item) :
  NoDup (keys (l1 ++ x :: l2)) -> l1 ++ x :: l2 = l1' ++ x :: l2' -> l1 = l1' /\ l2 = l2'.
Proof.
  revert l1'. induction l1 as [|a l1 IH]; intros l1' Hnd He.
  - destruct l1' as [|a' l1']; simpl in *.
    + injection He as ->. auto.
    + injection He as <- ->. exfalso. unfold keys in Hnd. simpl in Hnd.
      inversion Hnd as [|? ? Hnin _]; subst. apply Hnin. rewrite map_app. simpl.
      apply in_or_app. right. now left.
  - destruct l1' as [|a' l1']; simpl in *.
    + injection He as -> <-. exfalso. unfold keys in Hnd. simpl in Hnd.
      inversion Hnd as [|? ? Hnin _]; subst. apply Hnin. rewrite map_app. simpl.
      apply in_or_app. right. now left.
    + injection He as <- He. unfold keys in Hnd. simpl in Hnd.
      inversion Hnd as [|? ? _ Hnd']; subst.
      destruct (IH l1' Hnd' He) as [-> ->]. auto.
Qed.

(** X2. In a reachable state an entry is removed the same way by a click on
    its rocket block and by a click on its grid item: the two handlers end
    in the same state. *)
Theorem X2_rocket_click_is_grid_click (s : State) (b : GridButton) (x : Item) :
  reachable s -> In x (selectedItems s) -> key x = datasetKey b ->
  handleRocketBlockClick (rocketIndex x) s = handleGridItemClick b s.
Proof.
  intros Hr Hx Hk. pose proof (inv_wf s (reachable_Inv s Hr)) as Hwf.
  assert (Hink : In (datasetKey b) (keys (selectedItems s))).
  { rewrite <- Hk. unfold keys. now apply in_map. }
  assert (Hins : In (rocketIndex x) (slots (selectedItems s))).
  { unfold slots. now apply in_map. }
  destruct (toggleItem_present b _ Hink) as (l1 & y & l2 & Hl & Hy & _ & Ht).
  destruct (toggleSlot_occupied _ _ Hins) as (m1 & z & m2 & Hm & Hz & _ & Hs).
  assert (Hxy : x = y).
  { apply (key_injective (selectedItems s)); [apply (wf_keys _ Hwf) | assumption | | congruence].
    rewrite Hl. apply in_elt. }
  assert (Hxz : x = z).
  { apply (slot_injective (selectedItems s)); [apply (wf_slots _ Hwf) | assumption | | congruence].
    rewrite Hm. apply in_elt. }
  subst y z.
  assert (Heq : l1 = m1 /\ l2 = m2).
  { apply (split_unique l1 l2 m1 m2 x); [rewrite <- Hl; apply (wf_keys _ Hwf) | congruence]. }
  destruct Heq as [-> ->].
  unfold handleRocketBlockClick, handleGridItemClick. now rewrite Hs, Ht.
Qed.

Lemma X2_rocket_click_is_grid_click_witness :
  handleRocketBlockClick 1 selected3 = handleGridItemClick music selected3.
Proof.
  apply (X2_rocket_click_is_grid_click selected3 music (mkItem 2 1 "music")
           reachable_selected3).
  - simpl. tauto.
  - reflexivity.
Defined.

Lemma length_splice {A} (l1 l2 : list A) (x : A) :
  length (l1 ++ x :: l2) = S (length (l1 ++ l2)).
Proof. rewrite !length_app. simpl. lia. Qed.

(** X3. A click on a rocket block never adds an entry.  On a block that no
    entry occupies, and in a reachable state this is so of every index from
    3 on, the handler changes nothing at all; on an occupied block exactly
    one entry goes, the block is free afterwards, and a second click on it
    changes nothing. *)
Theorem X3_rocket_click_only_removes (s : State) (i : nat) :
  reachable s ->
  (~ In i (slots (selectedItems s)) -> handleRocketBlockClick i s = s) /\
  (3 <= i -> handleRocketBlockClick i s = s) /\
  (In i (slots (selectedItems s)) ->
     let s' := handleRocketBlockClick i s in
     S (length (selectedItems s')) = length (selectedItems s) /\
     ~ In i (slots (selectedItems s')) /\
     handleRocketBlockClick i s' = s').
Proof.
  intros Hr. pose proof (inv_wf s (reachable_Inv s Hr)) as Hwf.
  assert (Hfree : forall s0, ~ In i (slots (selectedItems s0)) -> handleRocketBlockClick i s0 = s0).
  { intros s0 Hn. unfold handleRocketBlockClick. now rewrite toggleSlot_free. }
  split; [apply Hfree |]. split.
  - intros Hi. apply Hfree. intros Hin. pose proof (wf_range _ Hwf) as Hrange.
    rewrite Forall_forall in Hrange. apply Hrange in Hin. lia.
  - intros Hin s'.
    destruct (toggleSlot_occupied i _ Hin) as (l1 & x & l2 & Hl & Hx & _ & Ht).
    assert (Hs' : selectedItems s' = l1 ++ l2).
    { unfold s'. now rewrite selectedItems_handleRocketBlockClick, Ht. }
    assert (Hn : ~ In i (slots (selectedItems s'))).
    { rewrite Hs'. pose proof (wf_slots _ Hwf) as Hnd. rewrite Hl in Hnd.
      unfold slots in *. rewrite map_app in Hnd. simpl in Hnd.
      apply NoDup_remove in Hnd. rewrite <- map_app in Hnd. rewrite <- Hx. apply Hnd. }
    split; [| split].
    + rewrite Hs', Hl. symmetry. apply length_splice.
    + exact Hn.
    + now apply Hfree.
Qed.

Lemma X3_rocket_click_only_removes_witness :
  handleRocketBlockClick 7 selected3 = selected3 /\
  S (length (selectedItems (handleRocketBlockClick 2 selected3)))
  = length (selectedItems selected3).
Proof.
  destruct (X3_rocket_click_only_removes selected3 7 reachable_selected3) as (_ & H7 & _).
  destruct (X3_rocket_click_only_removes selected3 2 reachable_selected3) as (_ & _ & H2).
  split; [apply H7; lia |]. apply H2. simpl. tauto.
Defined.

Lemma freeSlots_count (l : list Item) :
  NoDup (slots l) -> Forall (fun i => i < 3) (slots l) ->
  length l + length (freeSlots l) = 3.
Proof.
  intros Hnd Hr. unfold freeSlots.
  pose proof (filter_length (includes (slots l)) [0; 1; 2]) as Hf. simpl length in Hf at 3.
  assert (Hocc : length (filter (includes (slots l)) [0; 1; 2]) = length (slots l)).
  { apply Nat.le_antisymm.
    - apply NoDup_incl_length.
      + apply NoDup_filter. repeat constructor; simpl; lia.
      + intros j Hj. apply filter_In in Hj. now apply includes_In.
    - apply NoDup_incl_length; [assumption |].
      intros j Hj. apply filter_In. split; [| now apply includes_In].
      rewrite Forall_forall in Hr. apply Hr in Hj. simpl. lia. }
  unfold slots in Hocc at 2. rewrite length_map in Hocc. lia.
Qed.

Lemma nextRocketIndex_hd (used : list nat) :
  nextRocketIndex used = hd 3 (filter (fun i => negb (includes used i)) [0; 1; 2]).
Proof.
  unfold nextRocketIndex. simpl.
  destruct (includes used 0); simpl; [| reflexivity].
  destruct (includes used 1); simpl; [| reflexivity].
  destruct (includes used 2); reflexivity.
Qed.

(** X4. In a reachable state the entries and the free rocket indices
    together make up the three blocks: with [n] entries there are [3 - n]
    free indices, none when the selection is full, and the index handed to
    the next new key is the first free one. *)
Theorem X4_slots_partition_blocks (s : State) :
  reachable s ->
  length (selectedItems s) + length (freeSlots (selectedItems s)) = 3 /\
  (isFull (selectedItems s) = true <-> freeSlots (selectedItems s) = []) /\
  nextRocketIndex (slots (selectedItems s)) = hd 3 (freeSlots (selectedItems s)).
Proof.
  intros Hr. pose proof (inv_wf s (reachable_Inv s Hr)) as [_ Hnd Hrange _].
  pose proof (freeSlots_count _ Hnd Hrange) as Hc.
  split; [assumption |]. split; [| apply nextRocketIndex_hd].
  unfold isFull. rewrite Nat.eqb_eq. split; intros H.
  - destruct (freeSlots (selectedItems s)); [reflexivity | simpl in Hc; lia].
  - rewrite H in Hc. simpl in Hc. lia.
Qed.

Lemma X4_slots_partition_blocks_witness :
  length (selectedItems (handleRocketBlockClick 1 selected3))
  + length (freeSlots (selectedItems (handleRocketBlockClick 1 selected3))) = 3.
Proof.
  apply X4_slots_partition_blocks.
  apply (reachable_step selected3 (RocketClick 1)), reachable_selected3.
Defined.

End SelectionExtras.

(** ** What the grid and the rocket blocks show *)

Section RenderExtras.
Import Js Selection Controller Invariant Properties Examples Render MoreExamples.

Lemma some_key_In (k : string) (l : list Item) :
  existsb (fun item => String.eqb (key item) k) l = true <-> In k (keys l).
Proof.
  rewrite existsb_exists. unfold keys. rewrite in_map_iff. split.
  - intros (x & Hx & He). apply String.eqb_eq in He. now exists x.
  - intros (x & He & Hx). exists x. split; [assumption | now apply String.eqb_eq].
Qed.

(** X5. After [updateGridStates] the two classes of a grid button tell what
    a click on it does to the selection of a reachable state: [selected]
    is there exactly when the click takes an entry out, [disabled] exactly
    when the click leaves the selection as it is, and neither exactly when
    the click adds an entry.  The button is never both. *)
Theorem X5_grid_classes_predict_click (s : State) (button : GridNode) :
  reachable s ->
  let items := selectedItems s in
  let shown := renderGridButton items button in
  let after := toggleItem (element button) items in
  element shown = element button /\
  (classSelected shown = true <-> S (length after) = length items) /\
  (classDisabled shown = true <-> after = items) /\
  (classSelected shown = false /\ classDisabled shown = false
   <-> length after = S (length items)) /\
  ~ (classSelected shown = true /\ classDisabled shown = true).
Proof.
  intros Hr items shown after. pose proof (inv_wf s (reachable_Inv s Hr)) as Hwf.
  fold items in Hwf. unfold shown, renderGridButton.
  destruct (in_dec string_dec (datasetKey (element button)) (keys items)) as [Hin | Hnin].
  - rewrite (proj2 (some_key_In _ _) Hin). simpl.
    destruct (toggleItem_present _ _ Hin) as (l1 & x & l2 & Hl & _ & _ & Ht).
    assert (Hlen : S (length after) = length items).
    { unfold after. rewrite Ht, Hl. symmetry. apply length_splice. }
    split; [reflexivity |]. split; [tauto |]. split; [| split].
    + split; [discriminate |]. intros Ha. rewrite Ha in Hlen. lia.
    + split; [intros [Hx _]; discriminate | lia].
    + intros [_ Hx]. discriminate.
  - assert (He : existsb (fun item => String.eqb (key item) (datasetKey (element button)))
                   items = false).
    { destruct (existsb _ items) eqn:E; [| reflexivity]. apply some_key_In in E. contradiction. }
    rewrite He. destruct (3 <=? length items) eqn:Hmax; simpl.
    + apply Nat.leb_le in Hmax.
      assert (Ha : after = items) by (unfold after; now apply toggleItem_full).
      split; [reflexivity |]. split; [| split; [tauto | split]].
      * split; [discriminate |]. rewrite Ha. lia.
      * split; [intros [_ Hx]; discriminate | rewrite Ha; lia].
      * intros [Hx _]. discriminate.
    + apply Nat.leb_gt in Hmax.
      assert (Ha : length after = S (length items)).
      { unfold after. rewrite toggleItem_new by assumption. rewrite length_app. simpl. lia. }
      split; [reflexivity |]. split; [| split; [| split]].
      * split; [discriminate | lia].
      * split; [discriminate |]. intros Hx. rewrite Hx in Ha. lia.
      * tauto.
      * intros [Hx _]. discriminate.
Qed.

Lemma X5_grid_classes_predict_click_witness :
  classDisabled (renderGridButton (selectedItems selected3) (mkGridNode camera false false))
  = true.
Proof.
  apply (X5_grid_classes_predict_click selected3 (mkGridNode camera false false)
           reachable_selected3).
  reflexivity.
Defined.

Lemma length_setNth {A} (i : nat) (x : A) (l : list A) : length (setNth i x l) = length l.
Proof.
  revert i. induction l as [|a l IH]; intros [|i]; simpl; try reflexivity. now rewrite IH.
Qed.

Lemma nth_error_setNth_eq {A} (i : nat) (x : A) (l : list A) :
  i < length l -> nth_error (setNth i x l) i = Some x.
Proof.
  revert i. induction l as [|a l IH]; intros [|i]; simpl; intros H; try lia; try reflexivity.
  apply IH. lia.
Qed.

Lemma nth_error_setNth_ne {A} (i j : nat) (x : A) (l : list A) :
  i <> j -> nth_error (setNth i x l) j = nth_error l j.
Proof.
  revert i j. induction l as [|a l IH]; intros [|i] [|j]; simpl; intros H;
    try reflexivity; try lia. apply IH. lia.
Qed.

Lemma fillRocketBlocks_spec (h : Host) (tr : Translations) (l : list Item) :
  NoDup (slots l) ->
  forall blocks, length blocks = rocketBlockCount h ->
  let texts := fst (fillRocketBlocks h tr l blocks) in
  let raised := snd (fillRocketBlocks h tr l blocks) in
  length texts = rocketBlockCount h /\
  (forall i, ~ In i (slots l) -> nth_error texts i = nth_error blocks i) /\
  exists shown rest,
    l = shown ++ rest /\
    existsb (blockRaises h tr) shown = false /\
    (if raised then exists x l2, rest = x :: l2 /\ blockRaises h tr x = true else rest = []) /\
    (forall i, ~ In i (slots shown) -> nth_error blocks i = Some None ->
               nth_error texts i = Some None) /\
    (forall x, In x shown -> rocketIndex x < rocketBlockCount h ->
               nth_error blocks (rocketIndex x) = Some None ->
               nth_error texts (rocketIndex x) = Some (shownText (getProperty h tr (key x)))).
Proof.
  induction l as [|a l IH]; intros Hnd blocks Hlen; cbn [fillRocketBlocks].
  - simpl. split; [assumption |]. split; [reflexivity |].
    exists [], []. repeat split; auto. intros x [].
  - unfold slots in Hnd. simpl in Hnd. inversion Hnd as [|? ? Ha Hnd']; subst.
    assert (Hraise : blockRaises h tr a =
                     match nth_error blocks (rocketIndex a) with
                     | Some _ => raisesInBox (getProperty h tr (key a))
                     | None => false
                     end).
    { unfold blockRaises. destruct (nth_error blocks (rocketIndex a)) eqn:Hn.
      - assert (rocketIndex a < length blocks) by (apply nth_error_Some; congruence).
        replace (rocketIndex a <? rocketBlockCount h) with true; [reflexivity |].
        symmetry. apply Nat.ltb_lt. lia.
      - apply nth_error_None in Hn.
        replace (rocketIndex a <? rocketBlockCount h) with false; [reflexivity |].
        symmetry. apply Nat.ltb_ge. lia. }
    unfold fillRocketBlock.
    destruct (nth_error blocks (rocketIndex a)) as [old|] eqn:Hn.
    + destruct (raisesInBox (getProperty h tr (key a))) eqn:Hr.
      * set (blocks' := match getProperty h tr (key a) with
                        | Raises => blocks
                        | _ => setNth (rocketIndex a) None blocks
                        end).
        assert (Hlen' : length blocks' = rocketBlockCount h).
        { unfold blocks'. destruct (getProperty h tr (key a));
            rewrite ?length_setNth; assumption. }
        assert (Hother : forall i, i <> rocketIndex a ->
                           nth_error blocks' i = nth_error blocks i).
        { intros i Hi. unfold blocks'. destruct (getProperty h tr (key a));
            [apply nth_error_setNth_ne; congruence
            | apply nth_error_setNth_ne; congruence | reflexivity]. }
        assert (Hself : nth_error blocks (rocketIndex a) = Some None ->
                        nth_error blocks' (rocketIndex a) = Some None).
        { intros Hnone. unfold blocks'. destruct (getProperty h tr (key a));
            [apply nth_error_setNth_eq; apply nth_error_Some; congruence
            | apply nth_error_setNth_eq; apply nth_error_Some; congruence
            | assumption]. }
        simpl. fold blocks'. split; [exact Hlen' |]. split.
        { intros i Hi. apply Hother. intros Heq. apply Hi. now left. }
        exists [], (a :: l). repeat split; eauto.
        -- intros i _ Hi. destruct (Nat.eq_dec i (rocketIndex a)) as [-> | Hne].
           ++ now apply Hself.
           ++ now rewrite Hother.
        -- intros x [].
      * set (blocks' := match shownText (getProperty h tr (key a)) with
                        | Some text => setNth (rocketIndex a) (Some text) blocks
                        | None => blocks
                        end).
        assert (Hlen' : length blocks' = rocketBlockCount h).
        { unfold blocks'. destruct (shownText _); [now rewrite length_setNth | assumption]. }
        assert (Hother : forall i, i <> rocketIndex a ->
                           nth_error blocks' i = nth_error blocks i).
        { intros i Hi. unfold blocks'. destruct (shownText _); [| reflexivity].
          apply nth_error_setNth_ne. congruence. }
        assert (Hself : nth_error blocks (rocketIndex a) = Some None ->
                        nth_error blocks' (rocketIndex a)
                        = Some (shownText (getProperty h tr (key a)))).
        { intros Hnone. unfold blocks'. destruct (shownText _); [| assumption].
          apply nth_error_setNth_eq. apply nth_error_Some. congruence. }
        fold blocks'. cbv beta iota zeta.
        destruct (IH Hnd' blocks' Hlen') as (I1 & I2 & shown & rest & I3 & I4 & I5 & I6 & I7).
        split; [exact I1 |]. split.
        { intros i Hi. rewrite I2 by (intros Hin; apply Hi; now right).
          apply Hother. intros ->. apply Hi. now left. }
        exists (a :: shown), rest. split; [simpl; now rewrite I3 |].
        split; [simpl; rewrite Hraise; exact I4 |]. split; [exact I5 |]. split.
        -- intros i Hi Hnone. apply I6; [intros Hin; apply Hi; now right |].
           rewrite Hother; [assumption |]. intros ->. apply Hi. now left.
        -- intros x [<- | Hx] Hrange Hnone.
           ++ rewrite I2 by exact Ha. now apply Hself.
           ++ apply I7; try assumption. rewrite Hother; [assumption |].
              intros Heq. apply Ha. rewrite <- Heq. apply in_map.
              rewrite I3. apply in_or_app. now left.
    + simpl.
      destruct (IH Hnd' blocks Hlen) as (I1 & I2 & shown & rest & I3 & I4 & I5 & I6 & I7).
      split; [exact I1 |]. split.
      { intros i Hi. apply I2. intros Hin. apply Hi. now right. }
      exists (a :: shown), rest. split; [simpl; now rewrite I3 |].
      split; [simpl; rewrite Hraise; exact I4 |]. split; [exact I5 |]. split.
      -- intros i Hi Hnone. apply I6; [intros Hin; apply Hi; now right | assumption].
      -- intros x [<- | Hx] Hrange Hnone; [congruence |]. now apply I7.
Qed.

(** X6. After [updateRocketBlocks] in a reachable state the rocket blocks
    mirror the selection up to the first entry at which the rendering
    raises, all of it when none does: the block of such an entry's rocket
    index holds the trimmed text of that entry's key (nothing when the
    value is falsy), and every other block is empty, the blocks of the
    raising entry and of the entries after it included.  The rendering
    raises exactly when [updateRocketBlocks] of the state does. *)
Theorem X6_rocket_blocks_mirror_selection (s : State) :
  reachable s ->
  let h := host s in
  let tr := currentTranslations s in
  let texts := fst (rocketBlockTexts h tr (selectedItems s)) in
  let raised := snd (rocketBlockTexts h tr (selectedItems s)) in
  length texts = rocketBlockCount h /\
  updateRocketBlocks s = (if raised then Throw s else Normal s) /\
  exists shown rest,
    selectedItems s = shown ++ rest /\
    existsb (blockRaises h tr) shown = false /\
    (if raised then exists x l2, rest = x :: l2 /\ blockRaises h tr x = true else rest = []) /\
    forall i, i < rocketBlockCount h ->
      (~ In i (slots shown) -> nth_error texts i = Some None) /\
      (forall x, In x shown -> rocketIndex x = i ->
                 nth_error texts i = Some (shownText (getProperty h tr (key x)))).
Proof.
  intros Hr h tr texts raised.
  pose proof (wf_slots _ (inv_wf s (reachable_Inv s Hr))) as Hnd.
  destruct (fillRocketBlocks_spec h tr (selectedItems s) Hnd
              (repeat None (rocketBlockCount h)) (repeat_length _ _))
    as (I1 & _ & shown & rest & I3 & I4 & I5 & I6 & I7).
  fold (rocketBlockTexts h tr (selectedItems s)) in I1, I5, I6, I7.
  fold texts in I1, I6, I7. fold raised in I5.
  split; [exact I1 |]. split.
  - unfold updateRocketBlocks. fold h tr. rewrite I3, existsb_app, I4. simpl.
    destruct raised.
    + destruct I5 as (x & l2 & -> & Hx). simpl. now rewrite Hx.
    + now rewrite I5.
  - exists shown, rest. repeat split; try assumption.
    + intros Hi. apply I6; [assumption |]. now apply nth_error_repeat.
    + intros x Hx <-. apply I7; try assumption. now apply nth_error_repeat.
Qed.

Lemma X6_rocket_blocks_mirror_selection_witness :
  nth_error (fst (rocketBlockTexts (host selectedEnglish) (currentTranslations selectedEnglish)
                    (selectedItems selectedEnglish))) 1
  = Some (Some (ascii16 "Music")).
Proof.
  assert (Hr : reachable selectedEnglish).
  { apply (reachable_run indexPage
             [TranslationsResponse "en" (Some english); GridClick water; GridClick music;
              GridClick book]), reachable_indexPage. }
  destruct (X6_rocket_blocks_mirror_selection selectedEnglish Hr)
    as (_ & _ & shown & rest & Hsplit & _ & Hrest & H).
  simpl in Hrest. subst rest. rewrite app_nil_r in Hsplit. subst shown.
  destruct (H 1) as [_ H1]; [simpl; lia |].
  apply (H1 (mkItem 2 1 "music")); [simpl; tauto | reflexivity].
Defined.

End RenderExtras.

(** ** What is sent, and when *)

Section RequestExtras.
Import Js Selection Controller Invariant Properties Examples Render MoreExamples Traces.

Lemma requests_setLanguage_resume_eq (lang : string) (tr : Translations) (s : State) :
  requests (setLanguage_resume lang tr s)
  = requests s ++ toList (if isWordcloudPage s && applied tr s
                          then Some (ReqImage (getWordcloudImagePath lang)) else None).
Proof.
  rewrite <- (applied_frame tr s (setLanguageAttributes lang s)) by reflexivity.
  unfold applied, setLanguage_resume.
  destruct (applyTranslations tr (setLanguageAttributes lang s)) as [s1|s1] eqn:Ha;
    assert (Hs1 : s1 = set_currentTranslations tr (setLanguageAttributes lang s))
      by (unfold applyTranslations, updateRocketBlocks in Ha;
          repeat match type of Ha with context [if ?c then _ else _] => destruct c end;
          congruence);
    rewrite Hs1.
  - unfold isWordcloudPage, updateWordcloudImage, loadWordcloudImage, fetch. simpl.
    destruct (String.eqb (pathname s) "/wordcloud"); simpl; now rewrite ?app_nil_r.
  - rewrite andb_false_r. simpl. now rewrite app_nil_r.
Qed.

(** Every event sends at most one request, the one [newRequest] names. *)
Lemma requests_step (s : State) (e : Event) :
  requests (step s e) = requests s ++ toList (newRequest s e).
Proof.
  destruct e as [b | i | | | lang | | r | r | r | ok | lang r | id];
    try solve [simpl; open_handlers; simpl; split_matches; open_handlers; simpl;
               split_matches; simpl in *; rewrite ?app_nil_r;
               try reflexivity; try discriminate].
  - cbn [step newRequest]. destruct (String.eqb lang ""); [now rewrite app_nil_r |].
    unfold setLanguage.
    change (cachedTranslations lang (setLanguage_start lang s))
      with (cachedTranslations lang s).
    destruct (cachedTranslations lang s) as [tr|]; [| reflexivity].
    rewrite requests_setLanguage_resume_eq.
    now rewrite (applied_frame tr s (setLanguage_start lang s)) by reflexivity.
  - cbn [step newRequest]. unfold translationsArrived.
    destruct (existsb (String.eqb lang) (pendingTranslations s));
      [| destruct r; now rewrite app_nil_r].
    destruct r as [data|]; [| now rewrite app_nil_r].
    rewrite requests_setLanguage_resume_eq.
    match goal with |- context [applied ?t ?x] =>
      rewrite (applied_frame t s x) by reflexivity end.
    reflexivity.
Qed.


Lemma currentLanguage_step (s : State) (e : Event) :
  currentLanguage (step s e)
  = match e with
    | LangClick lang => if String.eqb lang "" then currentLanguage s else lang
    | _ => currentLanguage s
    end.
Proof. destruct e; crush_step; try reflexivity; try discriminate. Qed.




(** X8. A click on a language that [translationsCache[lang]] does not
    find (no file cached under it, and no member of [Object.prototype] of
    that name) requests the file and switches [currentLanguage] and the
    stored language at once, before the file is there, leaving the texts
    and the attributes of the document as they are.  If the load then
    fails, the texts, the language and the direction of the document, the
    cache and the image stay as they were, no alert is shown, the failed
    language remains the current one, and the next click on it requests the
    file again. *)
Theorem X8_failed_translations_load (s : State) (lang : string) :
  lang <> "" -> cachedTranslations lang s = None ->
  let s1 := step s (LangClick lang) in
  let s2 := step s1 (TranslationsResponse lang None) in
  (requests s1 = requests s ++ [ReqTranslations lang] /\
   currentLanguage s1 = lang /\ storedLanguage s1 = Some lang /\
   docLang s1 = docLang s /\ docDir s1 = docDir s /\
   currentTranslations s1 = currentTranslations s) /\
  (currentLanguage s2 = lang /\ storedLanguage s2 = Some lang /\
   docLang s2 = docLang s /\ docDir s2 = docDir s /\
   currentTranslations s2 = currentTranslations s /\
   translationsCache s2 = translationsCache s /\ imageSrc s2 = imageSrc s /\
   alerts s2 = alerts s /\ requests s2 = requests s1) /\
  requests (step s2 (LangClick lang)) = requests s2 ++ [ReqTranslations lang].
Proof.
  intros Hne Hc s1 s2. apply String.eqb_neq in Hne.
  assert (Hs1 : s1 = requestTranslations lang (setLanguage_start lang s)).
  { unfold s1. cbn [step]. rewrite Hne. unfold setLanguage.
    change (cachedTranslations lang (setLanguage_start lang s))
      with (cachedTranslations lang s).
    now rewrite Hc. }
  assert (Hp : existsb (String.eqb lang) (pendingTranslations s1) = true).
  { rewrite Hs1. simpl. rewrite existsb_app. simpl. rewrite String.eqb_refl.
    apply orb_true_iff. right. reflexivity. }
  assert (Hs2 : s2 = set_pendingTranslations (removeFirst lang (pendingTranslations s1)) s1).
  { unfold s2. cbn [step]. unfold translationsArrived. now rewrite Hp. }
  split; [rewrite Hs1; repeat split |].
  split; [rewrite Hs2, Hs1; repeat split |].
  assert (Hagain : newRequest s2 (LangClick lang) = Some (ReqTranslations lang)).
  { cbn [newRequest]. rewrite Hne.
    assert (Hcs : cachedTranslations lang s2 = cachedTranslations lang s)
      by (rewrite Hs2, Hs1; reflexivity).
    now rewrite Hcs, Hc. }
  now rewrite (requests_step s2), Hagain.
Qed.

Lemma X8_failed_translations_load_witness :
  currentLanguage (run indexPage [LangClick "ar"; TranslationsResponse "ar" None]) = "ar" /\
  docLang (run indexPage [LangClick "ar"; TranslationsResponse "ar" None]) = docLang indexPage.
Proof.
  assert (Hne : "ar" <> "") by discriminate.
  destruct (X8_failed_translations_load indexPage "ar" Hne eq_refl)
    as (_ & (H1 & _ & H2 & _) & _).
  split; [exact H1 | exact H2].
Defined.

(** X9. Whatever happens in between, [currentLanguage] is the language of
    the last click on a language button (buttons without a language do not
    count), and this is the language a launch click puts in its
    precomputation request, whether or not the texts of that language have
    arrived. *)
Theorem X9_currentLanguage_is_last_click (s : State) (evs : list Event) :
  currentLanguage (run s evs) = lastLanguage (currentLanguage s) evs /\
  forall items language,
    requests (step (run s evs) LaunchClick)
    = requests (run s evs) ++ [ReqPreview items language] ->
    language = lastLanguage (currentLanguage s) evs.
Proof.
  assert (H : currentLanguage (run s evs) = lastLanguage (currentLanguage s) evs).
  { unfold lastLanguage. revert s. induction evs as [|e evs IH]; simpl; intros s.
    - reflexivity.
    - rewrite IH, currentLanguage_step. destruct e; reflexivity. }
  split; [assumption |]. intros items language. rewrite requests_step. intros Hq.
  apply app_inv_head in Hq. simpl in Hq.
  destruct (launchDisabled (run s evs)); [discriminate |].
  destruct (length (selectedItems (run s evs)) =? 3); [| discriminate].
  injection Hq as _ <-. assumption.
Qed.

Lemma X9_currentLanguage_is_last_click_witness :
  currentLanguage (run selected3 [LangClick "he"; TranslationsResponse "he" None;
                                  LangClick ""]) = "he".
Proof.
  apply (X9_currentLanguage_is_last_click selected3
           [LangClick "he"; TranslationsResponse "he" None; LangClick ""]).
Defined.

End RequestExtras.

(** ** Ballots and the course of a launch *)

Section LaunchExtras.
Import Js Selection Controller Invariant Properties Examples Render MoreExamples Traces.

Lemma launch_needs_idle (s : State) :
  reachable s -> launchDisabled s = false -> stage s = Idle.
Proof.
  intros Hr Hl. now destruct (Inv_unlocked s (reachable_Inv s Hr)) as (_ & Hst & _); auto.
Qed.

Lemma ballots_step (s : State) (e : Event) :
  reachable s ->
  voteOwed (step s e) + length (filter isVote (toList (newRequest s e)))
  = voteOwed s + length (filter isPreview (toList (newRequest s e))).
Proof.
  intros Hr. pose proof (launch_needs_idle s Hr) as Hidle. unfold voteOwed.
  destruct e; crush_step; try reflexivity; try discriminate;
    try (specialize (Hidle eq_refl); discriminate);
    try congruence.
Qed.

Lemma ballots_run (evs : list Event) (s : State) :
  reachable s ->
  length (filter isVote (requests (run s evs))) + voteOwed (run s evs)
  + length (filter isPreview (requests s))
  = length (filter isVote (requests s)) + voteOwed s
    + length (filter isPreview (requests (run s evs))).
Proof.
  revert s. induction evs as [|e evs IH]; simpl; intros s Hr; [lia |].
  specialize (IH (step s e) (reachable_step s e Hr)).
  pose proof (ballots_step s e Hr) as Hs.
  rewrite requests_step, !filter_app, !length_app in IH. lia.
Qed.

(** X10. From any reachable state on, ballots balance: every launch click
    that sends a precomputation request leads to one vote request and no
    more, sent when its animation ends.  At each moment the votes sent since
    then are the precomputation requests sent since then, less the one of a
    launch still waiting for its animation. *)
Theorem X10_one_vote_per_launch (s : State) (evs : list Event) :
  reachable s ->
  let s' := run s evs in
  length (filter isVote (requests s')) + voteOwed s'
  + length (filter isPreview (requests s))
  = length (filter isVote (requests s)) + voteOwed s
    + length (filter isPreview (requests s')).
Proof. intros Hr. now apply ballots_run. Qed.

Lemma X10_one_vote_per_launch_witness :
  length (filter isVote (requests (run selected3 [LaunchClick; LaunchClick; AnimationEnd;
                                                   AnimationEnd; LaunchClick]))) = 1.
Proof.
  pose proof (X10_one_vote_per_launch selected3
                [LaunchClick; LaunchClick; AnimationEnd; AnimationEnd; LaunchClick]
                reachable_selected3) as H.
  vm_compute in H. vm_compute. lia.
Defined.

(** X11. In a reachable state, whenever an event makes the page send a vote
    or a precomputation request, the request carries the keys of the
    entries selected at that moment, in their order: exactly three keys,
    all different; and the event leaves the selection as it is. *)
Theorem X11_ballot_is_the_selection (s : State) (e : Event) (r : Request)
    (items : list string) :
  reachable s -> requests (step s e) = requests s ++ [r] -> ballotOf r = Some items ->
  items = keys (selectedItems s) /\ length items = 3 /\ NoDup items /\
  selectedItems (step s e) = selectedItems s.
Proof.
  intros Hr Hq Hb. pose proof (reachable_Inv s Hr) as HI.
  rewrite requests_step in Hq. apply app_inv_head in Hq.
  assert (Hk : items = keys (selectedItems s) /\ length (selectedItems s) = 3 /\
               selectedItems (step s e) = selectedItems s).
  { destruct e; simpl in Hq; try discriminate.
    - destruct (launchDisabled s) eqn:Hl; [discriminate |].
      destruct (length (selectedItems s) =? 3) eqn:Hlen; [| discriminate].
      injection Hq as <-. simpl in Hb. injection Hb as <-. apply Nat.eqb_eq in Hlen.
      simpl. rewrite Hl. unfold handleLaunchButtonClick.
      rewrite Hlen. auto.
    - repeat match type of Hq with
             | context [match ?x with _ => _ end] => destruct x
             end; simpl in Hq; try discriminate; injection Hq as <-; discriminate.
    - destruct (stage s) eqn:Hst; simpl in Hq; try discriminate.
      injection Hq as <-. simpl in Hb. injection Hb as <-.
      assert (Hrun : isRunning (stage s) = true) by now rewrite Hst.
      destruct (inv_launch s HI Hrun) as [Hlen Hkeys].
      split; [exact Hkeys |]. split; [exact Hlen |].
      now apply running_keeps_selection.
    - destruct r0, (stage s), (precomputePromise s); simpl in Hq; try discriminate;
        injection Hq as <-; discriminate.
    - destruct r0, (stage s), (precomputePromise s); simpl in Hq; try discriminate;
        injection Hq as <-; discriminate.
    - destruct (stage s); simpl in Hq; try discriminate. injection Hq as <-. discriminate.
    - repeat match type of Hq with
             | context [match ?x with _ => _ end] => destruct x
             end; simpl in Hq; try discriminate; injection Hq as <-; discriminate. }
  destruct Hk as (Hitems & Hlen & Hsel). split; [assumption |].
  split; [rewrite Hitems; unfold keys; now rewrite length_map |].
  split; [rewrite Hitems; apply (wf_keys _ (inv_wf s HI)) | assumption].
Qed.

Lemma X11_ballot_is_the_selection_witness :
  ["water"; "music"; "book"] = keys (selectedItems launched) /\
  NoDup ["water"; "music"; "book"].
Proof.
  destruct (X11_ballot_is_the_selection launched AnimationEnd
              (ReqVote ["water"; "music"; "book"]) ["water"; "music"; "book"]
              reachable_launched eq_refl eq_refl) as (H1 & _ & H2 & _).
  split; assumption.
Defined.

Lemma inOrder_nil (evs : list Event) : inOrder [] evs.
Proof. destruct evs; exact I. Qed.

Lemma inOrder_app_r (tests : list (Event -> bool)) (evs more : list Event) :
  inOrder tests evs -> inOrder tests (evs ++ more).
Proof.
  revert tests. induction evs as [|a evs IH]; intros [|t ts]; simpl;
    try tauto; try (intros _; apply inOrder_nil).
  intros [[Ht Hr] | Hr]; [left; split; [assumption | now apply IH] | right; now apply IH].
Qed.

Lemma inOrder_first (t : Event -> bool) (evs : list Event) (e : Event) :
  t e = true -> inOrder [t] (evs ++ [e]).
Proof.
  intros Ht. induction evs as [|a evs IH]; simpl; [| now right].
  left. split; [assumption | exact I].
Qed.

Lemma inOrder_snoc (tests tests' : list (Event -> bool)) (t : Event -> bool)
    (evs : list Event) (e : Event) :
  tests' = tests ++ [t] -> inOrder tests evs -> t e = true ->
  inOrder tests' (evs ++ [e]).
Proof.
  intros -> H Ht. revert tests H. induction evs as [|a evs IH]; intros [|t0 ts]; simpl;
    try tauto.
  - intros _. right. now apply inOrder_first.
  - intros [[H0 Hr] | Hr]; [left; split; [assumption | now apply IH] | right].
    now apply (IH (t0 :: ts)).
Qed.

Ltac seq_finish :=
  unfold sequenced, wholeLaunch; simpl;
  repeat match goal with
         | H : stage ?s = _ |- context [stage ?s] => rewrite H
         end;
  simpl;
  first
    [ right; split;
      [ first [assumption | reflexivity]
      | first [exact I | apply inOrder_nil | apply inOrder_app_r; assumption] ]
    | right; split;
      [ first [assumption | reflexivity]
      | first [ apply inOrder_first; reflexivity
              | eapply inOrder_snoc; [ | eassumption | ]; reflexivity ] ]
    | left; eapply inOrder_snoc; [ | eassumption | ]; reflexivity ].

Lemma sequenced_step (seen : list Event) (s : State) (e : Event) :
  sequenced seen s -> sequenced (seen ++ [e]) (step s e).
Proof.
  intros [Hall | [Hv Hp]]; [left; now apply inOrder_app_r |].
  destruct e; crush_step; try discriminate; try congruence; seq_finish.
Qed.

Lemma sequenced_run (evs seen : list Event) (s : State) :
  sequenced seen s -> view (run s evs) = ResultShown -> inOrder wholeLaunch (seen ++ evs).
Proof.
  revert seen s. induction evs as [|e evs IH]; simpl; intros seen s Ho Hv.
  - rewrite app_nil_r. apply view_ResultShown in Hv.
    destruct Ho as [Ho | (H1 & _)]; [assumption | congruence].
  - replace (seen ++ e :: evs) with ((seen ++ [e]) ++ evs) by (rewrite <- app_assoc; reflexivity).
    apply (IH _ (step s e)); [now apply sequenced_step | assumption].
Qed.

(** X12. After an accepted launch click the word cloud is shown only when
    the events since the click contain, in this order, the end of the
    animation, a vote response that is ok, a response to the commit request
    and the load of the image. *)
Theorem X12_steps_before_wordcloud (s : State) (evs : list Event) :
  reachable s -> launchDisabled s = false -> length (selectedItems s) = 3 ->
  view (run (step s LaunchClick) evs) = ResultShown ->
  inOrder [isAnimationEnd; isVoteOk; isCommitResponse; isImageLoaded] evs.
Proof.
  intros Hr Hl Hlen. apply (sequenced_run evs [] (step s LaunchClick)).
  destruct (Inv_unlocked s (reachable_Inv s Hr)) as (Hv & Hst & _); [auto |].
  right. simpl. rewrite Hl. unfold handleLaunchButtonClick. rewrite Hlen. simpl. auto.
Qed.

Lemma X12_steps_before_wordcloud_witness :
  inOrder [isAnimationEnd; isVoteOk; isCommitResponse; isImageLoaded]
    [PreviewResponse Ok; AnimationEnd; LangClick "he"; VoteResponse Ok;
     CommitResponse NetworkError; ImageLoaded true].
Proof.
  apply (X12_steps_before_wordcloud selected3 _ reachable_selected3); reflexivity.
Defined.

(** The launch events act on the state as [launchMachine] says. *)
Lemma launchOf_step (s : State) (e : Event) :
  match e with
  | AnimationEnd | VoteResponse _ | PreviewResponse _ | CommitResponse _ | ImageLoaded _ =>
      launchOf (step s e) = launchMachine (launchOf s) e /\
      selectedItems (step s e) = selectedItems s
  | _ => True
  end.
Proof.
  destruct e; try exact I; unfold launchOf, launchMachine; crush_step; split;
    try reflexivity; unfold atStage, settled, givenUp, shown; simpl; congruence.
Qed.

Lemma launchOf_run (evs : list Event) (s : State) :
  Forall (fun e => match e with
                   | AnimationEnd | VoteResponse _ | PreviewResponse _ | CommitResponse _
                   | ImageLoaded _ => True
                   | _ => False
                   end) evs ->
  launchOf (run s evs) = fold_left launchMachine evs (launchOf s) /\
  selectedItems (run s evs) = selectedItems s.
Proof.
  revert s. induction evs as [|e evs IH]; simpl; intros s Hf; [auto |].
  inversion Hf as [|? ? He Hf']; subst. destruct (IH (step s e) Hf') as [H1 H2].
  pose proof (launchOf_step s e) as Hs.
  destruct e; try contradiction; destruct Hs as [Hs1 Hs2]; split; congruence.
Qed.

(** X13. A launch whose five signals arrive ends in one of two ways,
    wherever the answer to the precomputation request comes among the end
    of the animation and the answer to the vote (before both, between them
    or after both; the commit request is sent only after it).  When the
    precomputation and the vote are answered ok and the image loads, the
    word cloud is shown, no alert appears and the controls stay disabled,
    whatever the commit request answers.  In every other case the page is
    back on the selection screen with exactly one alert and all three kinds
    of control enabled.  The selection is the same either way. *)
Theorem X13_launch_outcome (s : State) (preview vote commit : Outcome) (image : bool)
    (before after : list Event) :
  reachable s -> launchDisabled s = false -> length (selectedItems s) = 3 ->
  before ++ after = [AnimationEnd; VoteResponse vote] ->
  let s' := run (step s LaunchClick)
              (before ++ [PreviewResponse preview] ++ after
               ++ [CommitResponse commit; ImageLoaded image]) in
  let ok := isOk preview && isOk vote && image in
  view s' = (if ok then ResultShown else Selecting) /\
  alerts s' = (if ok then alerts s else S (alerts s)) /\
  launchDisabled s' = ok /\ gridDisabled s' = ok /\ rocketDisabled s' = ok /\
  selectedItems s' = selectedItems s.
Proof.
  intros Hr Hl Hlen Horder s' ok.
  destruct (Inv_unlocked s (reachable_Inv s Hr)) as (Hv & Hst & _); [auto |].
  set (s1 := step s LaunchClick) in *.
  assert (H1 : launchOf s1 = mkLaunch AwaitAnimation Pending false (alerts s) true true true
               /\ selectedItems s1 = selectedItems s).
  { unfold s1, launchOf. simpl. rewrite Hl. unfold handleLaunchButtonClick. rewrite Hlen.
    simpl. now rewrite Hv. }
  destruct H1 as [Hl1 Hsel1].
  assert (Hview : view s' = if lVisible (launchOf s') then ResultShown
                            else match lStage (launchOf s') with
                                 | Idle => Selecting
                                 | _ => Transitioning
                                 end) by reflexivity.
  assert (Hal : alerts s' = lAlerts (launchOf s')) by reflexivity.
  assert (Hld : launchDisabled s' = lLaunchDisabled (launchOf s')) by reflexivity.
  assert (Hgd : gridDisabled s' = lGridDisabled (launchOf s')) by reflexivity.
  assert (Hrd : rocketDisabled s' = lRocketDisabled (launchOf s')) by reflexivity.
  assert (Hcases : (before = [] /\ after = [AnimationEnd; VoteResponse vote]) \/
                   (before = [AnimationEnd] /\ after = [VoteResponse vote]) \/
                   (before = [AnimationEnd; VoteResponse vote] /\ after = [])).
  { destruct before as [|e1 [|e2 [|e3 before]]]; simpl in Horder.
    - left. auto.
    - right. left. injection Horder as -> ->. auto.
    - right. right. injection Horder as -> -> ->. auto.
    - exfalso. injection Horder as _ _ H. destruct before; discriminate H. }
  assert (Hall : forall evs,
            s' = run s1 evs ->
            Forall (fun e => match e with
                             | AnimationEnd | VoteResponse _ | PreviewResponse _
                             | CommitResponse _ | ImageLoaded _ => True
                             | _ => False
                             end) evs ->
            launchOf s' = fold_left launchMachine evs (launchOf s1) /\
            selectedItems s' = selectedItems s1).
  { intros evs -> Hf. now apply launchOf_run. }
  destruct Hcases as [[-> ->] | [[-> ->] | [-> ->]]].
  - destruct (Hall [PreviewResponse preview; AnimationEnd; VoteResponse vote;
                    CommitResponse commit; ImageLoaded image] eq_refl) as [Hrun Hsel];
      [repeat constructor |].
    rewrite Hl1 in Hrun. rewrite Hview, Hal, Hld, Hgd, Hrd, Hrun, Hsel, Hsel1. unfold ok.
    destruct preview, vote, commit, image; simpl; repeat split.
  - destruct (Hall [AnimationEnd; PreviewResponse preview; VoteResponse vote;
                    CommitResponse commit; ImageLoaded image] eq_refl) as [Hrun Hsel];
      [repeat constructor |].
    rewrite Hl1 in Hrun. rewrite Hview, Hal, Hld, Hgd, Hrd, Hrun, Hsel, Hsel1. unfold ok.
    destruct preview, vote, commit, image; simpl; repeat split.
  - destruct (Hall [AnimationEnd; VoteResponse vote; PreviewResponse preview;
                    CommitResponse commit; ImageLoaded image] eq_refl) as [Hrun Hsel];
      [repeat constructor |].
    rewrite Hl1 in Hrun. rewrite Hview, Hal, Hld, Hgd, Hrd, Hrun, Hsel, Hsel1. unfold ok.
    destruct preview, vote, commit, image; simpl; repeat split.
Qed.

Lemma X13_launch_outcome_witness :
  view (run (step selected3 LaunchClick)
          [AnimationEnd; VoteResponse Ok; PreviewResponse Ok; CommitResponse HttpError;
           ImageLoaded true]) = ResultShown /\
  alerts (run (step selected3 LaunchClick)
            [AnimationEnd; PreviewResponse NetworkError; VoteResponse Ok;
             CommitResponse Ok; ImageLoaded true]) = S (alerts selected3).
Proof.
  split.
  - apply (X13_launch_outcome selected3 Ok Ok HttpError true
             [AnimationEnd; VoteResponse Ok] [] reachable_selected3); reflexivity.
  - apply (X13_launch_outcome selected3 NetworkError Ok Ok true
             [AnimationEnd] [VoteResponse Ok] reachable_selected3); reflexivity.
Defined.

(** A launch past its animation has sent its vote. *)
Lemma voteSent_step (s : State) (e : Event) :
  (pastAnimation (stage s) = true -> In (ReqVote (selectedKeys s)) (requests s)) ->
  pastAnimation (stage (step s e)) = true ->
  In (ReqVote (selectedKeys (step s e))) (requests (step s e)).
Proof.
  intros H. destruct e; crush_step; intros Hp; try discriminate;
    repeat match goal with
           | Heq : stage s = _ |- _ => rewrite Heq in Hp; clear Heq
           end;
    simpl in Hp; try discriminate; rewrite ?in_app_iff; simpl; auto.
Qed.

Lemma voteSent (s : State) :
  reachable s -> pastAnimation (stage s) = true ->
  In (ReqVote (selectedKeys s)) (requests s).
Proof.
  induction 1 as [s (_ & _ & _ & Hst & _) | s e _ IH].
  - rewrite Hst. discriminate.
  - now apply voteSent_step.
Qed.

(** X14. When a launch fails after its vote has gone out, because the
    precomputation fails while the handler waits for it or because the
    image does not load, the vote request is already in the log although
    the page reports a failure and enables the controls; launching again
    sends a second vote with the same three keys. *)
Theorem X14_retry_after_late_failure_votes_again (s : State) (e : Event) :
  reachable s ->
  (stage s = AwaitPrecompute /\ precomputePromise s = Pending /\
   (e = PreviewResponse HttpError \/ e = PreviewResponse NetworkError)) \/
  (stage s = AwaitImage /\ e = ImageLoaded false) ->
  let ballot := ReqVote (keys (selectedItems s)) in
  In ballot (requests s) /\
  aborted s (step s e) /\
  filter isVote (requests (run s [e; LaunchClick; AnimationEnd]))
  = filter isVote (requests s) ++ [ballot].
Proof.
  intros Hr Hcase ballot. pose proof (reachable_Inv s Hr) as HI.
  assert (Hrun : isRunning (stage s) = true).
  { destruct Hcase as [(Hst & _) | (Hst & _)]; now rewrite Hst. }
  assert (Hpast : pastAnimation (stage s) = true).
  { destruct Hcase as [(Hst & _) | (Hst & _)]; now rewrite Hst. }
  destruct (inv_launch s HI Hrun) as [Hlen Hkeys].
  destruct (busy_running s (inv_exclusive s HI) Hrun) as (Hv & _ & _).
  assert (Hsent : In ballot (requests s)).
  { unfold ballot, keys. rewrite <- Hkeys. now apply voteSent. }
  set (a := step s e).
  assert (Ha : aborted s a /\ requests a = requests s /\
               currentLanguage a = currentLanguage s).
  { unfold a, aborted, view.
    destruct Hcase as [(Hst & Hp & [-> | ->]) | (Hst & ->)]; simpl;
      unfold previewArrived; rewrite ?Hst, ?Hp; simpl; rewrite Hv; repeat split. }
  destruct Ha as (Hab & Hreq & Hlang). split; [assumption |]. split; [assumption |].
  destruct Hab as (_ & Hsel & _ & _ & Hld & _).
  assert (Hb : step a LaunchClick
               = set_stage AwaitAnimation
                   (precomputeWordcloud (map key (selectedItems s))
                      (set_selectedKeys (map key (selectedItems s))
                         (setLaunchInteractionDisabled true (set_launchDisabled true a))))).
  { simpl. rewrite Hld. unfold handleLaunchButtonClick. rewrite Hsel, Hlen. simpl.
    now rewrite Hsel. }
  unfold run. cbn [fold_left]. fold a. rewrite Hb. simpl.
  rewrite !filter_app. simpl. rewrite Hreq, app_nil_r. reflexivity.
Qed.

Lemma X14_retry_after_late_failure_votes_again_witness :
  let s := run launched [AnimationEnd; VoteResponse Ok; PreviewResponse Ok;
                         CommitResponse Ok] in
  filter isVote (requests (run s [ImageLoaded false; LaunchClick; AnimationEnd]))
  = [ReqVote ["water"; "music"; "book"]; ReqVote ["water"; "music"; "book"]].
Proof.
  intros s.
  assert (Hr : reachable s) by (apply reachable_run, reachable_launched).
  destruct (X14_retry_after_late_failure_votes_again s (ImageLoaded false) Hr)
    as (_ & _ & H).
  - right. split; reflexivity.
  - rewrite H. reflexivity.
Defined.

Lemma autos_filter_le (p : Timer -> bool) (l : list Timer) :
  length (filter isAuto (filter p l)) <= length (filter isAuto l).
Proof.
  induction l as [|a l IH]; simpl; [lia |].
  destruct (p a); simpl; destruct (isAuto a); simpl; lia.
Qed.

Lemma no_auto_filter (l : list Timer) :
  (forall t, In t l -> callback t <> CbReturnToSelection) -> filter isAuto l = [].
Proof.
  intros H. induction l as [|a l IH]; simpl; [reflexivity |].
  unfold isAuto at 1. destruct (callback a) eqn:Hc.
  - exfalso. apply (H a); [now left | assumption].
  - apply IH. intros t Ht. apply H. now right.
Qed.

(** In the states the page reaches a timer that calls [returnToSelection]
    is pending only while the word cloud is shown, and only one. *)
Lemma autos_bounded (s : State) :
  reachable s ->
  length (filter isAuto (timers s)) <= 1 /\
  (filter isAuto (timers s) <> [] -> isWordcloudVisible s = true).
Proof.
  induction 1 as [s (_ & _ & _ & _ & Htm) | s e Hr IH].
  - rewrite Htm. simpl. split; [lia | congruence].
  - pose proof (reachable_Inv s Hr) as HI. destruct IH as [IH1 IH2].
    assert (Hreturn : forall s0, (forall t, In t (timers s0) ->
                                   callback t = CbReturnToSelection ->
                                   wordcloudReturnTimer s0 = Some (timerId t)) ->
                                 isWordcloudVisible s0 = true ->
                                 filter isAuto (timers (returnToSelection s0)) = []).
    { intros s0 Hau Hvis. unfold returnToSelection, setTimeout. rewrite Hvis. simpl.
      rewrite filter_app. simpl.
      rewrite (no_auto_filter (timers (clearReturnTimer s0))); [reflexivity |].
      intros t. now apply clearReturnTimer_no_auto. }
    assert (Hkeep : forall s', timers s' = timers s ->
                               isWordcloudVisible s' = isWordcloudVisible s ->
                               length (filter isAuto (timers s')) <= 1 /\
                               (filter isAuto (timers s') <> [] ->
                                isWordcloudVisible s' = true)).
    { intros s' -> ->. auto. }
    destruct e; try (apply Hkeep; crush_step; reflexivity).
    + simpl. destruct (isWordcloudPage s); [now apply Hkeep |].
      destruct (isWordcloudVisible s) eqn:Hvis.
      * rewrite (Hreturn s (inv_auto s HI) Hvis). simpl. split; [lia | congruence].
      * unfold returnToSelection. rewrite Hvis. simpl. auto.
    + simpl. destruct (stage s); try (now apply Hkeep).
      unfold launch_afterImage. destruct ok; [| apply Hkeep; reflexivity].
      unfold showWordcloudView_resume, AUTO_RETURN_ENABLED, setTimeout. simpl.
      rewrite filter_app. simpl.
      set (s1 := set_isWordcloudVisible true
                   (set_wordcloudHidden false (set_selectionHidden true s))).
      rewrite (no_auto_filter (timers (clearReturnTimer s1))).
      * simpl. split; [lia |]. intros _.
        apply (proj1 (proj2 (clearReturnTimer_frame s1))).
      * intros t. apply clearReturnTimer_no_auto. exact (inv_auto s HI).
    + simpl. destruct (findTimer id s) as [t|] eqn:Hf; [| auto].
      set (s1 := clearTimeout id s).
      pose proof (autos_filter_le (fun t0 => negb (timerId t0 =? id)) (timers s)) as Hle.
      assert (Hau1 : forall t, In t (timers s1) -> callback t = CbReturnToSelection ->
                               wordcloudReturnTimer s1 = Some (timerId t)).
      { unfold s1. simpl. intros t' Ht'. apply filter_In in Ht'. now apply (inv_auto s HI). }
      destruct (callback t); simpl.
      * destruct (isWordcloudVisible s1) eqn:Hvis.
        -- rewrite (Hreturn s1 Hau1 Hvis). simpl. split; [lia | congruence].
        -- unfold returnToSelection. rewrite Hvis. simpl. split; [lia |].
           intros Hne. apply IH2. intros Hnil. rewrite Hnil in Hle.
           destruct (filter isAuto (filter _ (timers s))); [congruence | simpl in Hle; lia].
      * unfold returnSwap, updateGridStates, updateRocketBlocks, updateLaunchButtonState.
        simpl. split; [lia |]. intros Hne. apply IH2. intros Hnil. rewrite Hnil in Hle.
        destruct (filter isAuto (filter _ (timers s))); [congruence | simpl in Hle; lia].
Qed.

(** X15. Timers never pile up.  In a reachable state at most one timer that
    calls [returnToSelection] is pending, and one is pending exactly while
    the word cloud is shown; at most one fade is pending, and while it is,
    no return timer is pending, no launch runs, and a click on the back
    button (on a page other than /wordcloud) changes nothing. *)
Theorem X15_timers_never_stack (s : State) :
  reachable s ->
  length (filter isAuto (timers s)) <= 1 /\
  length (filter isSwap (timers s)) <= 1 /\
  (isWordcloudVisible s = true <-> filter isAuto (timers s) <> []) /\
  (filter isSwap (timers s) <> [] ->
     filter isAuto (timers s) = [] /\ stage s = Idle /\
     (isWordcloudPage s = false -> step s BackClick = s)).
Proof.
  intros Hr. pose proof (reachable_Inv s Hr) as HI.
  destruct (autos_bounded s Hr) as [Ha1 Ha2].
  pose proof (inv_exclusive s HI) as Hex. unfold busy in Hex.
  split; [assumption |]. split; [lia |]. split; [split; [| assumption] |].
  - intros Hvis. destruct (inv_armed s HI Hvis) as (id & t & _ & Hf & Hcb).
    apply findTimer_In in Hf. destruct Hf as [Hin _].
    assert (Hin' : In t (filter isAuto (timers s))).
    { apply filter_In. split; [assumption |]. unfold isAuto. now rewrite Hcb. }
    intros Hnil. rewrite Hnil in Hin'. destruct Hin'.
  - intros Hsw.
    assert (Hpos : 1 <= length (filter isSwap (timers s))).
    { destruct (filter isSwap (timers s)); [congruence | simpl; lia]. }
    assert (Hvis : isWordcloudVisible s = false).
    { destruct (isWordcloudVisible s); [simpl in Hex; lia | reflexivity]. }
    assert (Hst : stage s = Idle).
    { destruct (stage s); try reflexivity; simpl in Hex; lia. }
    split; [| split; [assumption |]].
    + destruct (filter isAuto (timers s)) eqn:Hau; [reflexivity |].
      assert (Hne : t :: l <> []) by discriminate. rewrite (Ha2 Hne) in Hvis. discriminate.
    + intros Hpage. simpl. rewrite Hpage. unfold returnToSelection. now rewrite Hvis.
Qed.

Lemma X15_timers_never_stack_witness :
  let s := step resultShown BackClick in
  filter isAuto (timers s) = [] /\ step s BackClick = s.
Proof.
  intros s.
  assert (Hr : reachable s) by (apply reachable_step, reachable_resultShown).
  destruct (X15_timers_never_stack s Hr) as (_ & _ & _ & H).
  destruct H as (H1 & _ & H2); [discriminate |].
  split; [exact H1 | apply H2; reflexivity].
Defined.

End LaunchExtras.

(** * Page load *)

Section PageLoadExtras.
Import Js Selection Controller Properties PageLoad.

Lemma indexPage_is_loaded :
  indexPage = domContentLoaded (freshPage plainTemplate "/" None).
Proof. reflexivity. Qed.

Lemma applyTranslations_state (tr : Translations) (s : State) :
  applyTranslations tr s
  = if applied tr s then Normal (set_currentTranslations tr s)
    else Throw (set_currentTranslations tr s).
Proof.
  unfold applied, applyTranslations, updateRocketBlocks. simpl.
  destruct (existsb _ (boxes (host s))); [reflexivity |].
  destruct (existsb _ (selectedItems s)); reflexivity.
Qed.

Lemma directionOf_inherited (lang : string) :
  inherited lang = true -> directionOf lang = DirOfMember lang.
Proof.
  intros Hin. unfold directionOf, langDirections. simpl.
  destruct (String.eqb lang "en") eqn:E1;
    [apply String.eqb_eq in E1; rewrite E1 in Hin; discriminate |].
  destruct (String.eqb lang "he") eqn:E2;
    [apply String.eqb_eq in E2; rewrite E2 in Hin; discriminate |].
  destruct (String.eqb lang "ar") eqn:E3;
    [apply String.eqb_eq in E3; rewrite E3 in Hin; discriminate |].
  now rewrite Hin.
Qed.


(** What the listener leaves, field by field. *)
Lemma domContentLoaded_facts (template : Template) (path : string) (stored : option string) :
  let lang := languageAtLoad stored in
  let fresh := freshPage template path stored in
  let s := domContentLoaded fresh in
  let image := ReqImage (getWordcloudImagePath lang) in
  initial s /\
  currentLanguage s = lang /\ storedLanguage s = Some lang /\
  (if String.eqb path "/wordcloud"
   then imageSrc s = Some (getWordcloudImagePath lang) /\
        launchDisabled s = tLaunchDisabled template
   else imageSrc s = tImageSrc template /\ launchDisabled s = true) /\
  (if inherited lang
   then pendingTranslations s = [] /\
        docLang s = lang /\ docDir s = DirOfMember lang /\
        currentTranslations s = Member lang /\
        requests s =
          if String.eqb path "/wordcloud"
          then image :: (if applied (Member lang) fresh then [image] else [])
          else [ReqCommit]
   else pendingTranslations s = [lang] /\
        docLang s = tLang template /\ docDir s = Dir (tDir template) /\
        currentTranslations s = Data [] /\
        requests s =
          ReqTranslations lang ::
          (if String.eqb path "/wordcloud" then [image] else [ReqCommit])).
Proof.
  intros lang fresh s image.
  assert (Hc : cachedTranslations lang (setLanguage_start lang fresh)
               = if inherited lang then Some (Member lang) else None) by reflexivity.
  assert (Hl : currentLanguage fresh = lang) by reflexivity.
  assert (Hs : s = domContentLoaded fresh) by reflexivity.
  unfold domContentLoaded in Hs. rewrite Hl, Hc in Hs. cbv zeta in Hs.
  rewrite Hs. clear Hs s.
  destruct (inherited lang) eqn:Hin.
  - unfold setLanguage_resume. rewrite applyTranslations_state.
    match goal with |- context [applied ?t (setLanguageAttributes ?l ?x)] =>
      rewrite (applied_frame t fresh (setLanguageAttributes l x)) by
        (unfold isWordcloudPage; simpl; destruct (String.eqb path "/wordcloud") eqn:Hp;
         repeat progress (simpl; rewrite ?Hp); reflexivity)
    end.
    unfold isWordcloudPage, setLanguageAttributes.
    rewrite (directionOf_inherited lang Hin). simpl.
    destruct (String.eqb path "/wordcloud") eqn:Hp;
      repeat progress (simpl; rewrite ?Hp);
      destruct (applied (Member lang) fresh);
      repeat progress (simpl; rewrite ?Hp); repeat split; reflexivity.
  - unfold isWordcloudPage. simpl.
    destruct (String.eqb path "/wordcloud") eqn:Hp;
      repeat progress (simpl; rewrite ?Hp); repeat split; reflexivity.
Qed.

(** X16.  Whatever the template, the path and the stored language, the
    state that the [DOMContentLoaded] listener leaves is a starting state
    of the event loop (nothing selected, no launch, no timer), with the
    language taken from localStorage or "en" and written back there.  On
    the word cloud page it has asked for the image of that language and has
    not touched the launch button; on any other page it has sent the commit
    and disabled the launch button even when the template had it enabled.
    When the language names no member of [Object.prototype], the
    translations have been asked for before that and the document and the
    texts are still those of the template.  When it names one, no
    translations are asked for: the document has that language and, as
    direction, the text of the member, the member is what the texts are
    read from, and on the word cloud page the image is asked for a second
    time unless applying the texts raised. *)
Theorem X16_page_load (template : Template) (path : string) (stored : option string) :
  let lang := languageAtLoad stored in
  let fresh := freshPage template path stored in
  let s := domContentLoaded fresh in
  let image := ReqImage (getWordcloudImagePath lang) in
  reachable s /\ initial s /\
  currentLanguage s = lang /\ storedLanguage s = Some lang /\
  (if String.eqb path "/wordcloud"
   then imageSrc s = Some (getWordcloudImagePath lang) /\
        launchDisabled s = tLaunchDisabled template
   else imageSrc s = tImageSrc template /\ launchDisabled s = true) /\
  (if inherited lang
   then pendingTranslations s = [] /\
        docLang s = lang /\ docDir s = DirOfMember lang /\
        currentTranslations s = Member lang /\
        requests s =
          if String.eqb path "/wordcloud"
          then image :: (if applied (Member lang) fresh then [image] else [])
          else [ReqCommit]
   else pendingTranslations s = [lang] /\
        docLang s = tLang template /\ docDir s = Dir (tDir template) /\
        currentTranslations s = Data [] /\
        requests s =
          ReqTranslations lang ::
          (if String.eqb path "/wordcloud" then [image] else [ReqCommit])).
Proof.
  intros lang fresh s image.
  pose proof (domContentLoaded_facts template path stored) as Hi.
  split; [constructor; apply Hi | exact Hi].
Qed.

Lemma X16_page_load_witness :
  reachable (domContentLoaded (freshPage plainTemplate "/wordcloud" (Some "he"))).
Proof.
  exact (proj1 (X16_page_load plainTemplate "/wordcloud" (Some "he"))).
Defined.



(** X25.  A click on a language button whose language names a member of
    [Object.prototype], with no file cached under that name, asks for no
    translations: [translationsCache[lang]] finds the member.  The click
    makes it the current and the stored language, gives the document that
    language and the text of the member as direction, and makes the member
    what the texts are read from; the image is asked for only on the word
    cloud page and only when applying the texts did not raise. *)
Theorem X25_language_named_like_a_member (s : State) (lang : string) :
  inherited lang = true -> assoc lang (translationsCache s) = None ->
  let s' := step s (LangClick lang) in
  currentLanguage s' = lang /\ storedLanguage s' = Some lang /\
  docLang s' = lang /\ docDir s' = DirOfMember lang /\
  currentTranslations s' = Member lang /\
  pendingTranslations s' = pendingTranslations s /\
  translationsCache s' = translationsCache s /\
  selectedItems s' = selectedItems s /\
  requests s' =
    requests s ++ (if isWordcloudPage s && applied (Member lang) s
                   then [ReqImage (getWordcloudImagePath lang)] else []).
Proof.
  intros Hin Hc s'.
  assert (Hne : String.eqb lang "" = false).
  { destruct (String.eqb lang "") eqn:E; [| reflexivity].
    apply String.eqb_eq in E. rewrite E in Hin. discriminate. }
  unfold s'. cbn [step]. rewrite Hne. unfold setLanguage.
  change (cachedTranslations lang (setLanguage_start lang s))
    with (match assoc lang (translationsCache s) with
          | Some t => Some t
          | None => if inherited lang then Some (Member lang) else None
          end).
  rewrite Hc, Hin. unfold setLanguage_resume. rewrite applyTranslations_state.
  rewrite (applied_frame (Member lang) s) by reflexivity.
  unfold setLanguageAttributes. rewrite (directionOf_inherited lang Hin).
  destruct (applied (Member lang) s); unfold isWordcloudPage; simpl;
    rewrite ?andb_true_r, ?andb_false_r;
    destruct (String.eqb (pathname s) "/wordcloud"); simpl; rewrite ?app_nil_r;
    repeat split; reflexivity.
Qed.

Lemma X25_language_named_like_a_member_witness :
  requests (step indexPage (LangClick "constructor")) = requests indexPage /\
  docDir (step indexPage (LangClick "constructor")) = DirOfMember "constructor".
Proof.
  destruct (X25_language_named_like_a_member indexPage "constructor" eq_refl eq_refl)
    as (_ & _ & _ & Hd & _ & _ & _ & _ & Hq).
  split; [| exact Hd]. rewrite Hq. apply app_nil_r.
Defined.

End PageLoadExtras.

(** * The earlier variant: lines and font sizes *)

Section LegacyTextExtras.
Import Js Legacy.

Local Notation "'nonEmpty'" := (fun word : JsString => 0 <? length word).
Local Notation "'notWhite'" := (fun c : N => negb (isWhiteSpace c)).

(** After the filter, the pieces do not depend on whether the scan starts
    inside a run of white space. *)
Lemma splitRuns_inRun (s : JsString) :
  filter nonEmpty (splitRuns true [] s) = filter nonEmpty (splitRuns false [] s).
Proof.
  destruct s as [|c r]; [reflexivity|]. simpl.
  destruct (isWhiteSpace c); reflexivity.
Qed.

Lemma splitRuns_app (a b : JsString) (w : N) :
  isWhiteSpace w = true ->
  forall cur,
    filter nonEmpty (splitRuns false cur (a ++ w :: b)) =
    filter nonEmpty (splitRuns false cur a) ++ filter nonEmpty (splitRuns false [] b).
Proof.
  intros Hw. induction a as [|c a IH]; intros cur.
  - cbn [app splitRuns]. rewrite Hw. cbn [filter]. rewrite splitRuns_inRun.
    destruct (nonEmpty cur); reflexivity.
  - cbn [app splitRuns]. destruct (isWhiteSpace c).
    + cbn [filter]. rewrite !splitRuns_inRun, IH.
      destruct (nonEmpty cur); reflexivity.
    + apply IH.
Qed.

Lemma splitRuns_word (s : JsString) :
  forallb notWhite s = true ->
  forall cur, splitRuns false cur s = [cur ++ s].
Proof.
  induction s as [|c s IH]; intros Hs cur; simpl in *.
  - now rewrite app_nil_r.
  - apply andb_prop in Hs. destruct Hs as [Hc Hs].
    destruct (isWhiteSpace c); [discriminate|].
    rewrite IH by assumption. now rewrite <- app_assoc.
Qed.

Lemma words_dropWhile (s : JsString) :
  filter nonEmpty (splitWhiteSpace (dropWhile isWhiteSpace s)) =
  filter nonEmpty (splitWhiteSpace s).
Proof.
  induction s as [|c s IH]; [reflexivity|]. cbn [dropWhile].
  destruct (isWhiteSpace c) eqn:Hc; [|reflexivity].
  rewrite IH. unfold splitWhiteSpace.
  change (c :: s) with ([] ++ c :: s).
  now rewrite (splitRuns_app [] s c Hc []).
Qed.

Lemma words_trimEnd (t : JsString) :
  filter nonEmpty (splitWhiteSpace (rev (dropWhile isWhiteSpace t))) =
  filter nonEmpty (splitWhiteSpace (rev t)).
Proof.
  induction t as [|c t IH]; [reflexivity|]. cbn [dropWhile rev].
  destruct (isWhiteSpace c) eqn:Hc; [|reflexivity].
  rewrite IH. unfold splitWhiteSpace.
  rewrite (splitRuns_app (rev t) [] c Hc []). simpl. now rewrite app_nil_r.
Qed.

(** [trim] is absorbed by the filter. *)
Lemma splitTextIntoLines_untrimmed (text : JsString) :
  splitTextIntoLines text = filter nonEmpty (splitWhiteSpace text).
Proof.
  unfold splitTextIntoLines, trim.
  rewrite words_trimEnd, rev_involutive. apply words_dropWhile.
Qed.

Lemma splitRuns_concat (s : JsString) :
  forall inRun cur, concat (splitRuns inRun cur s) = cur ++ filter notWhite s.
Proof.
  induction s as [|c s IH]; intros inRun cur; simpl.
  - reflexivity.
  - destruct (isWhiteSpace c); simpl.
    + destruct inRun; simpl; rewrite IH; reflexivity.
    + rewrite IH. now rewrite <- app_assoc.
Qed.

Lemma concat_nonEmpty (l : list JsString) :
  concat (filter nonEmpty l) = concat l.
Proof.
  induction l as [|w l IH]; [reflexivity|]. simpl.
  destruct w; simpl; [exact IH|]. now rewrite IH.
Qed.

Lemma lines_concat (text : JsString) :
  concat (splitTextIntoLines text) = filter notWhite text.
Proof.
  rewrite splitTextIntoLines_untrimmed, concat_nonEmpty.
  unfold splitWhiteSpace. now rewrite splitRuns_concat.
Qed.

Lemma lines_nonEmpty (text : JsString) (w : JsString) :
  In w (splitTextIntoLines text) -> w <> [].
Proof.
  unfold splitTextIntoLines. intros H. apply filter_In in H. destruct H as [_ H].
  destruct w; [discriminate|]. discriminate.
Qed.

Lemma blank_iff_no_lines (text : JsString) :
  splitTextIntoLines text = [] <-> forallb isWhiteSpace text = true.
Proof.
  split.
  - intros H. pose proof (lines_concat text) as Hc. rewrite H in Hc. simpl in Hc.
    clear H. induction text as [|c t IH]; [reflexivity|]. simpl in *.
    destruct (isWhiteSpace c); simpl in *; [auto|discriminate].
  - intros H. pose proof (lines_concat text) as Hc.
    assert (Hf : filter notWhite text = []).
    { clear Hc. induction text as [|c t IH]; [reflexivity|]. simpl in *.
      apply andb_prop in H. destruct H as [H1 H2].
      rewrite H1. simpl. auto. }
    rewrite Hf in Hc.
    destruct (splitTextIntoLines text) as [|w l] eqn:E; [reflexivity|].
    assert (Hw : w <> []) by (apply (lines_nonEmpty text); rewrite E; now left).
    simpl in Hc. destruct w; [congruence|discriminate].
Qed.

(** X18.  [splitTextIntoLines] is determined by two equations: a text
    without white space is one line (none when it is empty), and a text
    whose first white space unit follows the piece [a] gives the line of
    [a], if any, followed by the lines of the rest.  So each line is a
    maximal run of units that are not white space, in the order of the
    text, whatever the leading, trailing or repeated white space. *)
Theorem X18_lines_are_the_words (a b : JsString) (w : N) :
  forallb (fun c => negb (isWhiteSpace c)) a = true ->
  isWhiteSpace w = true ->
  splitTextIntoLines a = match a with [] => [] | _ => [a] end /\
  splitTextIntoLines (a ++ w :: b) = splitTextIntoLines a ++ splitTextIntoLines b.
Proof.
  intros Ha Hw. split.
  - rewrite splitTextIntoLines_untrimmed. unfold splitWhiteSpace.
    rewrite (splitRuns_word a Ha). destruct a; reflexivity.
  - rewrite !splitTextIntoLines_untrimmed. unfold splitWhiteSpace.
    now apply splitRuns_app.
Qed.

Lemma X18_lines_are_the_words_witness :
  splitTextIntoLines [115; 117; 110]%N = [[115; 117; 110]%N] /\
  splitTextIntoLines ([115; 117; 110] ++ 32 :: [32; 104; 97; 116; 10])%N =
  splitTextIntoLines [115; 117; 110]%N ++ splitTextIntoLines [32; 104; 97; 116; 10]%N.
Proof.
  exact (X18_lines_are_the_words [115; 117; 110]%N [32; 104; 97; 116; 10]%N 32%N
           eq_refl eq_refl).
Defined.

(** ** The binary search *)

Lemma searchLoop_done (fit : Z -> bool) (k : nat) (st : Search) :
  (maxSize st < minSize st)%Z -> searchLoop k fit st = st.
Proof.
  intros H. destruct k; [reflexivity|]. simpl.
  destruct (Z.leb_spec (minSize st) (maxSize st)); [lia|reflexivity].
Qed.

Lemma searchLoop_add (fit : Z -> bool) (a b : nat) :
  forall st, searchLoop (a + b) fit st = searchLoop b fit (searchLoop a fit st).
Proof.
  induction a as [|a IH]; intros st; [reflexivity|]. simpl.
  destruct (Z.leb_spec (minSize st) (maxSize st)) as [H|H].
  - destruct (fit _); apply IH.
  - now rewrite searchLoop_done.
Qed.

Lemma half_bounds (x : Z) : (2 * (x / 2) <= x < 2 * (x / 2) + 2)%Z.
Proof.
  pose proof (Z.div_mod x 2 ltac:(lia)). pose proof (Z.mod_pos_bound x 2 ltac:(lia)). lia.
Qed.

(** The interval halves in every round. *)
Lemma searchLoop_exit (fit : Z -> bool) (fuel : nat) :
  forall st,
    (maxSize st - minSize st + 1 < 2 ^ Z.of_nat fuel)%Z ->
    (maxSize (searchLoop fuel fit st) < minSize (searchLoop fuel fit st))%Z.
Proof.
  induction fuel as [|fuel IH]; intros st H.
  - simpl in *. lia.
  - rewrite Nat2Z.inj_succ, Z.pow_succ_r in H by lia. simpl.
    pose proof (half_bounds (minSize st + maxSize st)).
    destruct (Z.leb_spec (minSize st) (maxSize st)) as [Hle|Hgt]; [|lia].
    destruct (fit _); apply IH; simpl; lia.
Qed.

(** What holds of the loop whatever the measurements are. *)
Lemma searchLoop_any (fit : Z -> bool) (fuel : nat) :
  forall st,
    (8 <= minSize st)%Z -> (maxSize st <= 200)%Z ->
    (8 <= optimalSize st <= 200)%Z ->
    (optimalSize st = 8%Z \/ fit (optimalSize st) = true) ->
    let st' := searchLoop fuel fit st in
    (8 <= optimalSize st' <= 200)%Z /\
    (optimalSize st' = 8%Z \/ fit (optimalSize st') = true).
Proof.
  induction fuel as [|fuel IH]; intros st Hmin Hmax Hopt Hfit; simpl.
  - auto.
  - pose proof (half_bounds (minSize st + maxSize st)).
    destruct (Z.leb_spec (minSize st) (maxSize st)) as [Hle|Hgt]; [|auto].
    destruct (fit ((minSize st + maxSize st) / 2)%Z) eqn:Ht.
    + apply IH; simpl; try lia. now right.
    + apply IH; simpl; try lia. assumption.
Qed.

(** What holds when a size that fits makes every smaller size fit. *)
Lemma searchLoop_monotone (fit : Z -> bool) (fuel : nat) :
  (forall m n, (8 <= m <= n)%Z -> (n <= 200)%Z -> fit n = true -> fit m = true) ->
  forall st,
    (8 <= minSize st)%Z -> (maxSize st <= 200)%Z ->
    (forall n, (8 <= n < minSize st)%Z -> fit n = true) ->
    (forall n, (maxSize st < n <= 200)%Z -> fit n = false) ->
    (optimalSize st = minSize st - 1 \/ (minSize st = 8 /\ optimalSize st = 8))%Z ->
    let st' := searchLoop fuel fit st in
    (8 <= minSize st')%Z /\ (maxSize st' <= 200)%Z /\
    (forall n, (8 <= n < minSize st')%Z -> fit n = true) /\
    (forall n, (maxSize st' < n <= 200)%Z -> fit n = false) /\
    (optimalSize st' = minSize st' - 1 \/ (minSize st' = 8 /\ optimalSize st' = 8))%Z.
Proof.
  intros Hmono. induction fuel as [|fuel IH]; intros st Hmin Hmax Hlo Hhi Hopt; simpl.
  - auto.
  - pose proof (half_bounds (minSize st + maxSize st)) as Hh.
    destruct (Z.leb_spec (minSize st) (maxSize st)) as [Hle|Hgt]; [|auto].
    destruct (fit ((minSize st + maxSize st) / 2)%Z) eqn:Ht.
    + apply IH; simpl; try lia.
      * intros n Hn. apply (Hmono n ((minSize st + maxSize st) / 2)%Z); [lia|lia|exact Ht].
      * exact Hhi.
    + apply IH; simpl; try lia.
      * exact Hlo.
      * intros n Hn.
        destruct (fit n) eqn:Hfn; [|reflexivity].
        destruct (Z.le_gt_cases n (maxSize st)) as [Hn'|Hn'].
        -- rewrite <- Ht. symmetry.
           apply (Hmono ((minSize st + maxSize st) / 2)%Z n); [lia|lia|exact Hfn].
        -- rewrite <- Hfn. apply Hhi. lia.
Qed.

Lemma searchFontSize_range (fit : Z -> bool) :
  (8 <= searchFontSize fit <= 200)%Z /\
  (fit (searchFontSize fit) = true \/ searchFontSize fit = 8%Z).
Proof.
  pose proof (searchLoop_any fit 8 (mkSearch 8 200 8) ltac:(simpl; lia) ltac:(simpl; lia)
                ltac:(simpl; lia) (or_introl eq_refl)) as [Hr Hf].
  unfold searchFontSize. rewrite Z.max_l by lia. split; [exact Hr|]. tauto.
Qed.

(** X19.  The binary search of [calculateOptimalFontSize] ends within the
    eight rounds (more fuel changes nothing, and the interval is empty at
    the end), and whatever the browser measures, the size it gives lies
    between 8 and 200 and either fits or is the floor 8. *)
Theorem X19_font_size_in_range (fit : Z -> bool) :
  let st := searchLoop 8 fit (mkSearch 8 200 8) in
  (maxSize st < minSize st)%Z /\
  (forall extra, searchLoop (8 + extra) fit (mkSearch 8 200 8) = st) /\
  (8 <= searchFontSize fit <= 200)%Z /\
  (fit (searchFontSize fit) = true \/ searchFontSize fit = 8%Z).
Proof.
  intros st.
  assert (Hexit : (maxSize st < minSize st)%Z).
  { apply searchLoop_exit. simpl. lia. }
  split; [exact Hexit|]. split.
  { intros extra. rewrite searchLoop_add. fold st. now apply searchLoop_done. }
  apply searchFontSize_range.
Qed.

(** X20.  When a size that fits makes every smaller size fit, the search
    gives the largest size between 8 and 200 that fits; when not even 8
    fits, it gives 8. *)
Theorem X20_font_size_is_largest_fit (fit : Z -> bool) :
  (forall m n, (8 <= m <= n)%Z -> (n <= 200)%Z -> fit n = true -> fit m = true) ->
  (fit 8%Z = true ->
   forall n, (8 <= n <= 200)%Z -> (fit n = true <-> (n <= searchFontSize fit)%Z)) /\
  (fit 8%Z = false -> searchFontSize fit = 8%Z).
Proof.
  intros Hmono.
  pose proof (searchLoop_exit fit 8 (mkSearch 8 200 8)) as Hexit.
  assert (Hinit : (optimalSize (mkSearch 8 200 8) = minSize (mkSearch 8 200 8) - 1 \/
                   (minSize (mkSearch 8 200 8) = 8 /\ optimalSize (mkSearch 8 200 8) = 8))%Z)
    by (right; split; reflexivity).
  pose proof (searchLoop_monotone fit 8 Hmono (mkSearch 8 200 8)
                ltac:(simpl; lia) ltac:(simpl; lia)
                ltac:(simpl; intros; lia) ltac:(simpl; intros; lia) Hinit)
    as (Hmin & Hmax & Hlo & Hhi & Hopt).
  clear Hinit. unfold searchFontSize.
  set (st := searchLoop 8 fit (mkSearch 8 200 8)) in *.
  assert (Hx : (maxSize st < minSize st)%Z) by (apply Hexit; simpl; lia).
  clear Hexit. clearbody st.
  split.
  - intros H8 n Hn. split.
    + intros Hfn. destruct (Z.le_gt_cases n (Z.max (optimalSize st) 8)) as [|Hgt]; [assumption|].
      assert (Hfalse : fit n = false) by (apply Hhi; lia). congruence.
    + intros Hle. destruct (Z.eq_dec n 8) as [->|Hn8]; [exact H8|].
      apply Hlo. lia.
  - intros H8. destruct Hopt as [Hopt|[Hm Hopt]].
    + destruct (Z.eq_dec (minSize st) 8) as [E|E]; [lia|].
      assert (fit 8%Z = true) by (apply Hlo; lia). congruence.
    + rewrite Hopt. reflexivity.
Qed.

Lemma X20_font_size_is_largest_fit_witness :
  (forall n, (8 <= n <= 200)%Z ->
     ((n <=? 50)%Z = true <-> (n <= searchFontSize (fun n => (n <=? 50)%Z))%Z)) /\
  searchFontSize (fun n => (n <=? 50)%Z) = 50%Z.
Proof.
  split; [|reflexivity].
  refine (proj1 (X20_font_size_is_largest_fit (fun n => (n <=? 50)%Z) _) eq_refl).
  intros m n Hm Hn H. apply Z.leb_le in H. apply Z.leb_le. lia.
Defined.

(** ** The cache of font sizes *)

Lemma jsEqb_refl (a : JsString) : jsEqb a a = true.
Proof. induction a; simpl; [reflexivity|]. now rewrite N.eqb_refl. Qed.

(** X21.  A size, once computed for a language and a text, is what every
    later call gives, without measuring and without saving again: also
    the fallback 16 of a box that had no room, when the box has room
    later.  The call leaves the sizes of all other keys as they were, and
    calls [saveFontSizes] exactly when the key was not in the cache. *)
Theorem X21_font_size_cache (fontSizeCache : FontSizeCache) (layout : Layout)
    (lines : list JsString) (text language : JsString) (r : Sized) :
  calculateOptimalFontSize fontSizeCache layout lines text language = Some r ->
  (forall layout' lines',
     calculateOptimalFontSize (cacheAfter r) layout' lines' text language =
     Some (mkSized (fontSize r) (cacheAfter r) false)) /\
  (forall other, jsEqb (cacheKeyOf language text) other = false ->
     cached other (cacheAfter r) = cached other fontSizeCache) /\
  (saved r = true <-> cached (cacheKeyOf language text) fontSizeCache = None) /\
  (cached (cacheKeyOf language text) fontSizeCache = None ->
   hasRoom layout = false -> fontSize r = 16%Z).
Proof.
  unfold calculateOptimalFontSize.
  destruct (cached (cacheKeyOf language text) fontSizeCache) as [size|] eqn:Hc.
  - intros H. injection H as <-. simpl. repeat split; try discriminate.
    intros. now rewrite Hc.
  - destruct (hasRoom layout) eqn:Hroom; simpl.
    + destruct (longestLine lines) as [line|]; [|discriminate].
      intros H. injection H as <-. simpl. repeat split; try discriminate.
      * intros. now rewrite jsEqb_refl.
      * intros other Ho. now rewrite Ho.
    + intros H. injection H as <-. simpl. repeat split.
      * intros. now rewrite jsEqb_refl.
      * intros other Ho. now rewrite Ho.
Qed.

Lemma X21_font_size_cache_witness :
  calculateOptimalFontSize [(cacheKeyOf [101; 110]%N [104; 105]%N, 16%Z)] (mkLayout true (fun _ _ _ => true)) [] [104; 105]%N [101; 110]%N =
  Some (mkSized 16 [(cacheKeyOf [101; 110]%N [104; 105]%N, 16%Z)] false).
Proof.
  exact (proj1 (X21_font_size_cache [] (mkLayout false (fun _ _ _ => true)) []
                  [104; 105]%N [101; 110]%N
                  (mkSized 16 [(cacheKeyOf [101; 110]%N [104; 105]%N, 16%Z)] true) eq_refl)
           (mkLayout true (fun _ _ _ => true)) []).
Defined.

(** X22.  The computation that [formatTextForBox] schedules fails (the
    TypeError of [reduce] on an empty array) exactly for a text made of
    white space only, in a box with room, whose size is not cached; a text
    with a printable unit always gets a size, which is the cached one, the
    fallback 16, or a size between 8 and 200. *)
Theorem X22_blank_text_has_no_size (fontSizeCache : FontSizeCache) (layout : Layout)
    (text language : JsString) :
  (sizeForBox fontSizeCache layout text language = None <->
   cached (cacheKeyOf language text) fontSizeCache = None /\
   hasRoom layout = true /\ forallb isWhiteSpace text = true) /\
  (forall r, sizeForBox fontSizeCache layout text language = Some r ->
     cached (cacheKeyOf language text) fontSizeCache = Some (fontSize r) \/
     fontSize r = 16%Z \/ (8 <= fontSize r <= 200)%Z).
Proof.
  unfold sizeForBox, calculateOptimalFontSize.
  destruct (cached (cacheKeyOf language text) fontSizeCache) as [size|] eqn:Hc.
  { split.
    - split; [discriminate|]. intros [H _]. discriminate.
    - intros r H. injection H as <-. now left. }
  destruct (hasRoom layout) eqn:Hroom; simpl.
  - destruct (splitTextIntoLines text) as [|w l] eqn:E; simpl.
    + split.
      * split; [|reflexivity]. intros _. repeat split. now apply blank_iff_no_lines.
      * discriminate.
    + split.
      * split; [discriminate|]. intros (_ & _ & H).
        apply blank_iff_no_lines in H. congruence.
      * intros r H. injection H as <-. simpl. right. right.
        apply searchFontSize_range.
  - split.
    + split; [discriminate|]. intros (_ & H & _). discriminate.
    + intros r H. injection H as <-. simpl. right. now left.
Qed.

Lemma X22_blank_text_has_no_size_witness :
  sizeForBox [] (mkLayout true (fun _ _ _ => true)) [32; 10]%N [101; 110]%N = None.
Proof.
  apply (proj1 (X22_blank_text_has_no_size [] (mkLayout true (fun _ _ _ => true))
                  [32; 10]%N [101; 110]%N)).
  repeat split.
Defined.

End LegacyTextExtras.
(** * The earlier variant: precomputation on every render *)

Section LegacySelectExtras.
Import Js Selection Controller.

Lemma legacy_updateGridStates (p : Legacy.Page) :
  Legacy.onWordcloudPage p = false ->
  let p' := Legacy.updateGridStates p in
  Legacy.items p' = Legacy.items p /\ Legacy.language p' = Legacy.language p /\
  Legacy.onWordcloudPage p' = false /\
  Legacy.texts p' = Legacy.texts p /\ Legacy.pageHost p' = Legacy.pageHost p /\
  Legacy.launchOff p' = negb (length (Legacy.items p) =? 3) /\
  Legacy.sent p' =
    Legacy.sent p ++
    (if length (Legacy.items p) =? 3
     then [ReqPreview (map key (Legacy.items p)) (Legacy.language p)] else []).
Proof.
  intros Hw. unfold Legacy.updateGridStates. simpl. rewrite Hw. simpl.
  destruct (length (Legacy.items p) =? 3); simpl; rewrite ?app_nil_r; auto 10.
Qed.

(** The keys of a selection after a click on a grid item are keys it had
    or the key of the item clicked; after a click on a rocket block, keys
    it had. *)
Lemma toggleItem_keys (P : string -> Prop) (b : GridButton) (l : list Item) :
  (forall x, In x l -> P (key x)) -> P (datasetKey b) ->
  forall x, In x (toggleItem b l) -> P (key x).
Proof.
  intros Hl Hb x Hx.
  destruct (in_dec string_dec (datasetKey b) (keys l)) as [Hk | Hk].
  - destruct (toggleItem_present b l Hk) as (l1 & y & l2 & El & _ & _ & Et).
    rewrite Et in Hx. apply Hl. rewrite El.
    apply in_app_or in Hx. apply in_or_app. destruct Hx; [now left | right; now right].
  - destruct (Nat.lt_ge_cases (length l) 3) as [Hlt | Hge].
    + rewrite (toggleItem_new b l Hk Hlt) in Hx. apply in_app_or in Hx.
      destruct Hx as [Hx | [<- | []]]; [now apply Hl | exact Hb].
    + rewrite (toggleItem_full b l Hk Hge) in Hx. now apply Hl.
Qed.

Lemma toggleSlot_keys (P : string -> Prop) (i : nat) (l : list Item) :
  (forall x, In x l -> P (key x)) ->
  forall x, In x (fst (toggleSlot i l)) -> P (key x).
Proof.
  intros Hl x Hx.
  destruct (in_dec Nat.eq_dec i (slots l)) as [Hk | Hk].
  - destruct (toggleSlot_occupied i l Hk) as (l1 & y & l2 & El & _ & _ & Et).
    rewrite Et in Hx. simpl in Hx. apply Hl. rewrite El.
    apply in_app_or in Hx. apply in_or_app. destruct Hx; [now left | right; now right].
  - rewrite (toggleSlot_free i l Hk) in Hx. now apply Hl.
Qed.

Lemma no_text_raises (h : Host) (tr : Translations) (l : list Item) :
  (forall x, In x l -> raisesInBox (getProperty h tr (key x)) = false) ->
  existsb (blockRaises h tr) l = false.
Proof.
  intros Hl. destruct (existsb (blockRaises h tr) l) eqn:E; [| reflexivity].
  apply existsb_exists in E. destruct E as (x & Hx & Hr).
  unfold blockRaises in Hr. rewrite (Hl x Hx), andb_false_r in Hr. discriminate.
Qed.

(** What every click keeps when the text of the item clicked is a string or
    missing: the page is the index page, the language, the texts and the
    host are those of the start, no selected text raises, and with three
    items selected the last request sent is the preview of exactly these
    items, the launch button being enabled. *)
Lemma legacy_click_keeps (p0 p : Legacy.Page) (c : Legacy.Click) :
  (forall b, c = Legacy.GridItem b ->
     raisesInBox (getProperty (Legacy.pageHost p0) (Legacy.texts p0) (datasetKey b)) = false) ->
  (Legacy.onWordcloudPage p = false /\ Legacy.language p = Legacy.language p0 /\
   Legacy.texts p = Legacy.texts p0 /\ Legacy.pageHost p = Legacy.pageHost p0 /\
   (forall x, In x (Legacy.items p) ->
      raisesInBox (getProperty (Legacy.pageHost p0) (Legacy.texts p0) (key x)) = false) /\
   (length (Legacy.items p) = 3 ->
    Legacy.launchOff p = false /\
    exists earlier,
      Legacy.sent p = earlier ++ [ReqPreview (map key (Legacy.items p)) (Legacy.language p)])) ->
  let p' := Legacy.click p c in
  Legacy.onWordcloudPage p' = false /\ Legacy.language p' = Legacy.language p0 /\
  Legacy.texts p' = Legacy.texts p0 /\ Legacy.pageHost p' = Legacy.pageHost p0 /\
  (forall x, In x (Legacy.items p') ->
     raisesInBox (getProperty (Legacy.pageHost p0) (Legacy.texts p0) (key x)) = false) /\
  (length (Legacy.items p') = 3 ->
   Legacy.launchOff p' = false /\
   exists earlier,
     Legacy.sent p' = earlier ++ [ReqPreview (map key (Legacy.items p')) (Legacy.language p')]).
Proof.
  intros Hc (Hw & Hl & Ht & Hh & Hsafe & H3).
  assert (Hre : forall l,
    (forall x, In x l ->
       raisesInBox (getProperty (Legacy.pageHost p0) (Legacy.texts p0) (key x)) = false) ->
    let q := Legacy.rerender l p in
    Legacy.onWordcloudPage q = false /\ Legacy.language q = Legacy.language p0 /\
    Legacy.texts q = Legacy.texts p0 /\ Legacy.pageHost q = Legacy.pageHost p0 /\
    (forall x, In x (Legacy.items q) ->
       raisesInBox (getProperty (Legacy.pageHost p0) (Legacy.texts p0) (key x)) = false) /\
    (length (Legacy.items q) = 3 ->
     Legacy.launchOff q = false /\
     exists earlier,
       Legacy.sent q = earlier ++ [ReqPreview (map key (Legacy.items q)) (Legacy.language q)])).
  { intros l Hsafe' q. subst q. unfold Legacy.rerender, Legacy.updateRocketBlocksRaises.
    cbn [Legacy.items Legacy.texts Legacy.pageHost]. rewrite Ht, Hh.
    rewrite (no_text_raises _ _ l Hsafe').
    set (r := Legacy.mkPage l (Legacy.language p) (Legacy.sent p)
                (Legacy.onWordcloudPage p) (Legacy.launchOff p)
                (Legacy.texts p0) (Legacy.pageHost p0)).
    destruct (legacy_updateGridStates r Hw) as (Hi & Hla & Hw' & Ht' & Hh' & Hoff & Hs).
    simpl in Hi, Hla, Ht', Hh', Hoff, Hs.
    split; [exact Hw' |]. split; [congruence |]. split; [exact Ht' |]. split; [exact Hh' |].
    split; [rewrite Hi; exact Hsafe' |].
    intros Hlen. rewrite Hi in Hlen. rewrite Hoff, Hs, Hi, Hla.
    apply Nat.eqb_eq in Hlen. rewrite Hlen. simpl. split; [reflexivity |].
    now exists (Legacy.sent p). }
  destruct c as [b | i]; simpl.
  - apply Hre.
    apply (toggleItem_keys
             (fun k => raisesInBox (getProperty (Legacy.pageHost p0) (Legacy.texts p0) k)
                       = false)); [exact Hsafe | now apply Hc].
  - unfold Legacy.handleRocketBlockClick.
    pose proof (toggleSlot_keys
                  (fun k => raisesInBox (getProperty (Legacy.pageHost p0) (Legacy.texts p0) k)
                            = false) i (Legacy.items p) Hsafe) as Hslot.
    destruct (toggleSlot i (Legacy.items p)) as [l [|]].
    + apply Hre. exact Hslot.
    + auto 10.
Qed.

(** X23.  In the earlier variant, after any clicks on grid items and
    rocket blocks of an index page that started with nothing selected,
    where the text of every grid item clicked is a string or missing, so
    that the rendering of the rocket blocks never raises: when three items
    are selected, the launch button is enabled, the last request sent is
    the preview of exactly these three keys, and a launch sends the vote
    for the same keys right after it; when not, the launch handler does
    nothing. *)
Theorem X23_legacy_vote_follows_its_preview (p0 : Legacy.Page) (clicks : list Legacy.Click) :
  Legacy.items p0 = [] -> Legacy.onWordcloudPage p0 = false ->
  (forall b, In (Legacy.GridItem b) clicks ->
     raisesInBox (getProperty (Legacy.pageHost p0) (Legacy.texts p0) (datasetKey b)) = false) ->
  let p := fold_left Legacy.click clicks p0 in
  let ks := map key (Legacy.items p) in
  (length (Legacy.items p) = 3 ->
   Legacy.launchOff p = false /\
   exists earlier,
     Legacy.sent p = earlier ++ [ReqPreview ks (Legacy.language p0)] /\
     Legacy.sent (Legacy.handleLaunchButtonClick p) =
       earlier ++ [ReqPreview ks (Legacy.language p0); ReqVote ks]) /\
  (length (Legacy.items p) <> 3 -> Legacy.handleLaunchButtonClick p = p).
Proof.
  intros H0 Hw Hsafe p ks.
  assert (Hinv : Legacy.onWordcloudPage p = false /\ Legacy.language p = Legacy.language p0 /\
    Legacy.texts p = Legacy.texts p0 /\ Legacy.pageHost p = Legacy.pageHost p0 /\
    (forall x, In x (Legacy.items p) ->
       raisesInBox (getProperty (Legacy.pageHost p0) (Legacy.texts p0) (key x)) = false) /\
    (length (Legacy.items p) = 3 ->
     Legacy.launchOff p = false /\
     exists earlier,
       Legacy.sent p = earlier ++ [ReqPreview (map key (Legacy.items p)) (Legacy.language p)])).
  { subst ks p. induction clicks as [|c cs IH] using rev_ind.
    - simpl. rewrite H0. simpl. split; [exact Hw |]. repeat (split; [reflexivity |]).
      split; [intros x [] | discriminate].
    - rewrite fold_left_app. cbn [fold_left]. apply legacy_click_keeps.
      + intros b ->. apply Hsafe. apply in_or_app. right. now left.
      + apply IH. intros b Hb. apply Hsafe. apply in_or_app. now left. }
  destruct Hinv as (_ & Hl & _ & _ & _ & H3). split.
  - intros Hlen. destruct (H3 Hlen) as (Hoff & earlier & Hs). split; [exact Hoff |].
    exists earlier. rewrite Hl in Hs. split; [exact Hs |].
    unfold Legacy.handleLaunchButtonClick. rewrite Hlen. simpl. rewrite Hs.
    now rewrite <- app_assoc.
  - intros Hlen. unfold Legacy.handleLaunchButtonClick.
    apply Nat.eqb_neq in Hlen. now rewrite Hlen.
Qed.

Lemma X23_legacy_vote_follows_its_preview_witness :
  Legacy.launchOff
    (fold_left Legacy.click
       [Legacy.GridItem Examples.water; Legacy.GridItem Examples.music;
        Legacy.GridItem Examples.camera; Legacy.RocketBlock 1;
        Legacy.GridItem Examples.book] Legacy.emptyPage) = false.
Proof.
  refine (proj1 (proj1 (X23_legacy_vote_follows_its_preview Legacy.emptyPage
                          [Legacy.GridItem Examples.water; Legacy.GridItem Examples.music;
                           Legacy.GridItem Examples.camera; Legacy.RocketBlock 1;
                           Legacy.GridItem Examples.book] eq_refl eq_refl _) eq_refl)).
  intros b [H | [H | [H | [H | [H | []]]]]]; try discriminate;
    injection H as <-; reflexivity.
Defined.

(** X24.  In the earlier variant a click on a fourth item, refused by the
    selection, re-renders all the same.  When the rendering of the rocket
    blocks does not raise, the click sends the preview of the three
    selected keys once more and leaves the launch button enabled; when it
    raises, nothing is sent and the launch button stays as it was.  The
    selection and everything else on the page are unchanged. *)
Theorem X24_legacy_refused_click_sends_preview (p : Legacy.Page) (b : GridButton) :
  length (Legacy.items p) = 3 ->
  ~ In (datasetKey b) (map key (Legacy.items p)) ->
  Legacy.onWordcloudPage p = false ->
  Legacy.handleGridItemClick b p =
  if Legacy.updateRocketBlocksRaises p
  then p
  else Legacy.mkPage (Legacy.items p) (Legacy.language p)
         (Legacy.sent p ++ [ReqPreview (map key (Legacy.items p)) (Legacy.language p)])
         false false (Legacy.texts p) (Legacy.pageHost p).
Proof.
  intros Hlen Hk Hw. unfold Legacy.handleGridItemClick, Legacy.rerender.
  rewrite (toggleItem_full b (Legacy.items p) Hk) by (rewrite Hlen; auto).
  unfold Legacy.updateRocketBlocksRaises.
  cbn [Legacy.items Legacy.texts Legacy.pageHost].
  destruct (existsb _ (Legacy.items p)).
  - now destruct p.
  - unfold Legacy.updateGridStates.
    cbn [Legacy.items Legacy.language Legacy.sent Legacy.onWordcloudPage Legacy.launchOff
         Legacy.texts Legacy.pageHost].
    rewrite Hlen, Hw. reflexivity.
Qed.

Lemma X24_legacy_refused_click_sends_preview_witness :
  Legacy.sent (Legacy.handleGridItemClick Examples.camera Legacy.threePicked) =
  [ReqPreview ["water"; "music"; "book"] "en"; ReqPreview ["water"; "music"; "book"] "en"].
Proof.
  rewrite (X24_legacy_refused_click_sends_preview Legacy.threePicked Examples.camera).
  - reflexivity.
  - reflexivity.
  - simpl. intros [H|[H|[H|[]]]]; discriminate.
  - reflexivity.
Defined.

End LegacySelectExtras.
